(** * Apartment listing app: the listing API, the creation endpoint, the file
  handlers and the [useApartments] hook

  A shallow embedding of

  - [src/app/api/apartments/route.ts]  (handlers [GET] and [POST]),
  - [src/lib/validations/Apartment.ts] ([ApartmentSchema]),
  - the file route (handlers [GET] and [HEAD] of [/api/files/{filename}]),
  - [src/hooks/useApartments.ts]       (the fetch coordinator),
  - the detail route (handler [GET] of [/api/apartments/{id}]),
  - [src/app/api/upload/route.ts]      ([sanitizeFileName], handler [POST]),
  - the components [Pagination] and [AddApartmentModal] (the page buttons
    and the two handlers of the form's images),

  followed by the properties of the specification that concern them, and by
  further properties of the code.

  Conventions.  JavaScript strings are [string]s of ASCII characters.  A
  JavaScript number that is the result of [parseInt] or of integer
  arithmetic is a [JS.number] (an integer, a negative zero, an infinity or
  NaN); integers are exact, as they are in a double below 2^53.  A handler
  that throws inside its [try] block is modelled by the [catch] branch it
  reaches.  Promises are modelled by their suspension points: an [await]
  either continues at once (handler code on the server) or leaves a
  suspended activation that a later event resumes (the hook). *)

From stdpp Require Import gmap strings list pretty sorting.
From Stdlib Require Import ZArith QArith Ascii.

#[local] Set Warnings "-register-all".
#[local] Open Scope Z_scope.

(** ** JavaScript built-ins used by the handlers *)

Module JS.

(** Numbers as the listing handler meets them. [Int 0] is [+0]. *)
Inductive number : Type :=
| NaN
| PosInf
| NegInf
| NegZero
| Int (z : Z).

#[global] Instance number_eq_dec : EqDecision number.
Proof. solve_decision. Defined.

(** The sign bit, the mathematical value of the finite numbers. *)
Definition negative (a : number) : bool :=
  match a with
  | NegInf | NegZero => true
  | Int z => z <? 0
  | NaN | PosInf => false
  end.

Definition zero (sign : bool) : number := if sign then NegZero else Int 0.
Definition infinity (sign : bool) : number := if sign then NegInf else PosInf.

Definition value (a : number) : option Z :=
  match a with
  | Int z => Some z
  | NegZero => Some 0
  | NaN | PosInf | NegInf => None
  end.

(** [a - b], the only subtraction the handler performs is [page - 1]. *)
Definition sub (a b : number) : number :=
  match a, b with
  | NaN, _ | _, NaN => NaN
  | PosInf, PosInf | NegInf, NegInf => NaN
  | PosInf, _ | _, NegInf => PosInf
  | NegInf, _ | _, PosInf => NegInf
  | NegZero, Int 0 => NegZero
  | _, _ =>
      match value a, value b with
      | Some x, Some y => Int (x - y)
      | _, _ => NaN
      end
  end.

(** [a * b]: the sign of a zero or infinite product is the exclusive or of
    the signs of the factors, and [0 * Infinity] is [NaN]. *)
Definition mul (a b : number) : number :=
  let sign := xorb (negative a) (negative b) in
  match a, b with
  | NaN, _ | _, NaN => NaN
  | _, _ =>
      match value a, value b with
      | Some x, Some y => if x * y =? 0 then zero sign else Int (x * y)
      | Some x, None | None, Some x => if x =? 0 then NaN else infinity sign
      | None, None => infinity sign
      end
  end.

(** [Math.ceil(a / b)]. The quotient of two integers is not an integer in
    general, so the division and the rounding are taken together:
    [- ((- x) / y)] with the floor division of [Z] is the ceiling of
    [x / y]. A result that rounds up to zero from below is [-0]. *)
Definition ceil_div (a b : number) : number :=
  let sign := xorb (negative a) (negative b) in
  match a, b with
  | NaN, _ | _, NaN => NaN
  | _, _ =>
      match value a, value b with
      | Some x, Some y =>
          if y =? 0 then (if x =? 0 then NaN else infinity sign)
          else
            let q := - ((- x) / y) in
            if q =? 0 then zero sign else Int q
      | Some _, None => zero sign
      | None, Some _ => infinity sign
      | None, None => NaN
      end
  end.

(** [a < b] and [a > b]; every comparison with [NaN] is false. *)
Definition lt (a b : number) : bool :=
  match a, b with
  | NaN, _ | _, NaN => false
  | PosInf, _ | _, NegInf => false
  | NegInf, _ | _, PosInf => true
  | _, _ =>
      match value a, value b with
      | Some x, Some y => x <? y
      | _, _ => false
      end
  end.

Definition gt (a b : number) : bool := lt b a.

(** Characters. *)
Definition code (c : ascii) : Z := Z.of_nat (nat_of_ascii c).

(** White space that [parseInt] skips (the ASCII part of it). *)
Definition is_white_space (c : ascii) : bool :=
  ((9 <=? code c) && (code c <=? 13)) || (code c =? 32).

Fixpoint trim_start (s : string) : string :=
  match s with
  | String c r => if is_white_space c then trim_start r else s
  | EmptyString => s
  end.

(** The value of [c] as a digit, up to radix 36. *)
Definition digit_value (c : ascii) : option Z :=
  let n := code c in
  if (48 <=? n) && (n <=? 57) then Some (n - 48)
  else if (97 <=? n) && (n <=? 122) then Some (n - 87)
  else if (65 <=? n) && (n <=? 90) then Some (n - 55)
  else None.

(** The longest prefix of [s] made of digits of the radix, as a number;
    [None] when that prefix is empty. *)
Fixpoint read_digits (radix : Z) (acc : option Z) (s : string) : option Z :=
  match s with
  | String c r =>
      match digit_value c with
      | Some d =>
          if d <? radix
          then read_digits radix (Some (default 0 acc * radix + d)) r
          else acc
      | None => acc
      end
  | EmptyString => acc
  end.

(** [parseInt(s)] with no radix argument. *)
Definition parseInt (s : string) : number :=
  let s1 := trim_start s in
  let '(sign, s2) :=
    match s1 with
    | String "-" r => (true, r)
    | String "+" r => (false, r)
    | _ => (false, s1)
    end in
  let '(radix, s3) :=
    match s2 with
    | String "0" (String "x" r) | String "0" (String "X" r) => (16, r)
    | _ => (10, s2)
    end in
  match read_digits radix None s3 with
  | None => NaN
  | Some n => if sign then (if n =? 0 then NegZero else Int (- n)) else Int n
  end.

(** [String(n)] for an integer. An integer [n] of this development stands
    for the JS number of that value. Up to 2^53 every integer is one, and
    [String] writes its decimal digits. Above, the numbers are the
    integers with 53 significant bits, and [String] writes the fewest
    significant digits that read back as the same number, the nearest to
    it when there is a choice, followed by zeros: [String(2**60)] is
    [1152921504606847000]. From 10^21 on the notation has an exponent:
    [1e+21], [1.5e+21]. *)

(** The JS number nearest to a natural number, ties to the even one. *)
Definition to_double (v : Z) : Z :=
  if v <? 2 ^ 53 then v
  else
    let shift := Z.log2 v - 52 in
    let q := Z.shiftr v shift in
    let r := v - Z.shiftl q shift in
    let half := Z.shiftl 1 (shift - 1) in
    let q := if r <? half then q
             else if half <? r then q + 1
             else if Z.even q then q else q + 1 in
    Z.shiftl q shift.

(** The integer with at most [k] significant digits that reads back as
    [n], when there is one. *)
Definition with_digits (n : Z) (k : Z) : option Z :=
  let e := Z.of_nat (String.length (pretty n)) in
  let p := 10 ^ Z.max 0 (e - k) in
  let lo := n / p * p in
  let hi := lo + p in
  match to_double lo =? n, to_double hi =? n with
  | true, true =>
      Some (if n - lo <? hi - n then lo
            else if hi - n <? n - lo then hi
            else if Z.even (n / p) then lo else hi)
  | true, false => Some lo
  | false, true => Some hi
  | false, false => None
  end.

Fixpoint fewest_digits (n : Z) (ks : list Z) : Z :=
  match ks with
  | [] => n
  | k :: ks =>
      match with_digits n k with
      | Some v => v
      | None => fewest_digits n ks
      end
  end.

(** The integer whose digits [String] writes for the natural number [n]:
    17 significant digits are always enough. *)
Definition shortest (n : Z) : Z :=
  if n <? 2 ^ 53 then n else fewest_digits n (seqZ 1 17).

Fixpoint drop_zeros_end (s : string) : string :=
  match s with
  | EmptyString => EmptyString
  | String c r =>
      match drop_zeros_end r with
      | EmptyString => if Ascii.eqb c "0" then EmptyString else String c EmptyString
      | r1 => String c r1
      end
  end.

Definition exponent (m : Z) : string :=
  let digits := pretty m in
  let e := Z.of_nat (String.length digits) - 1 in
  match drop_zeros_end digits with
  | EmptyString => "0"
  | String d EmptyString => String d ("e+" +:+ pretty e)
  | String d rest => String d ("." +:+ rest +:+ "e+" +:+ pretty e)
  end.

Definition String_natural (n : Z) : string :=
  let v := shortest n in
  if v <? 10 ^ 21 then pretty v else exponent v.

Definition String_ (n : Z) : string :=
  if n <? 0 then "-" +:+ String_natural (- n) else String_natural n.

(** Truthiness of a string, [a || b] on strings that may be [null]. *)
Definition truthy (s : string) : bool :=
  match s with EmptyString => false | String _ _ => true end.

Definition or_else (a : option string) (b : string) : string :=
  match a with
  | Some s => if truthy s then s else b
  | None => b
  end.

(** [s.includes(sub)]. *)
Fixpoint includes (sub s : string) : bool :=
  String.prefix sub s ||
  match s with
  | String _ r => includes sub r
  | EmptyString => false
  end.

(** [s.toLowerCase()] on ASCII. *)
Definition lower (c : ascii) : ascii :=
  if (65 <=? code c) && (code c <=? 90)
  then ascii_of_nat (nat_of_ascii c + 32)
  else c.

Fixpoint toLowerCase (s : string) : string :=
  match s with
  | String c r => String (lower c) (toLowerCase r)
  | EmptyString => EmptyString
  end.

(** [URLSearchParams]: the entries in order; [get] gives the first value of
    a name, [set] replaces the first entry of the name and drops the
    others, or appends. *)
Definition URLSearchParams : Type := list (string * string).

Fixpoint get (name : string) (p : URLSearchParams) : option string :=
  match p with
  | (k, v) :: r => if String.eqb k name then Some v else get name r
  | [] => None
  end.

Definition drop_name (name : string) (p : URLSearchParams) : URLSearchParams :=
  List.filter (fun e => negb (String.eqb (fst e) name)) p.

Fixpoint set (name v : string) (p : URLSearchParams) : URLSearchParams :=
  match p with
  | (k, w) :: r =>
      if String.eqb k name then (k, v) :: drop_name name r
      else (k, w) :: set name v r
  | [] => [(name, v)]
  end.

(** Numbers that need not be integers (a price): the finite ones are
    rationals. *)
Inductive float : Type :=
| FNaN
| FInf (neg : bool)
| Fin (q : Q).

Definition isNaN (x : float) : bool :=
  match x with FNaN => true | _ => false end.

(** [x > 0]. *)
Definition positive (x : float) : bool :=
  match x with
  | FNaN => false
  | FInf neg => negb neg
  | Fin q => if Qlt_le_dec 0 q then true else false
  end.

End JS.

(** ** The creation schema ([src/lib/validations/Apartment.ts]) *)

Module Validation.
Import JS.

(** *** Regular expressions

    The two patterns of the schema use literals, a character class, a
    bounded repetition, an alternative and [.*]. [matches] is what it
    means for a whole string to match; [accepts] decides it by
    derivatives. *)
Inductive regex : Type :=
| Never
| Epsilon
| Class (p : ascii -> bool)
| Seq (r1 r2 : regex)
| Alt (r1 r2 : regex)
| Star (r : regex).

Inductive matches : regex -> string -> Prop :=
| m_epsilon : matches Epsilon EmptyString
| m_class p c : p c = true -> matches (Class p) (String c EmptyString)
| m_seq r1 r2 s1 s2 :
    matches r1 s1 -> matches r2 s2 -> matches (Seq r1 r2) (s1 +:+ s2)
| m_alt_l r1 r2 s : matches r1 s -> matches (Alt r1 r2) s
| m_alt_r r1 r2 s : matches r2 s -> matches (Alt r1 r2) s
| m_star_nil r : matches (Star r) EmptyString
| m_star_cons r s1 s2 :
    matches r s1 -> matches (Star r) s2 -> matches (Star r) (s1 +:+ s2).

Fixpoint nullable (r : regex) : bool :=
  match r with
  | Never | Class _ => false
  | Epsilon | Star _ => true
  | Seq r1 r2 => nullable r1 && nullable r2
  | Alt r1 r2 => nullable r1 || nullable r2
  end.

Fixpoint deriv (c : ascii) (r : regex) : regex :=
  match r with
  | Never | Epsilon => Never
  | Class p => if p c then Epsilon else Never
  | Seq r1 r2 =>
      if nullable r1
      then Alt (Seq (deriv c r1) r2) (deriv c r2)
      else Seq (deriv c r1) r2
  | Alt r1 r2 => Alt (deriv c r1) (deriv c r2)
  | Star r1 => Seq (deriv c r1) (Star r1)
  end.

Fixpoint accepts (r : regex) (s : string) : bool :=
  match s with
  | EmptyString => nullable r
  | String c s1 => accepts (deriv c r) s1
  end.

(** Pattern syntax. *)
Definition chr (c : ascii) : regex := Class (Ascii.eqb c).

Fixpoint lit (s : string) : regex :=
  match s with
  | EmptyString => Epsilon
  | String c r => Seq (chr c) (lit r)
  end.

Fixpoint times (n : nat) (r : regex) : regex :=
  match n with
  | O => Epsilon
  | S m => Seq r (times m r)
  end.

Definition range (lo hi : ascii) : ascii -> bool :=
  fun c => (code lo <=? code c) && (code c <=? code hi).

Definition any : regex := Class (fun _ => true).

(** [.] is every character but a line terminator. *)
Definition dot : regex :=
  Class (fun c => negb ((code c =? 10) || (code c =? 13))).

(** [re.test(s)] for a pattern [^re$], and for a pattern [^re] that is not
    anchored at the end. *)
Definition test_whole (r : regex) (s : string) : bool := accepts r s.
Definition test_start (r : regex) (s : string) : bool := accepts (Seq r (Star any)) s.

(** [/^(\+201|00201)[0-2,5]{1}[0-9]{8}$/]: the class holds the digits 0 to
    2, the comma and the digit 5. *)
Definition contact_class : ascii -> bool :=
  fun c => range "0" "2" c || Ascii.eqb c "," || Ascii.eqb c "5".

Definition contactNumber_re : regex :=
  Seq (Alt (lit "+201") (lit "00201"))
    (Seq (times 1 (Class contact_class)) (times 8 (Class (range "0" "9")))).

(** [/^\/api\/files\/.*/]. *)
Definition imageUrl_re : regex := Seq (lit "/api/files/") (Star dot).

(** Every character of [s] satisfies [p]. *)
Fixpoint every (p : ascii -> bool) (s : string) : bool :=
  match s with
  | EmptyString => true
  | String c r => p c && every p r
  end.

(** *** JSON values, as [request.json()] returns them *)
Inductive json : Type :=
| JNull
| JBool (b : bool)
| JNumber (q : Q)
| JString (s : string)
| JArray (l : list json)
| JObject (m : gmap string json).

(** *** [ApartmentSchema] *)

Record ApartmentInput : Type := {
  name : string;
  unitNumber : string;
  project : string;
  description : string;
  price : float;
  contactNumber : string;
  imageUrls : list string
}.

Inductive field : Type :=
| f_name | f_unitNumber | f_project | f_description
| f_price | f_contactNumber | f_imageUrls.

#[global] Instance field_eq_dec : EqDecision field.
Proof. solve_decision. Defined.

(** The report of a failed parse, as [z.treeifyError] shapes it: errors of
    the value as a whole, and the properties that have errors, in the
    order of the schema. The texts of the messages are the library's and
    are not modelled. *)
Record ErrorTree : Type := {
  errors : bool;
  properties : list field
}.

Inductive SafeParse : Type :=
| Success (data : ApartmentInput)
| Error (error : ErrorTree).

Section Schema.
(** The built-in conversion [Number(s)] of a string. *)
Variable Number : string -> float.

(** [z.string().min(1, ...)]; the input is [None] for a missing key. *)
Definition string_min1 (v : option json) : option string :=
  match v with
  | Some (JString s) => if (1 <=? String.length s)%nat then Some s else None
  | _ => None
  end.

(** [z.number().positive(...)]. *)
Definition number_positive (v : option json) : option float :=
  match v with
  | Some (JNumber q) => if positive (Fin q) then Some (Fin q) else None
  | _ => None
  end.

(** [z.string().refine(...).transform(...)]. *)
Definition numeric_string (v : option json) : option float :=
  match v with
  | Some (JString val) =>
      if negb (isNaN (Number val)) && positive (Number val)
      then Some (Number val)
      else None
  | _ => None
  end.

(** [z.union([...]).transform((val) => Number(val))]: the first member
    that parses; [Number] of a number is that number. *)
Definition price_schema (v : option json) : option float :=
  match number_positive v with
  | Some x => Some x
  | None => numeric_string v
  end.

(** [z.string().regex(...)]. *)
Definition string_regex (test : string -> bool) (v : option json) : option string :=
  match v with
  | Some (JString s) => if test s then Some s else None
  | _ => None
  end.

(** [z.array(z.string().regex(...)).min(1, ...).max(8, ...)]. *)
Fixpoint items (l : list json) : option (list string) :=
  match l with
  | [] => Some []
  | x :: r =>
      match string_regex (test_start imageUrl_re) (Some x), items r with
      | Some s, Some ss => Some (s :: ss)
      | _, _ => None
      end
  end.

Definition imageUrls_schema (v : option json) : option (list string) :=
  match v with
  | Some (JArray l) =>
      match items l with
      | Some ss =>
          if (1 <=? length ss)%nat && (length ss <=? 8)%nat then Some ss else None
      | None => None
      end
  | _ => None
  end.

Definition failed {A : Type} (f : field) (r : option A) : list field :=
  match r with
  | Some _ => []
  | None => [f]
  end.

(** [ApartmentSchema.safeParse(body)]: every property is parsed, and the
    ones that fail are reported together. *)
Definition safeParse (body : json) : SafeParse :=
  match body with
  | JObject m =>
      let r_name := string_min1 (m !! "name") in
      let r_unitNumber := string_min1 (m !! "unitNumber") in
      let r_project := string_min1 (m !! "project") in
      let r_description := string_min1 (m !! "description") in
      let r_price := price_schema (m !! "price") in
      let r_contactNumber :=
        string_regex (test_whole contactNumber_re) (m !! "contactNumber") in
      let r_imageUrls := imageUrls_schema (m !! "imageUrls") in
      match r_name, r_unitNumber, r_project, r_description,
            r_price, r_contactNumber, r_imageUrls with
      | Some n, Some u, Some p, Some d, Some pr, Some c, Some i =>
          Success {| name := n; unitNumber := u; project := p;
                     description := d; price := pr;
                     contactNumber := c; imageUrls := i |}
      | _, _, _, _, _, _, _ =>
          Error {| errors := false;
                   properties :=
                     failed f_name r_name ++ failed f_unitNumber r_unitNumber
                     ++ failed f_project r_project
                     ++ failed f_description r_description
                     ++ failed f_price r_price
                     ++ failed f_contactNumber r_contactNumber
                     ++ failed f_imageUrls r_imageUrls |}
      end
  | _ => Error {| errors := true; properties := [] |}
  end.
End Schema.

End Validation.
(** ** Handlers as programs over the calls they make

  A handler is a tree: it returns, or it makes a call of the signature [E]
  and continues with the answer. [run] executes the tree against a state
  and records the calls in order, so that "the handler does not touch the
  store" is a statement about the recorded calls. *)

Section Programs.
Context {E : Type -> Type}.

Inductive Prog (A : Type) : Type :=
| Ret (a : A)
| Vis (X : Type) (e : E X) (k : X -> Prog A).

Inductive Call : Type :=
| Called (X : Type) (e : E X).

Fixpoint run {S A : Type} (h : forall X, E X -> S -> X * S)
    (p : Prog A) (s : S) : A * S * list Call :=
  match p with
  | Ret _ a => (a, s, [])
  | Vis _ X e k =>
      let '(x, s1) := h X e s in
      let '(a, s2, calls) := run h (k x) s1 in
      (a, s2, Called X e :: calls)
  end.

Definition result {S A : Type} (r : A * S * list Call) : A := fst (fst r).
Definition final {S A : Type} (r : A * S * list Call) : S := snd (fst r).
Definition calls {S A : Type} (r : A * S * list Call) : list Call := snd r.
End Programs.

Arguments Prog : clear implicits.
Arguments Call : clear implicits.
Arguments Ret {E A} a.
Arguments Vis {E A X} & e k.
Arguments Called {E X} e.

Notation "x <~ e ;; k" := (Vis e (fun x => k))
(at level 100, e at next level, right associativity).

(** ** The listing and creation endpoints ([src/app/api/apartments/route.ts]) *)

Module Apartments.
Import JS.

(** The [Apartment] model of the Prisma schema. *)
Record Apartment : Type := {
  id : string;
  name : string;
  unitNumber : string;
  project : string;
  description : option string;
  price : float;
  contactNumber : string;
  imageUrls : list string;
  createdAt : Z
}.

Definition ApartmentInput : Type := Validation.ApartmentInput.

(** [Prisma.ApartmentWhereInput] as the handler builds it: [None] is [{}],
    [Some s] is the [OR] of the three case-insensitive [contains]. *)
Definition WhereInput : Type := option string.

(** The arguments of [findMany]; [orderBy] is always [createdAt: "desc"]. *)
Record FindManyArgs : Type := {
  where_ : WhereInput;
  skip : number;
  take : number
}.

(** The calls on [prisma.apartment]. An answer [None] is a rejected
    promise. *)
Inductive PrismaE : Type -> Type :=
| count (w : WhereInput) : PrismaE (option number)
| findMany (a : FindManyArgs) : PrismaE (option (list Apartment))
| create (data : ApartmentInput) : PrismaE (option Apartment).

(** *** The record store

    The table is the list of its rows in insertion order. What the engine
    does with arguments outside the handler's intent is the engine's, not
    this repository's: it rejects a [skip] or [take] that is not an
    integer and a negative [skip], and a negative [take] reads backwards
    from the end of the ordering. *)
Definition Store : Type := list Apartment.

(** What the engine contributes to one request: whether it answers, and the
    identifier and the time it gives to a created row. *)
Record Engine : Type := {
  up : bool;
  uuid : string;
  now : Z
}.

Definition backslash : ascii := ascii_of_nat 92.

(** [contains] with [mode: "insensitive"] is [field ILIKE '%' || s || '%']
    on PostgreSQL, and the text [s] goes into the pattern as it is. In a
    [LIKE] pattern [%] stands for any string, [_] for any character, and
    a backslash makes the character after it literal; a pattern that ends
    in a lone backslash is refused, which a pattern that ends in [%] never
    is. [ILIKE] compares without regard to letter case. *)
Fixpoint like (pattern : string) : Validation.regex :=
  match pattern with
  | EmptyString => Validation.Epsilon
  | String c r =>
      if Ascii.eqb c "%" then Validation.Seq (Validation.Star Validation.any) (like r)
      else if Ascii.eqb c "_" then Validation.Seq Validation.any (like r)
      else if Ascii.eqb c backslash then
        match r with
        | String d r1 => Validation.Seq (Validation.chr d) (like r1)
        | EmptyString => Validation.Never
        end
      else Validation.Seq (Validation.chr c) (like r)
  end.

Definition ilike (pattern text : string) : bool :=
  Validation.accepts (like (toLowerCase pattern)) (toLowerCase text).

Definition contains_insensitive (field s : string) : bool :=
  ilike ("%" +:+ s +:+ "%") field.

Definition selects (w : WhereInput) (a : Apartment) : bool :=
  match w with
  | None => true
  | Some s =>
      contains_insensitive (name a) s
      || contains_insensitive (unitNumber a) s
      || contains_insensitive (project a) s
  end.

Definition newest_first (a b : Apartment) : Prop := createdAt b <= createdAt a.

#[global] Instance newest_first_dec a b : Decision (newest_first a b).
Proof. unfold newest_first. apply Z.le_dec. Defined.

Definition ordered (w : WhereInput) (st : Store) : list Apartment :=
  merge_sort newest_first (List.filter (selects w) st).

Definition window (a : FindManyArgs) (st : Store) : option (list Apartment) :=
  match value (skip a), value (take a) with
  | Some sk, Some tk =>
      if sk <? 0 then None
      else if 0 <=? tk
      then Some (firstn (Z.to_nat tk) (skipn (Z.to_nat sk) (ordered (where_ a) st)))
      else Some (rev (firstn (Z.to_nat (- tk))
                       (skipn (Z.to_nat sk) (rev (ordered (where_ a) st)))))
  | _, _ => None
  end.

Definition stored (env : Engine) (d : ApartmentInput) : Apartment :=
  {| id := uuid env;
     name := Validation.name d;
     unitNumber := Validation.unitNumber d;
     project := Validation.project d;
     description := Some (Validation.description d);
     price := Validation.price d;
     contactNumber := Validation.contactNumber d;
     imageUrls := Validation.imageUrls d;
     createdAt := now env |}.

Definition prisma (env : Engine) (X : Type) (e : PrismaE X) (st : Store) : X * Store :=
  match e in PrismaE T return T * Store with
  | count w =>
      (if up env
       then Some (Int (Z.of_nat (length (List.filter (selects w) st))))
       else None, st)
  | findMany a => (if up env then window a st else None, st)
  | create d =>
      if up env then (Some (stored env d), st ++ [stored env d]) else (None, st)
  end.

(** *** [GET] *)

Record PaginationInfo : Type := {
  currentPage : number;
  totalPages : number;
  totalCount : number;
  hasNextPage : bool;
  hasPrevPage : bool;
  limit : number
}.

(** The responses of the two handlers: the JSON body and the status. *)
Inductive Response : Type :=
| Listing (apartments : list Apartment) (pagination : PaginationInfo)
| Created (newApartment : Apartment)
| Invalid (message : string) (errors : Validation.ErrorTree)
| Failure (error : string).

Definition status (r : Response) : Z :=
  match r with
  | Listing _ _ => 200
  | Created _ => 201
  | Invalid _ _ => 400
  | Failure _ => 500
  end.

(** The three values read from the query string. *)
Definition search_of (searchParams : URLSearchParams) : option string :=
  get "search" searchParams.

Definition page_of (searchParams : URLSearchParams) : number :=
  parseInt (or_else (get "page" searchParams) "1").

Definition limit_of (searchParams : URLSearchParams) : number :=
  parseInt (or_else (get "limit" searchParams) "10").

Definition whereClause_of (search : option string) : WhereInput :=
  match search with
  | Some s => if truthy s then Some s else None
  | None => None
  end.

Definition GET (searchParams : URLSearchParams) : Prog PrismaE Response :=
  let search := search_of searchParams in
  let page := page_of searchParams in
  let limit := limit_of searchParams in
  let skip := mul (sub page (Int 1)) limit in
  let whereClause := whereClause_of search in
  c <~ count whereClause ;;
  match c with
  | None => Ret (Failure "Failed to fetch Apartments")
  | Some totalCount =>
      rows <~ findMany {| where_ := whereClause; skip := skip; take := limit |} ;;
      match rows with
      | None => Ret (Failure "Failed to fetch Apartments")
      | Some apartments =>
          let totalPages := ceil_div totalCount limit in
          let hasNextPage := lt page totalPages in
          let hasPrevPage := gt page (Int 1) in
          Ret (Listing apartments
                 {| currentPage := page;
                    totalPages := totalPages;
                    totalCount := totalCount;
                    hasNextPage := hasNextPage;
                    hasPrevPage := hasPrevPage;
                    limit := limit |})
      end
  end.

(** *** [POST]

    [body] is [None] when [request.json()] throws. *)
Definition POST (Number : string -> float) (body : option Validation.json)
    : Prog PrismaE Response :=
  match body with
  | None => Ret (Failure "Internal server error")
  | Some b =>
      match Validation.safeParse Number b with
      | Validation.Error errors => Ret (Invalid "Validation failed" errors)
      | Validation.Success data =>
          r <~ create data ;;
          match r with
          | Some newApartment => Ret (Created newApartment)
          | None => Ret (Failure "Internal server error")
          end
      end
  end.

End Apartments.

(** ** The file route ([/api/files/{filename}]) *)

Module Files.
Import JS.

(** *** [path] (POSIX) *)

Definition slash : ascii := "/"%char.

(** The segments of a path between its separators. *)
Fixpoint segments (s : string) : list string :=
  match s with
  | EmptyString => [EmptyString]
  | String c r =>
      if Ascii.eqb c slash then EmptyString :: segments r
      else
        match segments r with
        | h :: t => String c h :: t
        | [] => [String c EmptyString]
        end
  end.

Fixpoint join_with (sep : string) (l : list string) : string :=
  match l with
  | [] => EmptyString
  | [x] => x
  | x :: r => x +:+ sep +:+ join_with sep r
  end.

(** One step of [normalizeString]: the segments kept so far, last one
    first. Empty segments and [.] are skipped; [..] removes the segment
    before it, and is kept (when [allowAboveRoot]) if there is none to
    remove. *)
Definition keep (allowAboveRoot : bool) (kept : list string) (seg : string) : list string :=
  if String.eqb seg EmptyString || String.eqb seg "." then kept
  else if String.eqb seg ".." then
    match kept with
    | last :: before =>
        if String.eqb last ".." then seg :: kept else before
    | [] => if allowAboveRoot then [seg] else []
    end
  else seg :: kept.

Definition normalizeString (path : string) (allowAboveRoot : bool) : string :=
  join_with "/" (rev (fold_left (keep allowAboveRoot) (segments path) [])).

Definition isAbsolute (path : string) : bool := String.prefix "/" path.

Fixpoint ends_with_slash (path : string) : bool :=
  match path with
  | EmptyString => false
  | String c EmptyString => Ascii.eqb c slash
  | String _ r => ends_with_slash r
  end.

Definition normalize (path : string) : string :=
  if negb (truthy path) then "."
  else
    let absolute := isAbsolute path in
    let trailingSeparator := ends_with_slash path in
    let p := normalizeString path (negb absolute) in
    if negb (truthy p) then
      (if absolute then "/" else if trailingSeparator then "./" else ".")
    else
      let p1 := if trailingSeparator then p +:+ "/" else p in
      if absolute then "/" +:+ p1 else p1.

(** [path.join(...args)]. *)
Definition join (args : list string) : string :=
  match List.filter truthy args with
  | [] => "."
  | l => normalize (join_with "/" l)
  end.

(** [path.resolve(...args)]: the arguments from the right until one is
    absolute, the working directory when none is. *)
Fixpoint resolve_prefix (args : list string) (resolvedPath : string) : string * bool :=
  match args with
  | [] => (resolvedPath, false)
  | path :: r =>
      if negb (truthy path) then resolve_prefix r resolvedPath
      else if isAbsolute path then (path +:+ "/" +:+ resolvedPath, true)
      else resolve_prefix r (path +:+ "/" +:+ resolvedPath)
  end.

Definition resolve (cwd : string) (args : list string) : string :=
  let '(resolvedPath, resolvedAbsolute) :=
    resolve_prefix (rev args ++ [cwd]) EmptyString in
  let p := normalizeString resolvedPath (negb resolvedAbsolute) in
  if resolvedAbsolute then "/" +:+ p
  else if truthy p then p else ".".

(** [path.extname(path)]: of the last component, from its last dot on;
    empty when there is no dot, when the dot is the first character, and
    for the component [..]. *)
Fixpoint last_dot (s : string) : option string :=
  match s with
  | EmptyString => None
  | String c r =>
      match last_dot r with
      | Some e => Some e
      | None => if Ascii.eqb c "." then Some s else None
      end
  end.

Definition basename (path : string) : string :=
  match List.filter truthy (segments path) with
  | [] => EmptyString
  | l => List.last l EmptyString
  end.

Definition extname (path : string) : string :=
  let base := basename path in
  if String.eqb base ".." then EmptyString
  else
    match base with
    | EmptyString => EmptyString
    | String _ r =>
        match last_dot r with
        | Some e => e
        | None => EmptyString
        end
    end.

(** *** The file system, and the calls of the handlers on it *)

Inductive Node : Type :=
| File (content : string)
| Directory.

Definition FileSystem : Type := gmap string Node.

(** [None] for [readFileSync] is a throw. *)
Inductive FsE : Type -> Type :=
| existsSync (path : string) : FsE bool
| readFileSync (path : string) : FsE (option string).

Definition fs (X : Type) (e : FsE X) (disk : FileSystem) : X * FileSystem :=
  match e in FsE T return T * FileSystem with
  | existsSync p => (bool_decide (is_Some (disk !! p)), disk)
  | readFileSync p =>
      (match disk !! p with
       | Some (File content) => Some content
       | Some Directory | None => None
       end, disk)
  end.

(** *** The handlers *)

Definition UPLOAD_DIR (cwd : string) : string := resolve cwd ["files"; "uploads"].

Inductive Response : Type :=
| Json (status : Z) (error : string)
| Body (fileBuffer : string) (status : Z) (contentType contentDisposition : string)
| Empty (status : Z).

Definition status (r : Response) : Z :=
  match r with
  | Json st _ | Body _ st _ _ | Empty st => st
  end.

Definition mimeTypes (ext : string) : option string :=
  if String.eqb ext ".jpg" then Some "image/jpeg"
  else if String.eqb ext ".jpeg" then Some "image/jpeg"
  else if String.eqb ext ".png" then Some "image/png"
  else if String.eqb ext ".gif" then Some "image/gif"
  else None.

Definition quote : string := String (ascii_of_nat 34) EmptyString.

(** A header value that [new NextResponse(...)] takes: one without NUL,
    line feed and carriage return. The constructor throws on any other,
    and on a character above 255, which the strings here do not have. *)
Definition header_character (c : ascii) : bool :=
  negb ((code c =? 0) || (code c =? 10) || (code c =? 13)).

Definition valid_header_value (v : string) : bool :=
  Validation.every header_character v.

Definition GET (cwd filename : string) : Prog FsE Response :=
  if includes ".." filename || includes "/" filename
  then Ret (Json 400 "Invalid filename")
  else
    let filePath := join [UPLOAD_DIR cwd; filename] in
    found <~ existsSync filePath ;;
    if negb found then Ret (Json 404 "File not found")
    else
      read <~ readFileSync filePath ;;
      match read with
      | None => Ret (Json 500 "Failed to serve file")
      | Some fileBuffer =>
          let fileExt := toLowerCase (extname filename) in
          let contentType := default "application/octet-stream" (mimeTypes fileExt) in
          let contentDisposition :=
            "inline; filename=" +:+ quote +:+ filename +:+ quote in
          if valid_header_value contentDisposition
          then Ret (Body fileBuffer 200 contentType contentDisposition)
          else Ret (Json 500 "Failed to serve file")
      end.

Definition HEAD (cwd filename : string) : Prog FsE Response :=
  let filePath := join [UPLOAD_DIR cwd; filename] in
  found <~ existsSync filePath ;;
  if found then Ret (Empty 200) else Ret (Empty 404).

End Files.

(** ** The fetch coordinator ([src/hooks/useApartments.ts])

  The hook is a state machine. Its state is the [useState] values, the
  [useRef] cell and the part of the browser it acts on: the
  [AbortController] objects it has created, the address bar, the requests
  it has sent, and the activations of [fetchApartments] that are suspended
  at an [await]. A call of one of the hook's functions runs to its first
  [await]; a later event (the promise of a request settles) resumes the
  activation that waits for it. Page numbers and the limit are integers. *)

Module Hook.
Import JS.

Definition Apartment : Type := Apartments.Apartment.

Module PaginationInfo.
Record t : Type := {
  currentPage : Z;
  totalPages : Z;
  totalCount : Z;
  hasNextPage : bool;
  hasPrevPage : bool;
  limit : Z
}.
End PaginationInfo.
Abbreviation PaginationInfo := PaginationInfo.t.

(** [data], the parsed body of a response, as far as the hook reads it:
    [None] is a property that is missing or [null]. *)
Record Data : Type := {
  data_apartments : option (list Apartment);
  data_pagination : option PaginationInfo
}.

(** What a rejected promise throws into the [catch] block. *)
Inductive Thrown : Type :=
| AbortError
| Error (message : string)
| NotAnError.

Inductive Settled (A : Type) : Type :=
| Fulfilled (a : A)
| Rejected (err : Thrown).
Arguments Fulfilled {A} a.
Arguments Rejected {A} err.

(** The three [await]s of [fetchApartments], and what each may settle
    with: [fetch(...)] with a response, of which the hook reads [ok];
    [res.text()] with the text; [res.json()] with the data. *)
Inductive Await : Type :=
| await_fetch
| await_text
| await_json.

Inductive Completion : Type :=
| fetch_done (res_ok : Settled bool)
| text_done (text : Settled string)
| json_done (data : Settled Data).

(** A suspended activation keeps its argument [page]; its [controller] is
    the key it is filed under. *)
Record Activation : Type := {
  page : Z;
  at_ : Await
}.

Record Request : Type := {
  url : URLSearchParams;
  signal : nat
}.

Record State : Type := {
  apartments : list Apartment;
  search : string;
  currentPage : Z;
  limit : Z;
  pagination : option PaginationInfo;
  isLoading : bool;
  error : option string;
  abortRef : option nat;
  controllers : list bool;
  location : URLSearchParams;
  requests : list Request;
  suspended : gmap nat Activation
}.

(** The state setters. *)
Definition setApartments (v : list Apartment) (s : State) : State :=
  {| apartments := v; search := search s; currentPage := currentPage s;
     limit := limit s; pagination := pagination s; isLoading := isLoading s;
     error := error s; abortRef := abortRef s; controllers := controllers s;
     location := location s; requests := requests s; suspended := suspended s |}.

Definition setSearch (v : string) (s : State) : State :=
  {| apartments := apartments s; search := v; currentPage := currentPage s;
     limit := limit s; pagination := pagination s; isLoading := isLoading s;
     error := error s; abortRef := abortRef s; controllers := controllers s;
     location := location s; requests := requests s; suspended := suspended s |}.

Definition setCurrentPage (v : Z) (s : State) : State :=
  {| apartments := apartments s; search := search s; currentPage := v;
     limit := limit s; pagination := pagination s; isLoading := isLoading s;
     error := error s; abortRef := abortRef s; controllers := controllers s;
     location := location s; requests := requests s; suspended := suspended s |}.

Definition setPagination (v : option PaginationInfo) (s : State) : State :=
  {| apartments := apartments s; search := search s; currentPage := currentPage s;
     limit := limit s; pagination := v; isLoading := isLoading s;
     error := error s; abortRef := abortRef s; controllers := controllers s;
     location := location s; requests := requests s; suspended := suspended s |}.

Definition setIsLoading (v : bool) (s : State) : State :=
  {| apartments := apartments s; search := search s; currentPage := currentPage s;
     limit := limit s; pagination := pagination s; isLoading := v;
     error := error s; abortRef := abortRef s; controllers := controllers s;
     location := location s; requests := requests s; suspended := suspended s |}.

Definition setError (v : option string) (s : State) : State :=
  {| apartments := apartments s; search := search s; currentPage := currentPage s;
     limit := limit s; pagination := pagination s; isLoading := isLoading s;
     error := v; abortRef := abortRef s; controllers := controllers s;
     location := location s; requests := requests s; suspended := suspended s |}.

(** The browser. [abort c] sets the flag of controller [c];
    [new_controller] allocates the next one and stores it in [abortRef];
    [replace] is [router.replace]; [send] is the call of [fetch], which
    leaves the activation suspended on the controller's signal. *)
Definition abort (c : nat) (s : State) : State :=
  {| apartments := apartments s; search := search s; currentPage := currentPage s;
     limit := limit s; pagination := pagination s; isLoading := isLoading s;
     error := error s; abortRef := abortRef s;
     controllers := <[c := true]> (controllers s);
     location := location s; requests := requests s; suspended := suspended s |}.

Definition new_controller (s : State) : State :=
  {| apartments := apartments s; search := search s; currentPage := currentPage s;
     limit := limit s; pagination := pagination s; isLoading := isLoading s;
     error := error s; abortRef := Some (length (controllers s));
     controllers := controllers s ++ [false];
     location := location s; requests := requests s; suspended := suspended s |}.

Definition replace (params : URLSearchParams) (s : State) : State :=
  {| apartments := apartments s; search := search s; currentPage := currentPage s;
     limit := limit s; pagination := pagination s; isLoading := isLoading s;
     error := error s; abortRef := abortRef s; controllers := controllers s;
     location := params; requests := requests s; suspended := suspended s |}.

Definition suspend (c : nat) (a : Activation) (s : State) : State :=
  {| apartments := apartments s; search := search s; currentPage := currentPage s;
     limit := limit s; pagination := pagination s; isLoading := isLoading s;
     error := error s; abortRef := abortRef s; controllers := controllers s;
     location := location s; requests := requests s;
     suspended := <[c := a]> (suspended s) |}.

Definition resume (c : nat) (s : State) : State :=
  {| apartments := apartments s; search := search s; currentPage := currentPage s;
     limit := limit s; pagination := pagination s; isLoading := isLoading s;
     error := error s; abortRef := abortRef s; controllers := controllers s;
     location := location s; requests := requests s;
     suspended := delete c (suspended s) |}.

Definition send (r : Request) (s : State) : State :=
  {| apartments := apartments s; search := search s; currentPage := currentPage s;
     limit := limit s; pagination := pagination s; isLoading := isLoading s;
     error := error s; abortRef := abortRef s; controllers := controllers s;
     location := location s; requests := requests s ++ [r];
     suspended := suspended s |}.

Definition aborted (c : nat) (s : State) : bool := default false (controllers s !! c).

(** The values of [useState] and [useRef] at the first render, from the
    three constants read off the address bar. *)
Definition initial (initialPage : Z) (initialQuery : string) (initialLimitQuery : Z)
    (address : URLSearchParams) : State :=
  {| apartments := []; search := initialQuery; currentPage := initialPage;
     limit := initialLimitQuery; pagination := None; isLoading := false;
     error := None; abortRef := None; controllers := [];
     location := address; requests := []; suspended := ∅ |}.

(** The three constants, as the hook computes them from the address bar.
    [Number] is the built-in conversion of a string, and [Number(null)] is
    0. The page and the limit are numbers of at least 1, not always
    integers: [?limit=8.9] gives 8.9, and [?page=Infinity] infinity. *)
Definition Number_or_null (Number : string -> float) (v : option string) : float :=
  match v with
  | Some s => Number s
  | None => Fin 0
  end.

Definition at_least_1 (x : float) : bool :=
  match x with
  | FNaN => false
  | FInf neg => negb neg
  | Fin q => Qle_bool 1 q
  end.

Definition initialPage (Number : string -> float) (searchParams : URLSearchParams)
    : float :=
  if at_least_1 (Number_or_null Number (get "page" searchParams))
  then Number_or_null Number (get "page" searchParams)
  else Fin 1.

Definition initialQuery (searchParams : URLSearchParams) : string :=
  default EmptyString (get "search" searchParams).

Definition initialLimitQuery (Number : string -> float) (searchParams : URLSearchParams)
    (initialLimit : Z) : float :=
  if at_least_1 (Number_or_null Number (get "limit" searchParams))
  then Number_or_null Number (get "limit" searchParams)
  else Fin (inject_Z initialLimit).

(** The integer that a number is, when it is one. *)
Definition integer (x : float) : option Z :=
  match x with
  | Fin q =>
      if Qnum q mod Z.pos (Qden q) =? 0 then Some (Qnum q / Z.pos (Qden q)) else None
  | FNaN | FInf _ => None
  end.

(** [useApartments(initialLimit)] at the first render. The states of this
    model hold integers for the page and the limit, so the first render is
    a state when both constants are integers, and [None] when the hook
    holds a page or a limit that is not one. *)
Definition useApartments (Number : string -> float) (searchParams : URLSearchParams)
    (initialLimit : Z) : option State :=
  match integer (initialPage Number searchParams),
        integer (initialLimitQuery Number searchParams initialLimit) with
  | Some page, Some limit =>
      Some (initial page (initialQuery searchParams) limit searchParams)
  | _, _ => None
  end.

Definition buildParams (limit : Z) (page : Z) (searchQuery : string) : URLSearchParams :=
  let params := [] in
  let params := set "page" (String_ page) params in
  let params := set "limit" (String_ limit) params in
  if truthy searchQuery then set "search" searchQuery params else params.

(** [fetchApartments(page, searchQuery)] up to [await fetch(...)]. *)
Definition fetchApartments (page : Z) (searchQuery : string) (s : State) : State :=
  let s := setIsLoading true s in
  let s := setError None s in
  let s := match abortRef s with
           | Some previous => abort previous s
           | None => s
           end in
  let controller := length (controllers s) in
  let s := new_controller s in
  let params := buildParams (limit s) page searchQuery in
  let s := replace params s in
  let s := send {| url := params; signal := controller |} s in
  suspend controller {| page := page; at_ := await_fetch |} s.

(** The [catch] and [finally] blocks. *)
Definition finally (s : State) : State := setIsLoading false s.

Definition catch (err : Thrown) (s : State) : State :=
  match err with
  | AbortError => finally s
  | Error message => finally (setError (Some message) s)
  | NotAnError => finally (setError (Some "Failed to fetch") s)
  end.

(** The three state updates after [await res.json()]. *)
Definition commit (page : Z) (data : Data) (s : State) : State :=
  let s := setApartments (default [] (data_apartments data)) s in
  let s := setPagination (data_pagination data) s in
  let s :=
    setCurrentPage
      (match data_pagination data with
       | Some p => PaginationInfo.currentPage p
       | None => page
       end) s in
  finally s.

(** What an awaited promise of request [c] settles with: a promise bound
    to an aborted signal rejects with [AbortError], whatever the network
    brought. *)
Definition outcome {A : Type} (c : nat) (s : State) (r : Settled A) : Settled A :=
  if aborted c s then Rejected AbortError else r.

(** The activation of request [c] continues after its [await]. A
    completion that is not the one the activation waits for does not
    occur; the state is left as it is. *)
Definition settle (c : nat) (k : Completion) (s : State) : State :=
  match suspended s !! c with
  | None => s
  | Some a =>
      match at_ a, k with
      | await_fetch, fetch_done r =>
          match outcome c s r with
          | Fulfilled true => suspend c {| page := page a; at_ := await_json |} s
          | Fulfilled false => suspend c {| page := page a; at_ := await_text |} s
          | Rejected err => catch err (resume c s)
          end
      | await_text, text_done r =>
          match outcome c s r with
          | Fulfilled text => catch (Error (or_else (Some text) "Failed to fetch")) (resume c s)
          | Rejected err => catch err (resume c s)
          end
      | await_json, json_done r =>
          match outcome c s r with
          | Fulfilled data => commit (page a) data (resume c s)
          | Rejected err => catch err (resume c s)
          end
      | _, _ => s
      end
  end.

(** The effect that runs once on mount. *)
Definition mount (s : State) : State := fetchApartments (currentPage s) (search s) s.

Definition goToPage (page : Z) (s : State) : State :=
  if page <? 1 then s
  else if match pagination s with
          | Some p => page >? PaginationInfo.totalPages p
          | None => false
          end
  then s
  else
    let s := setCurrentPage page s in
    fetchApartments page (search s) s.

Definition submitSearch (q : string) (s : State) : State :=
  let s := setSearch q s in
  fetchApartments 1 q s.

Definition clearSearch (s : State) : State :=
  let s := setSearch EmptyString s in
  fetchApartments 1 EmptyString s.

(** The events of the machine: the calls the presentation layer makes, and
    the completions of requests. *)
Inductive Event : Type :=
| call_fetchApartments (page : Z) (searchQuery : string)
| call_goToPage (page : Z)
| call_submitSearch (q : string)
| call_clearSearch
| call_setSearch (text : string)
| settled (c : nat) (k : Completion).

Definition step (s : State) (e : Event) : State :=
  match e with
  | call_fetchApartments page searchQuery => fetchApartments page searchQuery s
  | call_goToPage page => goToPage page s
  | call_submitSearch q => submitSearch q s
  | call_clearSearch => clearSearch s
  | call_setSearch text => setSearch text s
  | settled c k => settle c k s
  end.

Definition steps (s : State) (es : list Event) : State := fold_left step es s.

(** The four fields a superseded request must not touch. *)
Definition committed (s : State)
    : list Apartment * option PaginationInfo * Z * option string :=
  (apartments s, pagination s, currentPage s, error s).

(** The parsed body of a [200] response of the listing endpoint. A number
    that is not finite is [null] on the wire, which the hook's
    [PaginationInfo] does not provide for. *)
Definition of_wire (p : Apartments.PaginationInfo) : option PaginationInfo :=
  match value (Apartments.currentPage p), value (Apartments.totalPages p),
        value (Apartments.totalCount p), value (Apartments.limit p) with
  | Some c, Some t, Some n, Some l =>
      Some {| PaginationInfo.currentPage := c;
              PaginationInfo.totalPages := t;
              PaginationInfo.totalCount := n;
              PaginationInfo.hasNextPage := Apartments.hasNextPage p;
              PaginationInfo.hasPrevPage := Apartments.hasPrevPage p;
              PaginationInfo.limit := l |}
  | _, _, _, _ => None
  end.

Definition received (r : Apartments.Response) : option (bool * option Data) :=
  match r with
  | Apartments.Listing apartments p =>
      match of_wire p with
      | Some p' =>
          Some (true, Some {| data_apartments := Some apartments;
                              data_pagination := Some p' |})
      | None => None
      end
  | _ => Some (false, None)
  end.

(** A fetch that fails for good, as opposed to one that is cancelled: the
    completion that ends the activation, at the [await] it arrives at, with
    the message that the [catch] block receives. The network fails
    ([fetch] rejects), the server answers with a status that is not ok (the
    text of the response is the message, or a fixed one when it is empty),
    or the body cannot be read or parsed. *)
Inductive genuine_failure : Await -> Completion -> string -> Prop :=
| network_failure message :
    genuine_failure await_fetch (fetch_done (Rejected (Error message))) message
| network_failure_other :
    genuine_failure await_fetch (fetch_done (Rejected NotAnError)) "Failed to fetch"
| server_failure text :
    truthy text = true ->
    genuine_failure await_text (text_done (Fulfilled text)) text
| server_failure_no_text :
    genuine_failure await_text (text_done (Fulfilled EmptyString)) "Failed to fetch"
| text_failure message :
    genuine_failure await_text (text_done (Rejected (Error message))) message
| json_failure message :
    genuine_failure await_json (json_done (Rejected (Error message))) message.

(** Invariants of the cancellation protocol. *)

(** Request [c] is the latest one, or it has been aborted. *)
Definition latest_or_aborted (c : nat) (s : State) : Prop :=
  (c < length (controllers s))%nat
  /\ (abortRef s = Some c \/ controllers s !! c = Some true).

(** The request [b] is in flight, it has not been aborted, request
    [a] has, and no error is set. *)
Definition pending (a b : nat) (act : Activation) (s : State) : Prop :=
  suspended s !! b = Some act
  /\ controllers s !! b = Some false
  /\ controllers s !! a = Some true
  /\ error s = None.

End Hook.

(** ** Data for the examples *)

Module Examples.
Import JS.

(** A store of seventeen listings, created one after the other. *)
Definition listing (n : Z) : Apartments.Apartment :=
  {| Apartments.id := pretty n;
     Apartments.name := "Downtown Apartment";
     Apartments.unitNumber := "A" +:+ pretty n;
     Apartments.project := "Skyline Towers";
     Apartments.description := Some "Spacious apartment with a view.";
     Apartments.price := Fin 250000;
     Apartments.contactNumber := "+201101029668";
     Apartments.imageUrls := ["/api/files/image1.jpg"];
     Apartments.createdAt := n |}.

Definition seventeen : Apartments.Store := map listing (seqZ 1 17).

Definition engine : Apartments.Engine :=
  {| Apartments.up := true;
     Apartments.uuid := "c2a1f6c1-d5e8-4f7c-b0a9-e9a8d8c3b4a5";
     Apartments.now := 18 |}.

(** The request body of the API documentation, with a price of -5. *)
Definition negative_price : Validation.json :=
  Validation.JObject
    (list_to_map
       [("name", Validation.JString "Downtown Apartment");
        ("unitNumber", Validation.JString "A203");
        ("project", Validation.JString "Skyline Towers");
        ("price", Validation.JNumber (-5));
        ("description", Validation.JString "Spacious apartment with a view.");
        ("contactNumber", Validation.JString "+201101029668");
        ("imageUrls", Validation.JArray [Validation.JString "/api/files/image1.jpg"])]).

Definition documented_body : Validation.json :=
  Validation.JObject
    (list_to_map
       [("name", Validation.JString "Downtown Apartment");
        ("unitNumber", Validation.JString "A203");
        ("project", Validation.JString "Skyline Towers");
        ("price", Validation.JNumber 250000);
        ("description", Validation.JString "Spacious apartment with a view.");
        ("contactNumber", Validation.JString "+201101029668");
        ("imageUrls", Validation.JArray [Validation.JString "/api/files/image1.jpg"])]).

(** A stand-in for [Number] in the examples, which use it on the empty
    string and on strings of decimal digits only: it is right on those,
    and gives [NaN] on every other string. *)
Definition Number (s : string) : float :=
  match s with
  | EmptyString => Fin 0
  | _ =>
      if Validation.every (Validation.range "0" "9") s
      then match parseInt s with
           | Int n => Fin (inject_Z n)
           | _ => FNaN
           end
      else FNaN
  end.

(** The hook on its first render, with no parameter in the address bar, and
    after the effect that runs on mount. *)
Definition first_render : Hook.State := Hook.initial 1 EmptyString 8 [].
Definition mounted : Hook.State := Hook.mount first_render.

(** The first page of four, as the hook holds it after a first answer. *)
Definition four_pages : Hook.PaginationInfo :=
  {| Hook.PaginationInfo.currentPage := 1;
     Hook.PaginationInfo.totalPages := 4;
     Hook.PaginationInfo.totalCount := 30;
     Hook.PaginationInfo.hasNextPage := true;
     Hook.PaginationInfo.hasPrevPage := false;
     Hook.PaginationInfo.limit := 8 |}.

Definition first_answer : Hook.Data :=
  {| Hook.data_apartments := Some (map listing (seqZ 1 8));
     Hook.data_pagination := Some four_pages |}.

Definition browsing : Hook.State :=
  Hook.settle 0 (Hook.json_done (Hook.Fulfilled first_answer))
    (Hook.settle 0 (Hook.fetch_done (Hook.Fulfilled true)) mounted).

(** The hook while the third page of four is shown. *)
Definition third_page : Hook.State :=
  {| Hook.apartments := map listing (seqZ 1 8);
     Hook.search := EmptyString;
     Hook.currentPage := 3;
     Hook.limit := 8;
     Hook.pagination :=
       Some {| Hook.PaginationInfo.currentPage := 3;
               Hook.PaginationInfo.totalPages := 4;
               Hook.PaginationInfo.totalCount := 30;
               Hook.PaginationInfo.hasNextPage := true;
               Hook.PaginationInfo.hasPrevPage := true;
               Hook.PaginationInfo.limit := 8 |};
     Hook.isLoading := false;
     Hook.error := None;
     Hook.abortRef := Some 0%nat;
     Hook.controllers := [false];
     Hook.location := [("page", "3"); ("limit", "8")];
     Hook.requests := [{| Hook.url := [("page", "3"); ("limit", "8")];
                          Hook.signal := 0%nat |}];
     Hook.suspended := ∅ |}.

(** The first page of four is shown, and the user has typed "A7" in the
    search box. *)
Definition typed : Hook.State := Hook.setSearch "A7" browsing.

(** A search for "A7": the answer of the listing endpoint to the first page
    of it on the store of seventeen (the one unit A7), and that
    answer as the hook receives it. *)
Definition a7_response : Apartments.Response :=
  result (run (Apartments.prisma engine)
            (Apartments.GET [("page", "1"); ("limit", "8"); ("search", "A7")])
            seventeen).

Definition a7_answer : Hook.Data :=
  match Hook.received a7_response with
  | Some (_, Some d) => d
  | _ => {| Hook.data_apartments := None; Hook.data_pagination := None |}
  end.

(** An answer for a second page. *)
Definition second_answer : Hook.Data :=
  {| Hook.data_apartments := Some (map listing (seqZ 9 8));
     Hook.data_pagination :=
       Some {| Hook.PaginationInfo.currentPage := 2;
               Hook.PaginationInfo.totalPages := 4;
               Hook.PaginationInfo.totalCount := 30;
               Hook.PaginationInfo.hasNextPage := true;
               Hook.PaginationInfo.hasPrevPage := true;
               Hook.PaginationInfo.limit := 8 |} |}.

End Examples.

(** ** The invariants of the data model *)

Module Invariants.
Import JS.

Definition price_positive (x : float) : Prop :=
  match x with
  | Fin q => (0 < q)%Q
  | FInf neg => neg = false
  | FNaN => False
  end.

(** A record as the data model wants it: the text fields are not empty, the
    price is above zero, the contact number matches the pattern, and there
    are one to eight image URLs. *)
Definition well_formed (a : Apartments.Apartment) : Prop :=
  Apartments.name a <> EmptyString
  /\ Apartments.unitNumber a <> EmptyString
  /\ Apartments.project a <> EmptyString
  /\ (exists d, Apartments.description a = Some d /\ d <> EmptyString)
  /\ price_positive (Apartments.price a)
  /\ Validation.matches Validation.contactNumber_re (Apartments.contactNumber a)
  /\ (1 <= length (Apartments.imageUrls a) <= 8)%nat.

End Invariants.

(** ** Reading an answer of the listing endpoint *)

Module Answers.
Import Apartments.

(** The rows of an answer, none when the answer is not a listing. *)
Definition rows_of (r : Response) : list Apartment :=
  match r with
  | Listing rows _ => rows
  | _ => []
  end.

Definition info_of (r : Response) : option PaginationInfo :=
  match r with
  | Listing _ p => Some p
  | _ => None
  end.

(** A decimal digit. *)
Definition decimal (c : ascii) : bool :=
  (48 <=? JS.code c) && (JS.code c <=? 57).

(** A character that stands for itself in a [LIKE] pattern: any but [%],
    [_] and the backslash. *)
Definition plain (c : ascii) : bool :=
  negb (Ascii.eqb c "%" || Ascii.eqb c "_" || Ascii.eqb c Apartments.backslash).

End Answers.

(** ** What the creation schema asks of each property, in words *)

Module Requirements.
Import JS Validation.

(** A text that is present and not empty. *)
Definition text (v : option json) (s : string) : Prop :=
  v = Some (JString s) /\ s <> EmptyString.

(** A number above zero, or a string that [Number] turns into one. *)
Definition amount (Number : string -> float) (v : option json) (x : float) : Prop :=
  (exists q, v = Some (JNumber q) /\ (0 < q)%Q /\ x = Fin q)
  \/ (exists s, v = Some (JString s) /\ isNaN (Number s) = false
                /\ positive (Number s) = true /\ x = Number s).

(** [+201] or [00201], one of the characters 0, 1, 2, 5 and the comma, and
    eight digits. *)
Definition phone (v : option json) (s : string) : Prop :=
  v = Some (JString s)
  /\ exists pre c digits,
       s = pre +:+ String c digits
       /\ (pre = "+201" \/ pre = "00201")
       /\ (c = "0" \/ c = "1" \/ c = "2" \/ c = "," \/ c = "5")%char
       /\ String.length digits = 8%nat
       /\ every (range "0" "9") digits = true.

(** One to eight strings that start with [/api/files/]. *)
Definition images (v : option json) (l : list string) : Prop :=
  v = Some (JArray (map JString l))
  /\ (1 <= length l <= 8)%nat
  /\ forall u, u ∈ l -> exists rest, u = "/api/files/" +:+ rest.

(** The key of a property, and whether the body meets what the schema asks
    of it. *)
Definition key (f : field) : string :=
  match f with
  | f_name => "name"
  | f_unitNumber => "unitNumber"
  | f_project => "project"
  | f_description => "description"
  | f_price => "price"
  | f_contactNumber => "contactNumber"
  | f_imageUrls => "imageUrls"
  end.

Definition met (Number : string -> float) (m : gmap string json) (f : field) : Prop :=
  match f with
  | f_name | f_unitNumber | f_project | f_description => exists s, text (m !! key f) s
  | f_price => exists x, amount Number (m !! key f) x
  | f_contactNumber => exists s, phone (m !! key f) s
  | f_imageUrls => exists l, images (m !! key f) l
  end.

End Requirements.

(** ** The detail endpoint ([/api/apartments/{id}]) *)

Module Detail.
Import JS.

(** The one call of the handler on [prisma.apartment]. The outer [None] is
    a rejected promise, the inner one is [null]: no row has the
    identifier. *)
Inductive PrismaE : Type -> Type :=
| findUnique (id : string) : PrismaE (option (option Apartments.Apartment)).

Definition prisma (env : Apartments.Engine) (X : Type) (e : PrismaE X)
    (st : Apartments.Store) : X * Apartments.Store :=
  match e in PrismaE T return T * Apartments.Store with
  | findUnique id =>
      (if Apartments.up env
       then Some (List.find (fun a => String.eqb (Apartments.id a) id) st)
       else None, st)
  end.

Inductive Response : Type :=
| Found (apartment : Apartments.Apartment)
| NotFound (error : string)
| Failure (error : string).

Definition status (r : Response) : Z :=
  match r with
  | Found _ => 200
  | NotFound _ => 404
  | Failure _ => 500
  end.

Definition GET (id : string) : Prog PrismaE Response :=
  r <~ findUnique id ;;
  match r with
  | None => Ret (Failure "Failed to fetch Apartment")
  | Some None => Ret (NotFound "Apartment not found")
  | Some (Some apartment) => Ret (Found apartment)
  end.

End Detail.

(** ** The upload endpoint ([src/app/api/upload/route.ts]) *)

Module Upload.
Import JS.

(** *** [sanitizeFileName] *)

(** [s.replace(/[...]/g, "")] for a class of characters: the characters of
    the class are removed. *)
Fixpoint remove (class : ascii -> bool) (s : string) : string :=
  match s with
  | EmptyString => EmptyString
  | String c r => if class c then remove class r else String c (remove class r)
  end.

(** [s.replace(/\s+/g, "-")]: every run of white space becomes one dash.
    [inside] tells that the character before was white space. *)
Fixpoint dashes (inside : bool) (s : string) : string :=
  match s with
  | EmptyString => EmptyString
  | String c r =>
      if is_white_space c
      then (if inside then dashes true r else String "-" (dashes true r))
      else String c (dashes false r)
  end.

(** [[^\x00-\x7F]] and [[^a-zA-Z0-9._-]]. *)
Definition non_ascii (c : ascii) : bool := 127 <? code c.

Definition safe (c : ascii) : bool :=
  Validation.range "a" "z" c || Validation.range "A" "Z" c
  || Validation.range "0" "9" c
  || Ascii.eqb c "." || Ascii.eqb c "_" || Ascii.eqb c "-".

Section Sanitize.
(** [name.normalize("NFKD")], the Unicode normalisation of the runtime. *)
Variable NFKD : string -> string.

Definition sanitizeFileName (name : string) : string :=
  toLowerCase
    (remove (fun c => negb (safe c))
       (dashes false (remove non_ascii (NFKD name)))).
End Sanitize.

(** *** The calls on [fs]

    An answer [None] is a throw. The file system is the one of the file
    route, and [writable] tells whether the process may write to it. A
    file can then be written where its directory exists and no directory
    has its path; [mkdirSync] with [recursive] makes the missing
    directories on the way and fails on a file in the way. *)
Inductive FsE : Type -> Type :=
| existsSync (path : string) : FsE bool
| mkdirSync (path : string) : FsE (option unit)
| writeFileSync (path : string) (data : string) : FsE (option unit).

(** The directory of a path, [EmptyString] for the root or the working
    directory; the paths of a path's directories, outermost first, and the
    path itself. *)
Definition parent (path : string) : string :=
  Files.join_with "/" (removelast (Files.segments path)).

Fixpoint inits {A : Type} (l : list A) : list (list A) :=
  match l with
  | [] => []
  | x :: r => [x] :: map (cons x) (inits r)
  end.

Definition ancestors (path : string) : list string :=
  List.filter truthy (map (Files.join_with "/") (inits (Files.segments path))).

Definition is_directory (disk : Files.FileSystem) (path : string) : bool :=
  match path, disk !! path with
  | EmptyString, _ => true
  | _, Some Files.Directory => true
  | _, _ => false
  end.

Fixpoint make (paths : list string) (disk : Files.FileSystem)
    : option unit * Files.FileSystem :=
  match paths with
  | [] => (Some tt, disk)
  | p :: r =>
      match disk !! p with
      | Some (Files.File _) => (None, disk)
      | Some Files.Directory => make r disk
      | None => make r (<[p := Files.Directory]> disk)
      end
  end.

Definition fs (writable : bool) (X : Type) (e : FsE X) (disk : Files.FileSystem)
    : X * Files.FileSystem :=
  match e in FsE T return T * Files.FileSystem with
  | existsSync p => (bool_decide (is_Some (disk !! p)), disk)
  | mkdirSync p => if writable then make (ancestors p) disk else (None, disk)
  | writeFileSync p data =>
      if writable && is_directory disk (parent p) && negb (is_directory disk p)
      then (Some tt, <[p := Files.File data]> disk)
      else (None, disk)
  end.

(** *** The module and the handler *)

Definition UPLOAD_DIR (cwd : string) : string := Files.resolve cwd ["files"; "uploads"].
Definition PUBLIC_URL_PATH : string := "/api/files".

(** What runs when the module is loaded. *)
Definition init (cwd : string) : Prog FsE (option unit) :=
  found <~ existsSync (UPLOAD_DIR cwd) ;;
  if negb found
  then (made <~ mkdirSync (UPLOAD_DIR cwd) ;; Ret made)
  else Ret (Some tt).

(** An entry of the form data: a file with its name and content, or a
    text. *)
Inductive Entry : Type :=
| FileEntry (name : string) (content : string)
| TextEntry (value : string).

Inductive Response : Type :=
| Uploaded (imageUrl : string)
| Json (status : Z) (error : string).

Definition status (r : Response) : Z :=
  match r with
  | Uploaded _ => 201
  | Json st _ => st
  end.

Section Handler.
Variable NFKD : string -> string.

(** [POST]. [uuid] is the value of [uuidv4()] for this request. [form] is
    [None] when [request.formData()] throws, and else the value of
    [formData.get("image")], [None] for [null]. A text that is not empty
    passes the test [!file] and has no [arrayBuffer], which throws. *)
Definition POST (cwd uuid : string) (form : option (option Entry))
    : Prog FsE Response :=
  match form with
  | None => Ret (Json 500 "Failed to upload image")
  | Some None => Ret (Json 400 "No file uploaded")
  | Some (Some (TextEntry value)) =>
      if truthy value
      then Ret (Json 500 "Failed to upload image")
      else Ret (Json 400 "No file uploaded")
  | Some (Some (FileEntry originalName buffer)) =>
      let safeName := sanitizeFileName NFKD originalName in
      let fileName := uuid +:+ "-" +:+ safeName in
      let filePath := Files.join [UPLOAD_DIR cwd; fileName] in
      written <~ writeFileSync filePath buffer ;;
      match written with
      | None => Ret (Json 500 "Failed to upload image")
      | Some _ =>
          let imageUrl := PUBLIC_URL_PATH +:+ "/" +:+ fileName in
          Ret (Uploaded imageUrl)
      end
  end.
End Handler.

(** The characters of a [uuidv4()]: hexadecimal digits and dashes. *)
Definition uuid_char (c : ascii) : bool :=
  Validation.range "0" "9" c || Validation.range "a" "f" c || Ascii.eqb c "-".

(** The characters that [sanitizeFileName] leaves. *)
Definition clean (c : ascii) : bool :=
  Validation.range "a" "z" c || Validation.range "0" "9" c
  || Ascii.eqb c "." || Ascii.eqb c "_" || Ascii.eqb c "-".

End Upload.

(** ** The page buttons (component [Pagination]) *)

Module Pagination.

Record Props : Type := {
  currentPage : Z;
  totalPages : Z;
  hasPrevPage : bool;
  hasNextPage : bool
}.

Definition maxVisiblePages : Z := 3.

Definition visiblePageCount (p : Props) : Z := Z.min maxVisiblePages (totalPages p).

Definition pageNumber (p : Props) (index : Z) : Z :=
  if totalPages p <=? maxVisiblePages then index + 1
  else if currentPage p <=? 2 then index + 1
  else if currentPage p >=? totalPages p - 2
  then totalPages p - maxVisiblePages + index + 1
  else currentPage p - 2 + index.

(** [Array.from({ length: n }, f)] has no element when [n] is not
    positive. *)
Definition visiblePages (p : Props) : list Z :=
  List.filter (fun pageNumber => (pageNumber >=? 1) && (pageNumber <=? totalPages p))
    (map (pageNumber p) (seqZ 0 (visiblePageCount p))).

(** The buttons, and the argument a click gives to [onPageChange]: [None]
    when the button is disabled or its handler does not call. A numbered
    button exists only for a visible page. *)
Inductive Button : Type :=
| First
| Previous
| Page (pageNumber : Z)
| Next
| Last.

Definition rendered (p : Props) (b : Button) : bool :=
  match b with
  | Page n => bool_decide (n ∈ visiblePages p)
  | _ => true
  end.

Definition disabled (p : Props) (b : Button) : bool :=
  match b with
  | First => currentPage p =? 1
  | Previous => negb (hasPrevPage p)
  | Page _ => false
  | Next => negb (hasNextPage p)
  | Last => currentPage p =? totalPages p
  end.

Definition onClick (p : Props) (b : Button) : option Z :=
  match b with
  | First => Some 1
  | Previous => Some (currentPage p - 1)
  | Page n => if negb (currentPage p =? n) then Some n else None
  | Next => Some (currentPage p + 1)
  | Last => Some (totalPages p)
  end.

Definition click (p : Props) (b : Button) : option Z :=
  if rendered p b && negb (disabled p b) then onClick p b else None.

(** The props that [ApartmentListClient] passes, and when it renders the
    component at all. *)
Definition props_of (s : Hook.State) (info : Hook.PaginationInfo) : Props :=
  {| currentPage := Hook.currentPage s;
     totalPages := Hook.PaginationInfo.totalPages info;
     hasPrevPage := Hook.PaginationInfo.hasPrevPage info;
     hasNextPage := Hook.PaginationInfo.hasNextPage info |}.

End Pagination.

(** ** The images of the creation form (component [AddApartmentModal]) *)

Module Modal.
Import JS.

(** The part of the component that the two image handlers act on: the
    form value [imageUrls], the flag [uploading], the error toasts shown,
    and the number of requests to [/api/upload] sent so far. *)
Record State : Type := {
  imageUrls : list string;
  uploading : bool;
  toasts : list string;
  sent : nat
}.

Definition initial : State :=
  {| imageUrls := []; uploading := false; toasts := []; sent := 0 |}.

(** A file of the input: its name and its content. *)
Definition File : Type := (string * string)%type.

(** What one request to [/api/upload] gives the handler: the property
    [imageUrl] of the parsed body, [None] when the body has none; or a
    throw, when [fetch] rejects, the body is not JSON, or it is [null]. *)
Inductive Upload : Type :=
| Answer (imageUrl : option string)
| Throws.

#[global] Instance Upload_eq_dec : EqDecision Upload.
Proof. solve_decision. Defined.

Inductive ModalE : Type -> Type :=
| toast_error (message : string) : ModalE unit
| setUploading (v : bool) : ModalE unit
| setValue_imageUrls (v : list string) : ModalE unit
| post_upload (file : File) : ModalE Upload.

(** The browser and the form library, for a network that gives
    [network n file] to the upload of [file] when it is request number
    [n]. *)
Definition browser (network : nat -> File -> Upload) (X : Type) (e : ModalE X)
    (s : State) : X * State :=
  match e in ModalE T return T * State with
  | toast_error message =>
      (tt, {| imageUrls := imageUrls s; uploading := uploading s;
              toasts := toasts s ++ [message]; sent := sent s |})
  | setUploading v =>
      (tt, {| imageUrls := imageUrls s; uploading := v; toasts := toasts s;
              sent := sent s |})
  | setValue_imageUrls v =>
      (tt, {| imageUrls := v; uploading := uploading s; toasts := toasts s;
              sent := sent s |})
  | post_upload file =>
      (network (sent s) file,
       {| imageUrls := imageUrls s; uploading := uploading s; toasts := toasts s;
          sent := S (sent s) |})
  end.

(** How an activation of an [async] handler ends. *)
Inductive Ending : Type :=
| Resolved
| Rejected.

(** [if (data.imageUrl) uploaded.push(data.imageUrl)]. *)
Definition push_if_truthy (imageUrl : option string) (uploaded : list string)
    : list string :=
  match imageUrl with
  | Some u => if truthy u then uploaded ++ [u] else uploaded
  | None => uploaded
  end.

(** The loop over the files, then the rest of the handler. *)
Fixpoint upload_each (files : list File) (uploaded : list string)
    (rest : list string -> Prog ModalE Ending) : Prog ModalE Ending :=
  match files with
  | [] => rest uploaded
  | file :: more =>
      data <~ post_upload file ;;
      match data with
      | Throws => Ret Rejected
      | Answer imageUrl => upload_each more (push_if_truthy imageUrl uploaded) rest
      end
  end.

(** [handleFileUpload]. [images] is the watched form value of the render
    that made the handler; [files] is [e.target.files], [None] for
    [null]. *)
Definition handleFileUpload (images : list string) (files : option (list File))
    : Prog ModalE Ending :=
  match files with
  | None => Ret Resolved
  | Some files =>
      let currentImages := images in
      if (8 <? length currentImages + length files)%nat
      then (_ <~ toast_error "You can upload a maximum of 8 images per apartment." ;;
            Ret Resolved)
      else
        _ <~ setUploading true ;;
        upload_each files []
          (fun uploaded =>
             _ <~ setValue_imageUrls (currentImages ++ uploaded) ;;
             _ <~ setUploading false ;;
             Ret Resolved)
  end.

(** [updated.splice(index, 1)]: a negative index counts from the end, and
    an index outside the list removes nothing. *)
Definition splice1 (index : Z) (l : list string) : list string :=
  let len := Z.of_nat (length l) in
  let start := if index <? 0 then Z.max (len + index) 0 else Z.min index len in
  delete (Z.to_nat start) l.

Definition removeImage (images : list string) (index : Z) : Prog ModalE unit :=
  let updated := splice1 index images in
  _ <~ setValue_imageUrls updated ;;
  Ret tt.

(** What the user does with the images between two renders, and the state
    after it. Each handler reads the form value of the state it starts
    in. *)
Inductive Action : Type :=
| choose_files (files : option (list File))
| remove_image (index : Z).

Definition act (network : nat -> File -> Upload) (s : State) (a : Action) : State :=
  match a with
  | choose_files files =>
      final (run (browser network) (handleFileUpload (imageUrls s) files) s)
  | remove_image index =>
      final (run (browser network) (removeImage (imageUrls s) index) s)
  end.

(** The answers to the uploads of [files], the first being request number
    [n], and the URLs that the loop pushes for them. *)
Fixpoint answers (network : nat -> File -> Upload) (n : nat) (files : list File)
    : list Upload :=
  match files with
  | [] => []
  | file :: more => network n file :: answers network (S n) more
  end.

Definition gather (uploaded : list string) (data : Upload) : list string :=
  match data with
  | Answer imageUrl => push_if_truthy imageUrl uploaded
  | Throws => uploaded
  end.

Definition pushed (network : nat -> File -> Upload) (n : nat) (files : list File)
    : list string :=
  fold_left gather (answers network n files) [].

(** The state after [k] more requests. *)
Definition after_posts (k : nat) (s : State) : State :=
  {| imageUrls := imageUrls s; uploading := uploading s; toasts := toasts s;
     sent := k + sent s |}.

(** The requests to [/api/upload] among the calls of a run. *)
Definition posted (c : Call ModalE) : option File :=
  match c with
  | Called (post_upload file) => Some file
  | _ => None
  end.

End Modal.

(** ** Path components *)

Module Paths.

(** A string without a separator, and a component that normalisation
    keeps as it is. *)
Definition no_slash (s : string) : bool :=
  Validation.every (fun c => negb (Ascii.eqb c Files.slash)) s.

Definition component (s : string) : Prop :=
  no_slash s = true /\ s <> EmptyString /\ s <> "." /\ s <> "..".

(** The path of a call of the file route. *)
Definition path_of (c : Call Files.FsE) : string :=
  match c with
  | Called (Files.existsSync p) => p
  | Called (Files.readFileSync p) => p
  end.

End Paths.

(** ** The states the hook can reach *)

Module Reachable.
Import JS Hook.

(** The state after the first render and a history of events. *)
Definition after (initialPage : Z) (initialQuery : string) (initialLimitQuery : Z)
    (address : URLSearchParams) (history : list Event) : State :=
  steps (initial initialPage initialQuery initialLimitQuery address) history.

(** Request [c] can still change what is shown: its activation is
    suspended and its signal is not aborted. *)
Definition live (c : nat) (s : State) : Prop :=
  is_Some (suspended s !! c) /\ aborted c s = false.

(** What every reachable state satisfies, for the address and the limit of
    the first render. *)
Definition invariant (address : URLSearchParams) (l : Z) (s : State) : Prop :=
  (forall c, is_Some (suspended s !! c) -> latest_or_aborted c s)
  /\ length (requests s) = length (controllers s)
  /\ (forall i r, requests s !! i = Some r ->
        signal r = i /\ get "limit" (url r) = Some (String_ l))
  /\ location s = default address (url <$> last (requests s))
  /\ limit s = l
  /\ (isLoading s = true ->
      error s = None /\ exists c, is_Some (suspended s !! c)).

End Reachable.

(** * Properties

    ** The built-ins on concrete inputs *)

Example parseInt_digits : JS.parseInt "17" = JS.Int 17.
Proof. reflexivity. Qed.

Example parseInt_prefix : JS.parseInt " 12abc" = JS.Int 12.
Proof. reflexivity. Qed.

Example parseInt_hex : JS.parseInt "0x1F" = JS.Int 31.
Proof. reflexivity. Qed.

Example parseInt_negative : JS.parseInt "-3" = JS.Int (-3).
Proof. reflexivity. Qed.

Example parseInt_negative_zero : JS.parseInt "-0" = JS.NegZero.
Proof. reflexivity. Qed.

Example parseInt_not_numeric : JS.parseInt "abc" = JS.NaN.
Proof. reflexivity. Qed.

Example ceil_div_17_8 : JS.ceil_div (JS.Int 17) (JS.Int 8) = JS.Int 3.
Proof. reflexivity. Qed.

Example ceil_div_by_zero : JS.ceil_div (JS.Int 17) (JS.Int 0) = JS.PosInf.
Proof. reflexivity. Qed.

Example ceil_div_negative : JS.ceil_div (JS.Int 17) (JS.Int (-5)) = JS.Int (-3).
Proof. reflexivity. Qed.

Example String_digits : JS.String_ 17 = "17".
Proof. reflexivity. Qed.

Example String_above_2_53 :
  JS.String_ (2 ^ 53) = "9007199254740992"
  /\ JS.String_ (2 ^ 60) = "1152921504606847000"
  /\ JS.String_ (- 2 ^ 64) = "-18446744073709552000"
  /\ JS.String_ (10 ^ 20) = "100000000000000000000".
Proof. vm_compute. repeat split. Qed.

Example String_exponent :
  JS.String_ (10 ^ 21) = "1e+21" /\ JS.String_ (15 * 10 ^ 20) = "1.5e+21"
  /\ JS.String_ (2 ^ 70) = "1.1805916207174113e+21"
  /\ JS.parseInt (JS.String_ (10 ^ 21)) = JS.Int 1.
Proof. vm_compute. repeat split. Qed.

(** ** Strings and patterns *)

Lemma append_cons (c : ascii) (s t : string) :
  String c s +:+ t = String c (s +:+ t).
Proof. reflexivity. Qed.

Lemma append_empty_l (t : string) : EmptyString +:+ t = t.
Proof. reflexivity. Qed.

Ltac unfold_append := rewrite ?append_cons, ?append_empty_l in *.

Lemma append_empty_r (s : string) : s +:+ EmptyString = s.
Proof. induction s as [|c s IH]; unfold_append; [reflexivity | by f_equal]. Qed.

Lemma append_assoc (a b c : string) : (a +:+ b) +:+ c = a +:+ (b +:+ c).
Proof. induction a as [|x a IH]; unfold_append; [reflexivity | by f_equal]. Qed.

Lemma append_is_empty (a b : string) :
  a +:+ b = EmptyString -> a = EmptyString /\ b = EmptyString.
Proof. destruct a; unfold_append; [auto | discriminate]. Qed.

Lemma prefix_append (sub s : string) :
  String.prefix sub s = true <-> exists post, s = sub +:+ post.
Proof.
  revert s. induction sub as [|c sub IH]; intros s; simpl.
  - split; [intros _; by exists s | intros _; by destruct s].
  - destruct s as [|d s]; simpl.
    + split; [discriminate | intros [post H]; unfold_append; discriminate].
    + destruct (ascii_dec c d) as [->|Hne].
      * rewrite IH. split; intros [post H]; exists post; unfold_append; congruence.
      * split; [discriminate | intros [post H]; unfold_append; congruence].
Qed.

(** [includes] is containment as a substring. *)
Lemma includes_spec (sub s : string) :
  JS.includes sub s = true <-> exists pre post, s = pre +:+ sub +:+ post.
Proof.
  induction s as [|c s IH].
  - change (JS.includes sub EmptyString)
      with (String.prefix sub EmptyString || false).
    rewrite orb_false_r, prefix_append. split.
    + intros [post H]. by exists EmptyString, post.
    + intros (pre & post & H). symmetry in H.
      apply append_is_empty in H as [-> H]. unfold_append. by exists post.
  - change (JS.includes sub (String c s))
      with (String.prefix sub (String c s) || JS.includes sub s).
    rewrite orb_true_iff, prefix_append, IH. split.
    + intros [[post H] | (pre & post & H)].
      * by exists EmptyString, post.
      * exists (String c pre), post. unfold_append. by rewrite H.
    + intros (pre & post & H). destruct pre as [|d pre]; unfold_append.
      * left. by exists post.
      * right. exists pre, post. congruence.
Qed.

Section Derivatives.
Import Validation.

Lemma nullable_matches (r : regex) :
  nullable r = true <-> matches r EmptyString.
Proof.
  split.
  - induction r; simpl; intros H; try discriminate.
    + constructor.
    + apply andb_true_iff in H as [H1 H2].
      change EmptyString with (EmptyString +:+ EmptyString). constructor; auto.
    + apply orb_true_iff in H as [H|H]; [apply m_alt_l | apply m_alt_r]; auto.
    + constructor.
  - intros H. remember EmptyString as s eqn:Hs.
    induction H; simpl; try discriminate; auto.
    + apply append_is_empty in Hs as [-> ->]. rewrite IHmatches1, IHmatches2; auto.
    + rewrite IHmatches; auto.
    + rewrite IHmatches; auto using orb_true_r.
Qed.

Lemma deriv_sound (c : ascii) (r : regex) :
  forall s, matches (deriv c r) s -> matches r (String c s).
Proof.
  induction r; simpl; intros s H.
  - inversion H.
  - inversion H.
  - destruct (p c) eqn:Hp; inversion H; subst. by constructor.
  - assert (Hseq : forall t, matches (Seq (deriv c r1) r2) t ->
                             matches (Seq r1 r2) (String c t)).
    { intros t Ht. inversion Ht; subst.
      change (String c (s1 +:+ s2)) with (String c s1 +:+ s2).
      constructor; auto. }
    destruct (nullable r1) eqn:Hn; [|by apply Hseq].
    inversion H; subst; [by apply Hseq|].
    change (String c s) with (EmptyString +:+ String c s).
    constructor; [by apply nullable_matches | auto].
  - inversion H; subst; [apply m_alt_l | apply m_alt_r]; auto.
  - inversion H; subst.
    change (String c (s1 +:+ s2)) with (String c s1 +:+ s2).
    constructor; auto.
Qed.

Lemma deriv_complete (c : ascii) (r : regex) (w : string) :
  matches r w -> forall s, w = String c s -> matches (deriv c r) s.
Proof.
  induction 1 as [ | p d Hp | r1 r2 s1 s2 H1 IH1 H2 IH2 | r1 r2 t H IH
                 | r1 r2 t H IH | r1 | r1 s1 s2 H1 IH1 H2 IH2 ];
    intros s Hw; simpl.
  - discriminate.
  - injection Hw as -> <-. rewrite Hp. constructor.
  - destruct s1 as [|d s1]; unfold_append.
    + subst s2. apply nullable_matches in H1. rewrite H1.
      apply m_alt_r. by apply IH2.
    + injection Hw as -> <-.
      assert (matches (Seq (deriv c r1) r2) (s1 +:+ s2))
        by (constructor; auto).
      destruct (nullable r1); [by apply m_alt_l | done].
  - apply m_alt_l. by apply IH.
  - apply m_alt_r. by apply IH.
  - discriminate.
  - destruct s1 as [|d s1]; unfold_append.
    + by apply IH2.
    + injection Hw as -> <-. constructor; auto.
Qed.

(** The matcher decides the meaning of the pattern. *)
Lemma accepts_matches (r : regex) (s : string) :
  accepts r s = true <-> matches r s.
Proof.
  revert r. induction s as [|c s IH]; intros r; simpl.
  - apply nullable_matches.
  - rewrite IH. split; [apply deriv_sound | intros H; by eapply deriv_complete].
Qed.

Lemma matches_lit (s : string) : matches (lit s) s.
Proof.
  induction s as [|c s IH]; simpl; [constructor|].
  change (String c s) with (String c EmptyString +:+ s).
  constructor; [|done]. constructor. apply Ascii.eqb_refl.
Qed.

Lemma matches_lit_inv (s t : string) : matches (lit s) t -> t = s.
Proof.
  revert t. induction s as [|c s IH]; simpl; intros t H.
  - by inversion H.
  - inversion H as [ | | r1 r2 s1 s2 H1 H2 | | | | ]; subst.
    inversion H1 as [ | p d Hp | | | | | ]; subst.
    apply Ascii.eqb_eq in Hp as <-. unfold_append. f_equal. by apply IH.
Qed.

(** A pattern that is not anchored at its end matches when a prefix of the
    string does. *)
Lemma matches_star_any (s : string) : matches (Star any) s.
Proof.
  induction s as [|c s IH]; [constructor|].
  change (String c s) with (String c EmptyString +:+ s).
  constructor; [by constructor | done].
Qed.

Lemma test_start_spec (r : regex) (s : string) :
  test_start r s = true <-> exists pre post, s = pre +:+ post /\ matches r pre.
Proof.
  unfold test_start. rewrite accepts_matches. split.
  - intros H. inversion H; subst. eauto.
  - intros (pre & post & -> & H). constructor; [done | apply matches_star_any].
Qed.
Lemma matches_class_inv (p : ascii -> bool) (s : string) :
  matches (Class p) s -> exists c, s = String c EmptyString /\ p c = true.
Proof. intros H. inversion H; subst. eauto. Qed.

(** A class repeated [n] times matches the strings of [n] characters of the
    class. *)
Lemma matches_times (p : ascii -> bool) (n : nat) (s : string) :
  matches (times n (Class p)) s <-> String.length s = n /\ every p s = true.
Proof.
  revert s. induction n as [|n IH]; intros s; simpl.
  - split.
    + intros H. by inversion H.
    + intros [Hlen _]. destruct s; [constructor | discriminate].
  - split.
    + intros H. inversion H as [ | | r1 r2 s1 s2 H1 H2 | | | | ]; subst.
      apply matches_class_inv in H1 as (c & -> & Hc). unfold_append.
      apply IH in H2 as [Hlen Hall]. simpl. rewrite Hc, Hall, Hlen. done.
    + intros [Hlen Hall]. destruct s as [|c s]; [discriminate|].
      simpl in Hlen, Hall. apply andb_true_iff in Hall as [Hc Hall].
      change (String c s) with (String c EmptyString +:+ s).
      constructor; [by constructor|]. apply IH. split; [congruence | done].
Qed.

(** The contact pattern read out: [+201] or [00201], then one of the
    characters 0, 1, 2, 5 and the comma, then eight digits. *)
Lemma contactNumber_shape (s : string) :
  matches contactNumber_re s <->
  exists pre c digits,
    s = pre +:+ String c digits
    /\ (pre = "+201" \/ pre = "00201")
    /\ (c = "0" \/ c = "1" \/ c = "2" \/ c = "," \/ c = "5")%char
    /\ String.length digits = 8%nat
    /\ every (range "0" "9") digits = true.
Proof.
  assert (Hclass : forall c, contact_class c = true <->
            (c = "0" \/ c = "1" \/ c = "2" \/ c = "," \/ c = "5")%char).
  { intros c. split.
    - destruct c as [[] [] [] [] [] [] [] []]; vm_compute; intros H;
        try discriminate; tauto.
    - intros [-> | [-> | [-> | [-> | ->]]]]; reflexivity. }
  unfold contactNumber_re. split.
  - intros H. inversion H as [ | | r1 r2 pre rest Hpre Hrest | | | | ]; subst.
    inversion Hrest as [ | | r1 r2 one digits Hone Hdigits | | | | ]; subst.
    apply (matches_times contact_class 1) in Hone as [Hlen Hall].
    destruct one as [|c [|]]; try discriminate. simpl in Hall.
    rewrite andb_true_r in Hall.
    apply (matches_times (range "0" "9") 8) in Hdigits as [Hlen8 Hall8].
    exists pre, c, digits. unfold_append.
    split; [reflexivity|]. split.
    { inversion Hpre; subst; [left | right]; by apply matches_lit_inv. }
    split; [by apply Hclass | done].
  - intros (pre & c & digits & -> & Hpre & Hc & Hlen & Hall).
    constructor.
    + destruct Hpre as [-> | ->]; [apply m_alt_l | apply m_alt_r]; apply matches_lit.
    + change (String c digits) with (String c EmptyString +:+ digits).
      constructor.
      * apply (matches_times contact_class 1). split; [reflexivity|].
        simpl. rewrite andb_true_r. by apply Hclass.
      * by apply (matches_times (range "0" "9") 8).
Qed.

End Derivatives.

(** ** The listing endpoint *)

Section Listing.
Import JS Apartments.

Lemma skip_of_page (page limit : Z) :
  1 <= page -> 1 <= limit ->
  mul (sub (Int page) (Int 1)) (Int limit) = Int ((page - 1) * limit).
Proof.
  intros Hp Hl. unfold mul, sub. simpl.
  destruct ((page - 1) * limit =? 0) eqn:Hz; [|reflexivity].
  apply Z.eqb_eq in Hz. rewrite Hz.
  replace (page - 1 <? 0) with false by (symmetry; apply Z.ltb_ge; lia).
  replace (limit <? 0) with false by (symmetry; apply Z.ltb_ge; lia).
  reflexivity.
Qed.

Lemma totalPages_of_count (n limit : Z) :
  0 <= n -> 1 <= limit ->
  ceil_div (Int n) (Int limit) = Int (- ((- n) / limit)).
Proof.
  intros Hn Hl. unfold ceil_div. simpl.
  replace (limit =? 0) with false by (symmetry; apply Z.eqb_neq; lia).
  destruct (- (- n / limit) =? 0) eqn:Hz; [|reflexivity].
  apply Z.eqb_eq in Hz. rewrite Hz.
  replace (n <? 0) with false by (symmetry; apply Z.ltb_ge; lia).
  replace (limit <? 0) with false by (symmetry; apply Z.ltb_ge; lia).
  reflexivity.
Qed.

(** [- ((- n) / limit)] is the ceiling of [n / limit]: the least number of
    pages of [limit] records that hold [n] records. *)
Lemma ceiling_bounds (n limit : Z) :
  1 <= limit ->
  (- ((- n) / limit) - 1) * limit < n <= - ((- n) / limit) * limit.
Proof.
  intros Hl.
  pose proof (Z.div_mod (- n) limit ltac:(lia)) as Hdm.
  pose proof (Z.mod_pos_bound (- n) limit ltac:(lia)) as Hr.
  nia.
Qed.

Lemma length_ordered (w : WhereInput) (st : Store) :
  length (ordered w st) = length (List.filter (selects w) st).
Proof. unfold ordered. by rewrite merge_sort_Permutation. Qed.



(** The rows of that page: the oldest listing. *)
Example third_page_of_seventeen :
  match result (run (prisma Examples.engine)
                  (GET [("page", "3"); ("limit", "8")]) Examples.seventeen) with
  | Listing rows _ => map createdAt rows = [1]
  | _ => False
  end.
Proof. vm_compute. reflexivity. Qed.

(** C2, the code at inputs it does not coerce. Only a [page] or [limit] that
    is absent or empty is replaced by its default; the result of [parseInt]
    is used as it is. A page of 0 is not turned into 1, a page or a limit
    that is not numeric is [NaN], and for [page=0] the handler asks the
    store for the rows from offset -10 on. *)
Theorem page_and_limit_are_not_coerced (st : Store) :
  page_of [] = Int 1 /\ limit_of [] = Int 10
  /\ page_of [("page", EmptyString)] = Int 1
  /\ page_of [("page", "0")] = Int 0
  /\ page_of [("page", "-3")] = Int (-3)
  /\ page_of [("page", "abc")] = NaN
  /\ limit_of [("limit", "0")] = Int 0
  /\ limit_of [("limit", "many")] = NaN
  /\ calls (run (prisma Examples.engine) (GET [("page", "0")]) st) =
       [Called (count None);
        Called (findMany {| where_ := None; skip := Int (-10); take := Int 10 |})]
  /\ status (result (run (prisma Examples.engine) (GET [("page", "0")]) st)) = 500.
Proof. repeat split. Qed.

End Listing.

(** ** The creation endpoint *)

Section Creation.
Import JS Validation.
Variable Number : string -> float.

Lemma positive_price (x : float) : positive x = true -> Invariants.price_positive x.
Proof.
  destruct x as [|neg|q]; simpl; [discriminate | by destruct neg |].
  by destruct (Qlt_le_dec 0 q).
Qed.

Lemma string_min1_not_empty (v : option json) (s : string) :
  string_min1 v = Some s -> s <> EmptyString.
Proof.
  unfold string_min1. destruct v as [[| | |t| |]|]; try discriminate.
  destruct t; simpl; [discriminate | intros [= <-]; discriminate].
Qed.

Lemma price_schema_positive (v : option json) (x : float) :
  price_schema Number v = Some x -> Invariants.price_positive x.
Proof.
  unfold price_schema, number_positive, numeric_string.
  destruct v as [[| |q|t| |]|]; try discriminate.
  - destruct (positive (Fin q)) eqn:Hq; [|discriminate].
    intros [= <-]. by apply positive_price.
  - destruct (negb (isNaN (Number t)) && positive (Number t)) eqn:Ht; [|discriminate].
    intros [= <-]. apply andb_true_iff in Ht as [_ Ht]. by apply positive_price.
Qed.

Lemma string_regex_test (test : string -> bool) (v : option json) (s : string) :
  string_regex test v = Some s -> test s = true.
Proof.
  unfold string_regex. destruct v as [[| | |t| |]|]; try discriminate.
  destruct (test t) eqn:Ht; [congruence | discriminate].
Qed.

Lemma imageUrls_schema_length (v : option json) (l : list string) :
  imageUrls_schema v = Some l -> (1 <= length l <= 8)%nat.
Proof.
  unfold imageUrls_schema. destruct v as [[| | | |js|]|]; try discriminate.
  destruct (items js) as [ss|]; [|discriminate].
  destruct ((1 <=? length ss)%nat && (length ss <=? 8)%nat) eqn:Hlen; [|discriminate].
  intros [= <-]. apply andb_true_iff in Hlen as [H1 H8].
  apply Nat.leb_le in H1, H8. lia.
Qed.

(** What a successful parse guarantees of the data. *)
Lemma safeParse_success (body : json) (d : ApartmentInput) :
  safeParse Number body = Success d ->
  name d <> EmptyString /\ unitNumber d <> EmptyString
  /\ project d <> EmptyString /\ description d <> EmptyString
  /\ Invariants.price_positive (price d)
  /\ matches contactNumber_re (contactNumber d)
  /\ (1 <= length (imageUrls d) <= 8)%nat.
Proof.
  destruct body as [| | | | |m]; try discriminate. unfold safeParse.
  destruct (string_min1 (m !! "name")) as [n|] eqn:Hn;
  destruct (string_min1 (m !! "unitNumber")) as [u|] eqn:Hu;
  destruct (string_min1 (m !! "project")) as [p|] eqn:Hp;
  destruct (string_min1 (m !! "description")) as [ds|] eqn:Hd;
  destruct (price_schema Number (m !! "price")) as [pr|] eqn:Hpr;
  destruct (string_regex (test_whole contactNumber_re) (m !! "contactNumber")) as [c|] eqn:Hc;
  destruct (imageUrls_schema (m !! "imageUrls")) as [i|] eqn:Hi;
  try discriminate.
  intros [= <-]. simpl.
  repeat split; eauto using string_min1_not_empty, price_schema_positive.
  - apply string_regex_test in Hc. by apply accepts_matches.
  - by apply imageUrls_schema_length in Hi as [? ?].
  - by apply imageUrls_schema_length in Hi as [? ?].
Qed.

(** A price that does not parse is reported under [price]. *)
Lemma safeParse_price_error (m : gmap string json) :
  price_schema Number (m !! "price") = None ->
  exists tree, safeParse Number (JObject m) = Validation.Error tree
               /\ f_price ∈ properties tree.
Proof.
  intros Hpr. unfold safeParse. rewrite Hpr.
  destruct (string_min1 (m !! "name")); destruct (string_min1 (m !! "unitNumber"));
  destruct (string_min1 (m !! "project")); destruct (string_min1 (m !! "description"));
    (eexists; split; [reflexivity|]); cbn [properties failed];
    rewrite !elem_of_app, !list_elem_of_singleton; tauto.
Qed.

(** C7. Whatever the body, the creation endpoint leaves the store as it was
    or appends one record, and that record satisfies the invariants of the
    data model: a store of well-formed records stays one. When the body
    fails validation, the answer is the 400 report of the failing
    properties, the store is not called and is unchanged; a body whose
    price is -5 is such a body, and its report names [price]. *)
Theorem creation_keeps_the_store_well_formed
    (env : Apartments.Engine) (body : option json) (st : Apartments.Store) :
  let r := run (Apartments.prisma env) (Apartments.POST Number body) st in
  (Forall Invariants.well_formed st -> Forall Invariants.well_formed (final r))
  /\ (final r = st
      \/ exists a, final r = st ++ [a] /\ Invariants.well_formed a
                   /\ result r = Apartments.Created a)
  /\ (forall b tree,
        body = Some b -> safeParse Number b = Validation.Error tree ->
        result r = Apartments.Invalid "Validation failed" tree
        /\ Apartments.status (result r) = 400
        /\ final r = st /\ calls r = [])
  /\ (forall m,
        body = Some (JObject m) -> m !! "price" = Some (JNumber (-5)) ->
        exists tree,
          result r = Apartments.Invalid "Validation failed" tree
          /\ f_price ∈ properties tree
          /\ final r = st /\ calls r = []).
Proof.
  intros r.
  assert (Hstep : final r = st
      \/ exists a, final r = st ++ [a] /\ Invariants.well_formed a
                   /\ result r = Apartments.Created a).
  { subst r. destruct body as [b|]; [|by left]. unfold Apartments.POST.
    destruct (safeParse Number b) as [d|tree] eqn:Hparse; [|by left].
    cbn [run Apartments.prisma]. destruct (Apartments.up env); [|by left].
    right. exists (Apartments.stored env d). repeat split.
    all: apply safeParse_success in Hparse; simpl; try tauto.
    exists (description d). tauto. }
  split; [|split; [exact Hstep|split]].
  - intros Hst. destruct Hstep as [-> | (a & -> & Ha & _)]; [done|].
    apply Forall_app. split; [done | by constructor].
  - intros b tree -> Hparse. subst r. unfold Apartments.POST. rewrite Hparse.
    repeat split.
  - intros m -> Hprice.
    destruct (safeParse_price_error m) as (tree & Hparse & Hin).
    { rewrite Hprice. reflexivity. }
    exists tree. subst r. unfold Apartments.POST. rewrite Hparse. repeat split. done.
Qed.

End Creation.

Lemma creation_keeps_the_store_well_formed_witness :
  let r := run (Apartments.prisma Examples.engine)
             (Apartments.POST (fun _ => JS.FNaN) (Some Examples.negative_price))
             Examples.seventeen in
  exists tree,
    result r = Apartments.Invalid "Validation failed" tree
    /\ Validation.f_price ∈ Validation.properties tree
    /\ final r = Examples.seventeen /\ calls r = [].
Proof.
  destruct (creation_keeps_the_store_well_formed (fun _ => JS.FNaN) Examples.engine
              (Some Examples.negative_price) Examples.seventeen) as (_ & _ & _ & H).
  exact (H _ eq_refl eq_refl).
Defined.

(** The two bodies on the code itself. *)
Example negative_price_report :
  Validation.safeParse (fun _ => JS.FNaN) Examples.negative_price =
  Validation.Error {| Validation.errors := false;
                      Validation.properties := [Validation.f_price] |}.
Proof. vm_compute. reflexivity. Qed.

Example documented_body_is_created :
  result (run (Apartments.prisma Examples.engine)
            (Apartments.POST (fun _ => JS.FNaN) (Some Examples.documented_body))
            Examples.seventeen)
  = Apartments.Created
      {| Apartments.id := "c2a1f6c1-d5e8-4f7c-b0a9-e9a8d8c3b4a5";
         Apartments.name := "Downtown Apartment";
         Apartments.unitNumber := "A203";
         Apartments.project := "Skyline Towers";
         Apartments.description := Some "Spacious apartment with a view.";
         Apartments.price := JS.Fin 250000;
         Apartments.contactNumber := "+201101029668";
         Apartments.imageUrls := ["/api/files/image1.jpg"];
         Apartments.createdAt := 18 |}.
Proof. vm_compute. reflexivity. Qed.

(** ** Numbers in the query string *)

Section QueryStringFacts.
Import JS Answers.

Lemma digit_value_pretty (d : N) :
  (d < 10)%N ->
  digit_value (pretty_N_char d) = Some (Z.of_N d)
  /\ decimal (pretty_N_char d) = true.
Proof.
  intros Hd.
  assert (d = 0 \/ d = 1 \/ d = 2 \/ d = 3 \/ d = 4 \/ d = 5 \/ d = 6
          \/ d = 7 \/ d = 8 \/ d = 9)%N as Hcases by lia.
  repeat (destruct Hcases as [-> | Hcases]; [by vm_compute|]).
  subst d. by vm_compute.
Qed.

Lemma read_digits_pretty (x : N) :
  forall acc s, (0 < x)%N -> default 0 acc = 0 ->
  read_digits 10 acc (pretty_N_go x s) = read_digits 10 (Some (Z.of_N x)) s.
Proof.
  induction (N.lt_wf_0 x) as [x _ IH]. intros acc s Hx Hacc.
  rewrite pretty_N_go_step by done.
  assert (Hd : (x `mod` 10 < 10)%N) by (apply N.mod_lt; lia).
  destruct (digit_value_pretty _ Hd) as [Hval _].
  assert (Hx10 : Z.of_N x = Z.of_N (x `div` 10) * 10 + Z.of_N (x `mod` 10)).
  { rewrite (N.div_mod x 10) at 1 by lia. lia. }
  destruct (decide (x `div` 10 = 0)%N) as [Hz | Hnz].
  - rewrite Hz, pretty_N_go_0. cbn [read_digits]. rewrite Hval.
    replace (Z.of_N (x `mod` 10) <? 10) with true by (symmetry; apply Z.ltb_lt; lia).
    rewrite Hacc. f_equal. f_equal. rewrite Hx10, Hz. lia.
  - rewrite (IH (x `div` 10)%N); [| apply N.div_lt; lia | lia | done].
    cbn [read_digits]. rewrite Hval.
    replace (Z.of_N (x `mod` 10) <? 10) with true by (symmetry; apply Z.ltb_lt; lia).
    f_equal. f_equal. unfold default. cbn [from_option]. unfold id. lia.
Qed.

Lemma every_decimal_pretty (x : N) :
  forall s, Validation.every decimal (pretty_N_go x s) = Validation.every decimal s.
Proof.
  induction (N.lt_wf_0 x) as [x _ IH]. intros s.
  destruct (decide (0 < x)%N) as [Hx | Hx].
  - rewrite pretty_N_go_step by done. rewrite IH by (apply N.div_lt; lia).
    cbn [Validation.every].
    destruct (digit_value_pretty (x `mod` 10)%N) as [_ ->]; [|done].
    apply N.mod_lt. lia.
  - replace x with 0%N by lia. by rewrite pretty_N_go_0.
Qed.

Lemma pretty_N_go_not_empty (x : N) :
  forall s, s <> EmptyString -> pretty_N_go x s <> EmptyString.
Proof.
  induction (N.lt_wf_0 x) as [x _ IH]. intros s Hs.
  destruct (decide (0 < x)%N) as [Hx | Hx].
  - rewrite pretty_N_go_step by done. apply IH; [apply N.div_lt; lia | done].
  - replace x with 0%N by lia. by rewrite pretty_N_go_0.
Qed.

(** [parseInt] on a string of decimal digits reads all of it in radix 10. *)
Lemma parseInt_decimal (t : string) :
  t <> EmptyString -> Validation.every decimal t = true ->
  parseInt t = match read_digits 10 None t with
               | Some n => Int n
               | None => NaN
               end
  /\ parseInt ("-" +:+ t)
     = match read_digits 10 None t with
       | Some n => if n =? 0 then NegZero else Int (- n)
       | None => NaN
       end.
Proof.
  intros Hne Hall. destruct t as [|c r]; [done|].
  cbn [Validation.every] in Hall. apply andb_true_iff in Hall as [Hc Hr].
  destruct c as [[] [] [] [] [] [] [] []]; try discriminate Hc;
    try (split; reflexivity).
  destruct r as [|c2 r2]; [split; reflexivity|].
  cbn [Validation.every] in Hr. apply andb_true_iff in Hr as [Hc2 _].
  destruct c2 as [[] [] [] [] [] [] [] []]; try discriminate Hc2;
    split; reflexivity.
Qed.

(** Up to 2^53, [String] writes the decimal digits of the integer. *)
Lemma String_safe (z : Z) : Z.abs z < 2 ^ 53 -> String_ z = pretty z.
Proof.
  intros Hz. unfold String_, String_natural, shortest.
  destruct z as [|p|p].
  - reflexivity.
  - replace (Z.pos p <? 0) with false by (symmetry; apply Z.ltb_ge; lia).
    replace (Z.pos p <? 2 ^ 53) with true by (symmetry; apply Z.ltb_lt; lia).
    cbv zeta.
    by replace (Z.pos p <? 10 ^ 21) with true by (symmetry; apply Z.ltb_lt; lia).
  - replace (Z.neg p <? 0) with true by (symmetry; apply Z.ltb_lt; lia).
    change (- Z.neg p) with (Z.pos p).
    replace (Z.pos p <? 2 ^ 53) with true by (symmetry; apply Z.ltb_lt; lia).
    cbv zeta.
    by replace (Z.pos p <? 10 ^ 21) with true by (symmetry; apply Z.ltb_lt; lia).
Qed.

(** Writing an integer with [String] and reading it with [parseInt] gives
    the integer back, up to 2^53. *)
Lemma parseInt_String (z : Z) : Z.abs z < 2 ^ 53 -> parseInt (String_ z) = Int z.
Proof.
  intros Hz.
  assert (Hpos : forall p,
            pretty_N_go (N.pos p) EmptyString <> EmptyString
            /\ Validation.every decimal (pretty_N_go (N.pos p) EmptyString) = true
            /\ read_digits 10 None (pretty_N_go (N.pos p) EmptyString)
               = Some (Z.pos p)).
  { intros p. split; [|split].
    - rewrite pretty_N_go_step by lia. by apply pretty_N_go_not_empty.
    - by rewrite every_decimal_pretty.
    - by rewrite read_digits_pretty by (lia || done). }
  rewrite String_safe by done.
  destruct z as [|p|p].
  - reflexivity.
  - destruct (Hpos p) as (Hne & Hall & Hread).
    change (pretty (Z.pos p)) with (pretty_N_go (N.pos p) EmptyString).
    destruct (parseInt_decimal _ Hne Hall) as [-> _]. by rewrite Hread.
  - destruct (Hpos p) as (Hne & Hall & Hread).
    change (pretty (Z.neg p)) with ("-" +:+ pretty_N_go (N.pos p) EmptyString).
    destruct (parseInt_decimal _ Hne Hall) as [_ ->]. by rewrite Hread.
Qed.

Lemma pretty_truthy (z : Z) : truthy (pretty z) = true.
Proof.
  destruct z as [|p|p]; [reflexivity| |reflexivity].
  change (pretty (Z.pos p)) with (pretty_N_go (N.pos p) EmptyString).
  assert (H : pretty_N_go (N.pos p) EmptyString <> EmptyString)
    by (rewrite pretty_N_go_step by lia; by apply pretty_N_go_not_empty).
  by destruct (pretty_N_go (N.pos p) EmptyString).
Qed.

Lemma exponent_truthy (m : Z) : truthy (exponent m) = true.
Proof. unfold exponent. by destruct (drop_zeros_end (pretty m)) as [|d [|c r]]. Qed.

Lemma String_truthy (z : Z) : truthy (String_ z) = true.
Proof.
  unfold String_, String_natural. destruct (z <? 0); [reflexivity|].
  cbv zeta. destruct (shortest z <? 10 ^ 21);
    [apply pretty_truthy | apply exponent_truthy].
Qed.

Lemma buildParams_page_of (limit page : Z) (q : string) :
  Z.abs page < 2 ^ 53 ->
  Apartments.page_of (Hook.buildParams limit page q) = Int page.
Proof.
  intros Hpage.
  assert (Hp : get "page" (Hook.buildParams limit page q) = Some (String_ page)).
  { unfold Hook.buildParams. by destruct (truthy q). }
  unfold Apartments.page_of. rewrite Hp. unfold or_else.
  by rewrite String_truthy, parseInt_String.
Qed.

Lemma buildParams_limit_of (limit page : Z) (q : string) :
  Z.abs limit < 2 ^ 53 ->
  Apartments.limit_of (Hook.buildParams limit page q) = Int limit.
Proof.
  intros Hlimit.
  assert (Hl : get "limit" (Hook.buildParams limit page q) = Some (String_ limit)).
  { unfold Hook.buildParams. by destruct (truthy q). }
  unfold Apartments.limit_of. rewrite Hl. unfold or_else.
  by rewrite String_truthy, parseInt_String.
Qed.

Lemma buildParams_limit (limit page : Z) (q : string) :
  get "limit" (Hook.buildParams limit page q) = Some (String_ limit).
Proof. unfold Hook.buildParams. by destruct (truthy q). Qed.

Lemma limit_of_String (searchParams : URLSearchParams) (limit : Z) :
  get "limit" searchParams = Some (String_ limit) ->
  Z.abs limit < 2 ^ 53 ->
  Apartments.limit_of searchParams = Int limit.
Proof.
  intros Hl Hlimit. unfold Apartments.limit_of. rewrite Hl. unfold or_else.
  by rewrite String_truthy, parseInt_String.
Qed.

Lemma buildParams_where (limit page : Z) (q : string) :
  Apartments.whereClause_of (Apartments.search_of (Hook.buildParams limit page q))
  = (if truthy q then Some q else None).
Proof.
  unfold Apartments.search_of, Hook.buildParams.
  destruct (truthy q) eqn:Hq; [|reflexivity]. cbn. by rewrite Hq.
Qed.

(** The query string that the hook builds, spelled out. *)
Lemma buildParams_entries (limit page : Z) (q : string) :
  Hook.buildParams limit page q
  = [("page", String_ page); ("limit", String_ limit)]
    ++ (if truthy q then [("search", q)] else []).
Proof. unfold Hook.buildParams. by destruct (truthy q). Qed.

End QueryStringFacts.


(** ** The file route *)

Section FileRoute.
Import JS Files.

(** C8. A filename that contains [..] or [/] is answered with status 400 and
    the handler makes no call on the file system; a run of [GET] that does
    call the file system is a run on a filename that contains neither. The
    filename [../../etc/passwd] is of the first kind. *)
Theorem traversal_filename_is_rejected (cwd filename : string) (disk : FileSystem) :
  ((exists pre post, filename = pre +:+ ".." +:+ post)
   \/ (exists pre post, filename = pre +:+ "/" +:+ post) ->
   run fs (GET cwd filename) disk = (Json 400 "Invalid filename", disk, []))
  /\ (calls (run fs (GET cwd filename) disk) <> [] ->
      ~ (exists pre post, filename = pre +:+ ".." +:+ post)
      /\ ~ (exists pre post, filename = pre +:+ "/" +:+ post))
  /\ run fs (GET cwd "../../etc/passwd") disk = (Json 400 "Invalid filename", disk, []).
Proof.
  assert (Hbad : (exists pre post, filename = pre +:+ ".." +:+ post)
                 \/ (exists pre post, filename = pre +:+ "/" +:+ post) ->
                 run fs (GET cwd filename) disk = (Json 400 "Invalid filename", disk, [])).
  { intros H. unfold GET.
    replace (includes ".." filename || includes "/" filename) with true; [reflexivity|].
    symmetry. apply orb_true_iff.
    destruct H as [H|H]; [left | right]; by apply includes_spec. }
  split; [exact Hbad | split; [|reflexivity]].
  intros Hcalls. split; intros H; apply Hcalls; rewrite Hbad; auto.
Qed.

Lemma traversal_filename_is_rejected_witness :
  run fs (GET "/app" "../../etc/passwd") (∅ : FileSystem)
  = (Json 400 "Invalid filename", ∅, []).
Proof.
  apply (proj1 (traversal_filename_is_rejected "/app" "../../etc/passwd" ∅)).
  left. by exists EmptyString, "/../etc/passwd".
Defined.

Lemma run_HEAD (cwd filename : string) (disk : FileSystem) :
  let filePath := join [UPLOAD_DIR cwd; filename] in
  run fs (HEAD cwd filename) disk =
    (Empty (if bool_decide (is_Some (disk !! filePath)) then 200 else 404),
     disk, [Called (existsSync filePath)]).
Proof.
  intros filePath. unfold HEAD. fold filePath. cbn [run fs].
  by destruct (bool_decide (is_Some (disk !! filePath))).
Qed.

(** C9. [HEAD] has no check of the filename: for every filename it makes
    one call, [existsSync] of the filename joined to the upload directory,
    and answers 200 when that path exists and 404 when it does not, never
    400. With the upload directory [/app/files/uploads], the filename
    [../../etc/passwd] makes it probe [/app/etc/passwd], which is not under
    the upload directory, where [GET] answers 400 without a call. *)
Theorem head_probes_the_joined_path (cwd filename : string) (disk : FileSystem) :
  let filePath := join [UPLOAD_DIR cwd; filename] in
  calls (run fs (HEAD cwd filename) disk) = [Called (existsSync filePath)]
  /\ final (run fs (HEAD cwd filename) disk) = disk
  /\ (status (result (run fs (HEAD cwd filename) disk)) = 200 <-> is_Some (disk !! filePath))
  /\ (status (result (run fs (HEAD cwd filename) disk)) = 404 <-> disk !! filePath = None)
  /\ status (result (run fs (HEAD cwd filename) disk)) <> 400
  /\ (UPLOAD_DIR "/app" = "/app/files/uploads"
      /\ join [UPLOAD_DIR "/app"; "../../etc/passwd"] = "/app/etc/passwd"
      /\ String.prefix (UPLOAD_DIR "/app") "/app/etc/passwd" = false
      /\ calls (run fs (HEAD "/app" "../../etc/passwd") disk)
         = [Called (existsSync "/app/etc/passwd")]
      /\ run fs (GET "/app" "../../etc/passwd") disk
         = (Json 400 "Invalid filename", disk, [])).
Proof.
  intros filePath. rewrite run_HEAD. fold filePath.
  unfold calls, final, result. cbn [fst snd].
  split; [reflexivity | split; [reflexivity|]].
  assert (Hjoin : join [UPLOAD_DIR "/app"; "../../etc/passwd"] = "/app/etc/passwd")
    by reflexivity.
  assert (Hexample : UPLOAD_DIR "/app" = "/app/files/uploads"
      /\ join [UPLOAD_DIR "/app"; "../../etc/passwd"] = "/app/etc/passwd"
      /\ String.prefix (UPLOAD_DIR "/app") "/app/etc/passwd" = false
      /\ snd (run fs (HEAD "/app" "../../etc/passwd") disk)
         = [Called (existsSync "/app/etc/passwd")]
      /\ run fs (GET "/app" "../../etc/passwd") disk
         = (Json 400 "Invalid filename", disk, [])).
  { rewrite run_HEAD, Hjoin. repeat split. }
  destruct (disk !! filePath) as [node|] eqn:Hnode.
  - rewrite bool_decide_eq_true_2 by eauto. simpl.
    repeat split; try done; eauto; apply Hexample.
  - rewrite bool_decide_eq_false_2 by (intros [? ?]; done). simpl.
    repeat split; try done; try apply Hexample.
Qed.

(** The two handlers side by side on a disk that holds a file outside the
    upload directory. *)
Example head_finds_a_file_outside :
  let disk : FileSystem := {[ "/app/etc/passwd" := File "root:x:0:0" ]} in
  result (run fs (HEAD "/app" "../../etc/passwd") disk) = Empty 200
  /\ result (run fs (HEAD "/app" "../../etc/shadow") disk) = Empty 404
  /\ result (run fs (GET "/app" "../../etc/passwd") disk) = Json 400 "Invalid filename".
Proof. vm_compute. repeat split. Qed.

Example get_serves_an_upload :
  let disk : FileSystem := {[ "/app/files/uploads/1-photo.JPG" := File "bytes" ]} in
  run fs (GET "/app" "1-photo.JPG") disk
  = (Body "bytes" 200 "image/jpeg"
       ("inline; filename=" +:+ quote +:+ "1-photo.JPG" +:+ quote),
     disk,
     [Called (existsSync "/app/files/uploads/1-photo.JPG");
      Called (readFileSync "/app/files/uploads/1-photo.JPG")]).
Proof. vm_compute. reflexivity. Qed.

End FileRoute.

(** ** The fetch coordinator *)

Section Coordinator.
Import JS Hook.

(** *** What [fetchApartments] does to the browser side of the state *)

Lemma fetch_length (p : Z) (q : string) (s : State) :
  length (controllers (fetchApartments p q s)) = S (length (controllers s)).
Proof.
  unfold fetchApartments; simpl. destruct (abortRef s); simpl;
    rewrite length_app, ?length_insert; simpl; lia.
Qed.

Lemma fetch_abortRef (p : Z) (q : string) (s : State) :
  abortRef (fetchApartments p q s) = Some (length (controllers s)).
Proof.
  unfold fetchApartments; simpl. destruct (abortRef s); simpl; [|done].
  by rewrite length_insert.
Qed.

Lemma fetch_suspended (p : Z) (q : string) (s : State) :
  suspended (fetchApartments p q s)
  = <[length (controllers s) := {| page := p; at_ := await_fetch |}]> (suspended s).
Proof.
  unfold fetchApartments; simpl. destruct (abortRef s); simpl; [|done].
  by rewrite length_insert.
Qed.

Lemma fetch_requests (p : Z) (q : string) (s : State) :
  requests (fetchApartments p q s)
  = requests s ++ [{| url := buildParams (limit s) p q;
                      signal := length (controllers s) |}].
Proof.
  unfold fetchApartments; simpl. destruct (abortRef s); simpl; [|done].
  by rewrite length_insert.
Qed.

Lemma fetch_location (p : Z) (q : string) (s : State) :
  location (fetchApartments p q s) = buildParams (limit s) p q.
Proof. unfold fetchApartments; simpl. by destruct (abortRef s). Qed.

Lemma fetch_view (p : Z) (q : string) (s : State) :
  apartments (fetchApartments p q s) = apartments s
  /\ pagination (fetchApartments p q s) = pagination s
  /\ currentPage (fetchApartments p q s) = currentPage s
  /\ search (fetchApartments p q s) = search s
  /\ limit (fetchApartments p q s) = limit s
  /\ isLoading (fetchApartments p q s) = true
  /\ error (fetchApartments p q s) = None.
Proof. unfold fetchApartments; simpl. by destruct (abortRef s). Qed.

Lemma fetch_new_controller (p : Z) (q : string) (s : State) :
  controllers (fetchApartments p q s) !! length (controllers s) = Some false.
Proof.
  unfold fetchApartments; simpl. destruct (abortRef s) as [c|]; simpl.
  - rewrite lookup_app_r; rewrite length_insert; [|lia]. by rewrite Nat.sub_diag.
  - rewrite lookup_app_r by lia. by rewrite Nat.sub_diag.
Qed.

Lemma fetch_aborts_previous (p : Z) (q : string) (s : State) (c : nat) :
  abortRef s = Some c -> (c < length (controllers s))%nat ->
  controllers (fetchApartments p q s) !! c = Some true.
Proof.
  intros Href Hc. unfold fetchApartments; simpl. rewrite Href. simpl.
  rewrite lookup_app_l by (by rewrite length_insert).
  by apply list_lookup_insert_eq.
Qed.

Lemma fetch_keeps_aborted (p : Z) (q : string) (s : State) (c : nat) :
  controllers s !! c = Some true ->
  controllers (fetchApartments p q s) !! c = Some true.
Proof.
  intros Hc. pose proof (lookup_lt_Some _ _ _ Hc) as Hlt.
  unfold fetchApartments; simpl. destruct (abortRef s) as [d|]; simpl.
  - rewrite lookup_app_l by (by rewrite length_insert).
    destruct (decide (d = c)) as [->|Hne].
    + by apply list_lookup_insert_eq.
    + by rewrite list_lookup_insert_ne.
  - by rewrite lookup_app_l.
Qed.

Lemma fetch_keeps_controller (p : Z) (q : string) (s : State) (c : nat) :
  controllers s !! c = Some false -> abortRef s <> Some c ->
  controllers (fetchApartments p q s) !! c = Some false.
Proof.
  intros Hc Href. pose proof (lookup_lt_Some _ _ _ Hc) as Hlt.
  unfold fetchApartments; simpl. destruct (abortRef s) as [d|]; simpl.
  - rewrite lookup_app_l by (by rewrite length_insert).
    rewrite list_lookup_insert_ne; [done | congruence].
  - by rewrite lookup_app_l.
Qed.

(** *** What a completion does *)

Lemma settle_browser (c : nat) (k : Completion) (s : State) :
  controllers (settle c k s) = controllers s
  /\ abortRef (settle c k s) = abortRef s
  /\ requests (settle c k s) = requests s
  /\ location (settle c k s) = location s
  /\ search (settle c k s) = search s
  /\ limit (settle c k s) = limit s.
Proof.
  unfold settle. destruct (suspended s !! c) as [a|]; [|done].
  destruct (at_ a), k as [r|r|r]; try done;
    unfold outcome; destruct (aborted c s); try done;
    destruct r as [v|[]]; try done; by destruct v.
Qed.

Lemma settle_other_activation (c d : nat) (k : Completion) (s : State) :
  c <> d -> suspended (settle c k s) !! d = suspended s !! d.
Proof.
  intros Hne. unfold settle. destruct (suspended s !! c) as [a|]; [|done].
  destruct (at_ a), k as [r|r|r]; try done;
    unfold outcome; destruct (aborted c s);
    try (destruct r as [v|[]]; try destruct v); simpl;
    rewrite ?lookup_insert_ne, ?lookup_delete_ne by done; done.
Qed.

(** The completion of an aborted request ends its activation in the
    [finally] block and nowhere else. *)
Lemma settle_aborted (c : nat) (k : Completion) (s : State) :
  aborted c s = true ->
  committed (settle c k s) = committed s.
Proof.
  intros Hc. unfold settle. destruct (suspended s !! c) as [a|]; [|done].
  destruct (at_ a), k as [r|r|r]; try done; unfold outcome; by rewrite Hc.
Qed.

(** *** Steps of the machine *)

(** An event leaves the controllers and [abortRef] alone, or it is a call of
    [fetchApartments] in a state with the same controllers and [abortRef]. *)
Lemma step_cases (s : State) (e : Event) :
  (controllers (step s e) = controllers s /\ abortRef (step s e) = abortRef s)
  \/ (exists p q s', step s e = fetchApartments p q s'
                     /\ controllers s' = controllers s /\ abortRef s' = abortRef s).
Proof.
  destruct e as [p q|p|q| |text|c k]; simpl.
  - right. by exists p, q, s.
  - unfold goToPage. destruct (p <? 1); [by left|].
    destruct (match pagination s with
              | Some pi => p >? PaginationInfo.totalPages pi
              | None => false
              end); [by left|].
    right. by exists p, (search (setCurrentPage p s)), (setCurrentPage p s).
  - right. by exists 1, q, (setSearch q s).
  - right. by exists 1, EmptyString, (setSearch EmptyString s).
  - by left.
  - left. by destruct (settle_browser c k s) as (? & ? & _).
Qed.

Lemma step_keeps_aborted (s : State) (e : Event) (c : nat) :
  controllers s !! c = Some true -> controllers (step s e) !! c = Some true.
Proof.
  intros Hc. destruct (step_cases s e) as [[-> _] | (p & q & s' & -> & Hcs & _)]; [done|].
  apply fetch_keeps_aborted. by rewrite Hcs.
Qed.

Lemma steps_keeps_aborted (es : list Event) (s : State) (c : nat) :
  controllers s !! c = Some true -> controllers (steps s es) !! c = Some true.
Proof.
  revert s. induction es as [|e es IH]; intros s Hc; [done|].
  apply IH. by apply step_keeps_aborted.
Qed.

Lemma fetch_supersedes (p : Z) (q : string) (s : State) (c : nat) :
  latest_or_aborted c s -> controllers (fetchApartments p q s) !! c = Some true.
Proof.
  intros [Hlt [Href|Hc]];
    [by apply fetch_aborts_previous | by apply fetch_keeps_aborted].
Qed.

Lemma step_latest_or_aborted (s : State) (e : Event) (c : nat) :
  latest_or_aborted c s -> latest_or_aborted c (step s e).
Proof.
  intros Hc. destruct (step_cases s e) as [[Hcs Href] | (p & q & s' & -> & Hcs & Href)].
  - unfold latest_or_aborted. by rewrite Hcs, Href.
  - assert (Hc' : latest_or_aborted c s')
      by (unfold latest_or_aborted; by rewrite Hcs, Href).
    split; [rewrite fetch_length; destruct Hc'; lia | right; by apply fetch_supersedes].
Qed.

Lemma steps_latest_or_aborted (es : list Event) (s : State) (c : nat) :
  latest_or_aborted c s -> latest_or_aborted c (steps s es).
Proof.
  revert s. induction es as [|e es IH]; intros s Hc; [done|].
  apply IH. by apply step_latest_or_aborted.
Qed.

Lemma fetch_is_latest (p : Z) (q : string) (s : State) :
  latest_or_aborted (length (controllers s)) (fetchApartments p q s).
Proof. split; [rewrite fetch_length; lia | left; apply fetch_abortRef]. Qed.

Lemma aborted_lookup (c : nat) (s : State) (b : bool) :
  controllers s !! c = Some b -> aborted c s = b.
Proof. unfold aborted. by intros ->. Qed.

Lemma completions_of_aborted (a b : nat) (act : Activation) (ks : list Completion) :
  a <> b -> forall s, pending a b act s ->
  pending a b act (steps s (map (settled a) ks))
  /\ committed (steps s (map (settled a) ks)) = committed s.
Proof.
  intros Hne. induction ks as [|k ks IH]; intros s Hs; [done|].
  destruct Hs as (Hact & Hb & Ha & Herr).
  pose proof (settle_aborted a k s (aborted_lookup _ _ _ Ha)) as Hsame.
  destruct (settle_browser a k s) as (Hcs & _).
  assert (Hs' : pending a b act (settle a k s)).
  { repeat split.
    - by rewrite settle_other_activation.
    - by rewrite Hcs.
    - by rewrite Hcs.
    - unfold committed in Hsame. congruence. }
  destruct (IH _ Hs') as [Hp Hc]. simpl. split; [done | congruence].
Qed.

(** *** The cancellation protocol *)

(** C1. Fetch A is issued in any state, any events follow, fetch B is
    issued, any events follow. From then on no completion that belongs to A
    changes [apartments], [pagination], [currentPage] or [error], whatever
    the network delivers for A and whenever; in particular the cancellation
    of A sets no error. And when B succeeds, with completions of A arriving
    before, between and after the two completions of B, the four fields
    hold the result of B and no error. *)
Theorem superseded_request_is_dropped
    (s0 : State) (pA : Z) (qA : string) (es1 : list Event)
    (pB : Z) (qB : string) (es2 : list Event) (k : Completion) :
  let A := length (controllers s0) in
  let s1 := steps (fetchApartments pA qA s0) es1 in
  let B := length (controllers s1) in
  let s2 := steps (fetchApartments pB qB s1) es2 in
  committed (settle A k s2) = committed s2
  /\ forall (ks1 ks2 ks3 : list Completion) (data : Data),
      let s3 := steps (fetchApartments pB qB s1) (map (settled A) ks1) in
      let s4 := steps (settle B (fetch_done (Fulfilled true)) s3) (map (settled A) ks2) in
      let s5 := steps (settle B (json_done (Fulfilled data)) s4) (map (settled A) ks3) in
      committed s5 =
        (default [] (data_apartments data),
         data_pagination data,
         match data_pagination data with
         | Some p => PaginationInfo.currentPage p
         | None => pB
         end,
         None).
Proof.
  intros A s1 B s2.
  assert (HA1 : latest_or_aborted A s1)
    by (apply steps_latest_or_aborted, fetch_is_latest).
  assert (HAB : controllers (fetchApartments pB qB s1) !! A = Some true)
    by (by apply fetch_supersedes).
  split.
  - apply settle_aborted, aborted_lookup. by apply steps_keeps_aborted.
  - intros ks1 ks2 ks3 data s3 s4 s5.
    assert (Hne : A <> B) by (destruct HA1; unfold B; lia).
    assert (H3 : pending A B {| page := pB; at_ := await_fetch |} (fetchApartments pB qB s1)).
    { split; [|split; [|split]];
        [| apply fetch_new_controller | done | apply fetch_view].
      rewrite fetch_suspended. by apply lookup_insert_eq. }
    apply (completions_of_aborted A B _ ks1 Hne) in H3 as [H3 _]. fold s3 in H3.
    assert (H4 : pending A B {| page := pB; at_ := await_json |}
                   (settle B (fetch_done (Fulfilled true)) s3)).
    { destruct H3 as (Hact & Hb & Ha & Herr). unfold settle, outcome.
      rewrite Hact, (aborted_lookup _ _ _ Hb). simpl.
      split; [by apply lookup_insert_eq | done]. }
    apply (completions_of_aborted A B _ ks2 Hne) in H4 as [H4 _]. fold s4 in H4.
    destruct H4 as (Hact & Hb & Ha & Herr).
    assert (H5 : committed (settle B (json_done (Fulfilled data)) s4) =
                 (default [] (data_apartments data), data_pagination data,
                  match data_pagination data with
                  | Some p => PaginationInfo.currentPage p
                  | None => pB
                  end, None)).
    { unfold settle, outcome. rewrite Hact, (aborted_lookup _ _ _ Hb). simpl.
      unfold committed. simpl. by rewrite Herr. }
    assert (Hafter : forall ks s, controllers s !! A = Some true ->
              committed (steps s (map (settled A) ks)) = committed s).
    { clear. induction ks as [|k ks IH]; intros s Ha; [done|]. simpl.
      rewrite IH.
      - by apply settle_aborted, aborted_lookup.
      - by destruct (settle_browser A k s) as (-> & _). }
    unfold s5. rewrite Hafter; [done|].
    by destruct (settle_browser B (json_done (Fulfilled data)) s4) as (-> & _).
Qed.

Lemma settle_aborted_fetch (c : nat) (s : State) (a : Activation) (r : Settled bool) :
  suspended s !! c = Some a -> at_ a = await_fetch -> controllers s !! c = Some true ->
  settle c (fetch_done r) s = finally (resume c s).
Proof.
  intros Hact Hat Hc. unfold settle, outcome.
  by rewrite Hact, Hat, (aborted_lookup _ _ _ Hc).
Qed.

Lemma loading_flag_after_abort
    (s0 sA sB s : State) (A B : nat) (pA : Z) (qA : string) (pB : Z) (qB : string)
    (delivered : Settled bool) :
  A = length (controllers s0) ->
  sA = fetchApartments pA qA s0 ->
  B = length (controllers sA) ->
  sB = fetchApartments pB qB sA ->
  s = settle A (fetch_done delivered) sB ->
  suspended sA !! A = Some {| page := pA; at_ := await_fetch |}
  /\ isLoading sB = true
  /\ aborted A sB = true
  /\ isLoading s = false
  /\ suspended s !! B = Some {| page := pB; at_ := await_fetch |}
  /\ aborted B s = false
  /\ abortRef s = Some B
  /\ suspended s !! A = None
  /\ committed s = committed sB.
Proof.
  intros HA HsA HB HsB Hs.
  assert (HactA0 : suspended sA !! A = Some {| page := pA; at_ := await_fetch |}).
  { rewrite HsA, fetch_suspended, <- HA. by apply lookup_insert_eq. }
  assert (Hlatest : latest_or_aborted A sA).
  { rewrite HA, HsA. apply fetch_is_latest. }
  assert (Hab : controllers sB !! A = Some true).
  { rewrite HsB. by apply fetch_supersedes. }
  assert (Hne : A <> B).
  { destruct Hlatest as [Hlt _]. rewrite HB. lia. }
  assert (HactA : suspended sB !! A = Some {| page := pA; at_ := await_fetch |}).
  { rewrite HsB, fetch_suspended, <- HB. by rewrite lookup_insert_ne. }
  assert (HactB : suspended sB !! B = Some {| page := pB; at_ := await_fetch |}).
  { rewrite HsB, fetch_suspended, <- HB. by apply lookup_insert_eq. }
  assert (HctlB : controllers sB !! B = Some false).
  { rewrite HsB, HB. apply fetch_new_controller. }
  assert (HrefB : abortRef sB = Some B).
  { rewrite HsB, HB. apply fetch_abortRef. }
  assert (Hload : isLoading sB = true).
  { rewrite HsB. apply fetch_view. }
  rewrite (settle_aborted_fetch A sB _ delivered HactA eq_refl Hab) in Hs.
  split; [exact HactA0|]. split; [exact Hload|].
  split; [by apply aborted_lookup|].
  rewrite Hs. cbn [finally resume setIsLoading isLoading suspended abortRef].
  split; [reflexivity|].
  split; [by rewrite lookup_delete_ne|].
  split; [by apply aborted_lookup|].
  split; [exact HrefB|].
  split; [by apply lookup_delete_eq | reflexivity].
Qed.

(** C10. Fetch A, then fetch B while A is in flight. B sets [isLoading];
    A, being aborted, then ends in its [finally] block: [isLoading] is
    false although B is still suspended at its [await], not aborted, and
    nothing of B has been committed. *)
Theorem aborted_fetch_clears_isLoading
    (s0 : State) (pA : Z) (qA : string) (pB : Z) (qB : string)
    (delivered : Settled bool) :
  let A := length (controllers s0) in
  let sA := fetchApartments pA qA s0 in
  let B := length (controllers sA) in
  let sB := fetchApartments pB qB sA in
  let s := settle A (fetch_done delivered) sB in
  suspended sA !! A = Some {| page := pA; at_ := await_fetch |}
  /\ isLoading sB = true
  /\ aborted A sB = true
  /\ isLoading s = false
  /\ suspended s !! B = Some {| page := pB; at_ := await_fetch |}
  /\ aborted B s = false
  /\ abortRef s = Some B
  /\ suspended s !! A = None
  /\ committed s = committed sB.
Proof.
  intros A sA B sB s.
  exact (loading_flag_after_abort s0 sA sB s A B pA qA pB qB delivered
           eq_refl eq_refl eq_refl eq_refl eq_refl).
Qed.

(** *** Failures *)

Lemma catch_error (message : string) (s : State) :
  error (catch (Error message) s) = Some message
  /\ isLoading (catch (Error message) s) = false
  /\ apartments (catch (Error message) s) = apartments s
  /\ pagination (catch (Error message) s) = pagination s
  /\ currentPage (catch (Error message) s) = currentPage s
  /\ suspended (catch (Error message) s) = suspended s.
Proof. done. Qed.

Lemma catch_other_value (s : State) :
  error (catch NotAnError s) = Some "Failed to fetch"
  /\ isLoading (catch NotAnError s) = false
  /\ apartments (catch NotAnError s) = apartments s
  /\ pagination (catch NotAnError s) = pagination s
  /\ currentPage (catch NotAnError s) = currentPage s
  /\ suspended (catch NotAnError s) = suspended s.
Proof. done. Qed.

(** Where a genuine failure leaves the activation: in the [catch] block,
    with an [Error] of that message or with a value that is not one. *)
Lemma genuine_failure_caught
    (s : State) (c : nat) (a : Activation) (k : Completion) (message : string) :
  suspended s !! c = Some a ->
  aborted c s = false ->
  genuine_failure (at_ a) k message ->
  settle c k s = catch (Error message) (resume c s)
  \/ (message = "Failed to fetch" /\ settle c k s = catch NotAnError (resume c s)).
Proof.
  intros Hact Hc Hfail. unfold settle, outcome. rewrite Hact, Hc.
  destruct a as [pg w]. cbn [at_ page] in *.
  inversion Hfail as [m | | text Htext | | m | m]; subst; cbn [or_else];
    rewrite ?Htext; auto.
Qed.

(** C6. A request that has not been aborted fails for good: the completion
    that brings the failure sets [error] to the message, clears
    [isLoading], ends the activation, and leaves [apartments], [pagination]
    and [currentPage] as they were. The message of a server failure is not
    empty. The response with a status that is not ok, which precedes the
    text of a server failure, changes none of the fields. *)
Theorem genuine_failure_keeps_the_data
    (s : State) (c : nat) (a : Activation) (k : Completion) (message : string) :
  suspended s !! c = Some a ->
  aborted c s = false ->
  genuine_failure (at_ a) k message ->
  (error (settle c k s) = Some message
   /\ isLoading (settle c k s) = false
   /\ apartments (settle c k s) = apartments s
   /\ pagination (settle c k s) = pagination s
   /\ currentPage (settle c k s) = currentPage s
   /\ suspended (settle c k s) !! c = None)
  /\ (forall text, k = text_done (Fulfilled text) -> message <> EmptyString)
  /\ (at_ a = await_fetch ->
      suspended (settle c (fetch_done (Fulfilled false)) s) !! c
        = Some {| page := page a; at_ := await_text |}
      /\ committed (settle c (fetch_done (Fulfilled false)) s) = committed s
      /\ isLoading (settle c (fetch_done (Fulfilled false)) s) = isLoading s).
Proof.
  intros Hact Hc Hfail. split; [|split].
  - destruct (genuine_failure_caught s c a k message Hact Hc Hfail)
      as [-> | [-> ->]].
    + destruct (catch_error message (resume c s)) as (-> & -> & -> & -> & -> & ->).
      cbn [resume apartments pagination currentPage suspended].
      by rewrite lookup_delete_eq.
    + destruct (catch_other_value (resume c s)) as (-> & -> & -> & -> & -> & ->).
      cbn [resume apartments pagination currentPage suspended].
      by rewrite lookup_delete_eq.
  - intros text ->. inversion Hfail as [ | | t Ht | | | ]; subst; [|discriminate].
    intros ->. discriminate.
  - intros Hat. unfold settle, outcome. rewrite Hact, Hat, Hc.
    cbn [suspend suspended committed apartments pagination currentPage error isLoading].
    split; [by apply lookup_insert_eq | done].
Qed.

Lemma genuine_failure_keeps_the_data_witness :
  let s := settle 0 (fetch_done (Fulfilled false)) Examples.mounted in
  let s' := settle 0 (text_done (Fulfilled "Failed to fetch Apartments")) s in
  error s' = Some "Failed to fetch Apartments"
  /\ isLoading s' = false
  /\ apartments s' = apartments s
  /\ pagination s' = pagination s
  /\ currentPage s' = currentPage s
  /\ suspended s' !! 0%nat = None.
Proof.
  intros s s'.
  refine (proj1 (genuine_failure_keeps_the_data s 0 {| page := 1; at_ := await_text |}
                   (text_done (Fulfilled "Failed to fetch Apartments"))
                   "Failed to fetch Apartments" _ _ _)).
  - vm_compute. reflexivity.
  - vm_compute. reflexivity.
  - apply server_failure. reflexivity.
Defined.

(** *** Page changes and searches *)

Lemma goToPage_fetches (page : Z) (s : State) :
  1 <= page ->
  (forall p, pagination s = Some p -> page <= PaginationInfo.totalPages p) ->
  goToPage page s = fetchApartments page (search s) (setCurrentPage page s).
Proof.
  intros H1 Hmax. unfold goToPage.
  replace (page <? 1) with false by (symmetry; apply Z.ltb_ge; lia).
  destruct (pagination s) as [p|] eqn:Hp; [|reflexivity].
  replace (page >? PaginationInfo.totalPages p) with false; [reflexivity|].
  symmetry. rewrite Z.gtb_ltb. apply Z.ltb_ge. by apply Hmax.
Qed.

(** C4. A page below 1, and a page above [totalPages] when the pagination
    is known, leave the whole state as it is: no request is sent, nothing is
    suspended, the address bar is not touched. Any other page becomes
    [currentPage], and one request is sent, for that page and the search
    text of the state, with [isLoading] set and the address replaced. The
    query of the request is [page], [limit] and, when the search text is
    not empty, [search] with that text; the listing endpoint reads the page
    back from it (a page below 2^53, which [String] writes in all its
    digits) and filters by that text. *)
Theorem goToPage_out_of_range_is_ignored (page : Z) (s : State) :
  (page < 1 \/ (exists p, pagination s = Some p /\ page > PaginationInfo.totalPages p) ->
   goToPage page s = s)
  /\ (1 <= page ->
      (forall p, pagination s = Some p -> page <= PaginationInfo.totalPages p) ->
      goToPage page s = fetchApartments page (search s) (setCurrentPage page s)
      /\ currentPage (goToPage page s) = page
      /\ requests (goToPage page s)
         = requests s ++ [{| url := buildParams (limit s) page (search s);
                             signal := length (controllers s) |}]
      /\ suspended (goToPage page s) !! length (controllers s)
         = Some {| page := page; at_ := await_fetch |}
      /\ location (goToPage page s) = buildParams (limit s) page (search s)
      /\ isLoading (goToPage page s) = true
      /\ search (goToPage page s) = search s
      /\ buildParams (limit s) page (search s)
         = [("page", String_ page); ("limit", String_ (limit s))]
           ++ (if truthy (search s) then [("search", search s)] else [])
      /\ (page < 2 ^ 53 ->
          Apartments.page_of (buildParams (limit s) page (search s)) = Int page)
      /\ Apartments.whereClause_of
           (Apartments.search_of (buildParams (limit s) page (search s)))
         = (if truthy (search s) then Some (search s) else None)).
Proof.
  split.
  - intros Hout. unfold goToPage. destruct Hout as [Hlow | (p & Hp & Hhigh)].
    + by replace (page <? 1) with true by (symmetry; apply Z.ltb_lt; lia).
    + destruct (page <? 1); [reflexivity|]. rewrite Hp.
      by replace (page >? PaginationInfo.totalPages p) with true
        by (symmetry; rewrite Z.gtb_ltb; apply Z.ltb_lt; lia).
  - intros H1 Hmax. rewrite (goToPage_fetches page s H1 Hmax).
    split; [reflexivity|].
    split; [apply (fetch_view page (search s) (setCurrentPage page s))|].
    split; [apply (fetch_requests page (search s) (setCurrentPage page s))|].
    split.
    { rewrite fetch_suspended. cbn [setCurrentPage controllers].
      by apply lookup_insert_eq. }
    split; [apply (fetch_location page (search s) (setCurrentPage page s))|].
    split; [apply (fetch_view page (search s) (setCurrentPage page s))|].
    split; [apply (fetch_view page (search s) (setCurrentPage page s))|].
    split; [apply buildParams_entries|].
    split; [intros Hmax21; apply buildParams_page_of; lia|].
    apply buildParams_where.
Qed.

Lemma goToPage_out_of_range_is_ignored_witness :
  goToPage 0 Examples.typed = Examples.typed
  /\ goToPage 5 Examples.typed = Examples.typed
  /\ currentPage (goToPage 3 Examples.typed) = 3
  /\ requests (goToPage 3 Examples.typed)
     = requests Examples.typed
       ++ [{| url := [("page", "3"); ("limit", "8"); ("search", "A7")];
              signal := 1 |}]
  /\ location (goToPage 3 Examples.typed)
     = [("page", "3"); ("limit", "8"); ("search", "A7")]
  /\ Apartments.page_of [("page", "3"); ("limit", "8"); ("search", "A7")] = Int 3
  /\ Apartments.whereClause_of
       (Apartments.search_of [("page", "3"); ("limit", "8"); ("search", "A7")])
     = Some "A7".
Proof.
  destruct (goToPage_out_of_range_is_ignored 0 Examples.typed) as [H0 _].
  destruct (goToPage_out_of_range_is_ignored 5 Examples.typed) as [H5 _].
  destruct (goToPage_out_of_range_is_ignored 3 Examples.typed) as [_ H3].
  split; [apply H0; left; lia|].
  split.
  { apply H5. right. exists Examples.four_pages. split; [reflexivity|].
    vm_compute. reflexivity. }
  assert (H1 : 1 <= 3) by lia.
  assert (Hmax : forall p, pagination Examples.typed = Some p ->
                   3 <= PaginationInfo.totalPages p).
  { intros p Hp.
    assert (Hfour : pagination Examples.typed = Some Examples.four_pages)
      by reflexivity.
    rewrite Hfour in Hp. injection Hp as <-. vm_compute. discriminate. }
  destruct (H3 H1 Hmax) as (_ & Hcur & Hreq & _ & Hloc & _ & _ & Hurl & Hpage & Hwhere).
  assert (Hentries : [("page", String_ 3); ("limit", String_ (limit Examples.typed))]
                     ++ (if truthy (search Examples.typed)
                         then [("search", search Examples.typed)] else [])
                     = [("page", "3"); ("limit", "8"); ("search", "A7")])
    by (vm_compute; reflexivity).
  rewrite Hurl, Hentries in Hreq, Hloc, Hpage, Hwhere.
  split; [exact Hcur|]. split; [exact Hreq|]. split; [exact Hloc|].
  split; [apply Hpage; vm_compute; reflexivity | exact Hwhere].
Defined.

(** A request that is not aborted and whose two promises are fulfilled ends
    in the three state updates. *)
Lemma settle_fulfilled (c : nat) (s : State) (pg : Z) (d : Data) :
  suspended s !! c = Some {| page := pg; at_ := await_fetch |} ->
  controllers s !! c = Some false ->
  settle c (json_done (Fulfilled d)) (settle c (fetch_done (Fulfilled true)) s)
  = commit pg d (resume c (suspend c {| page := pg; at_ := await_json |} s)).
Proof.
  intros Hact Hc.
  assert (H1 : settle c (fetch_done (Fulfilled true)) s
               = suspend c {| page := pg; at_ := await_json |} s).
  { unfold settle, outcome. by rewrite Hact, (aborted_lookup _ _ _ Hc). }
  rewrite H1. unfold settle, outcome.
  cbn [suspend suspended]. rewrite lookup_insert_eq.
  unfold aborted. cbn [suspend controllers at_ page]. by rewrite Hc.
Qed.

Lemma commit_view (pg : Z) (d : Data) (s : State) :
  apartments (commit pg d s) = default [] (data_apartments d)
  /\ pagination (commit pg d s) = data_pagination d
  /\ currentPage (commit pg d s)
     = match data_pagination d with
       | Some p => PaginationInfo.currentPage p
       | None => pg
       end
  /\ isLoading (commit pg d s) = false
  /\ error (commit pg d s) = error s
  /\ search (commit pg d s) = search s.
Proof. done. Qed.

(** The page in the answer of the listing endpoint is the page it read from
    the query string. *)
Lemma GET_currentPage (searchParams : URLSearchParams) (env : Apartments.Engine)
    (st : Apartments.Store) (rows : list Apartment) (p : Apartments.PaginationInfo) :
  result (run (Apartments.prisma env) (Apartments.GET searchParams) st)
    = Apartments.Listing rows p ->
  Apartments.currentPage p = Apartments.page_of searchParams.
Proof.
  unfold Apartments.GET, result. cbn [run Apartments.prisma].
  destruct (Apartments.up env) eqn:Hup; [|cbn; intros H; discriminate H].
  cbn [run Apartments.prisma]. rewrite Hup.
  destruct (Apartments.window _ st); [|cbn; intros H; discriminate H].
  cbn [run fst]. by intros [= _ <-].
Qed.

Lemma buildParams_page (l page : Z) (q : string) :
  get "page" (buildParams l page q) = Some (String_ page).
Proof. unfold buildParams. by destruct (truthy q). Qed.

Lemma submitSearch_eq (q : string) (s : State) :
  submitSearch q s = fetchApartments 1 q (setSearch q s).
Proof. reflexivity. Qed.

Lemma fulfilled_view (c : nat) (s : State) (pg : Z) (d : Data) :
  suspended s !! c = Some {| page := pg; at_ := await_fetch |} ->
  controllers s !! c = Some false ->
  let s' := settle c (json_done (Fulfilled d)) (settle c (fetch_done (Fulfilled true)) s) in
  apartments s' = default [] (data_apartments d)
  /\ pagination s' = data_pagination d
  /\ currentPage s'
     = match data_pagination d with
       | Some p => PaginationInfo.currentPage p
       | None => pg
       end
  /\ isLoading s' = false
  /\ error s' = error s
  /\ search s' = search s.
Proof.
  intros Hact Hc s'. unfold s'. rewrite (settle_fulfilled c s pg d Hact Hc).
  destruct (commit_view pg d (resume c (suspend c {| page := pg; at_ := await_json |} s)))
    as (-> & -> & -> & -> & -> & ->).
  done.
Qed.

(** The answer of the listing endpoint to a request for page 1, as the hook
    receives it, says page 1. *)
Lemma received_first_page (l : Z) (q : string) (env : Apartments.Engine)
    (st : Apartments.Store) (rows : list Apartment) (p : Apartments.PaginationInfo)
    (d : Data) :
  result (run (Apartments.prisma env) (Apartments.GET (buildParams l 1 q)) st)
    = Apartments.Listing rows p ->
  received (Apartments.Listing rows p) = Some (true, Some d) ->
  data_apartments d = Some rows
  /\ exists p', data_pagination d = Some p' /\ PaginationInfo.currentPage p' = 1.
Proof.
  intros Hget Hrecv.
  assert (Hone : Apartments.page_of (buildParams l 1 q) = Int 1).
  { unfold Apartments.page_of. rewrite buildParams_page. reflexivity. }
  apply GET_currentPage in Hget. rewrite Hone in Hget.
  unfold received in Hrecv.
  destruct (of_wire p) as [p'|] eqn:Hwire; [|discriminate].
  injection Hrecv as <-. split; [reflexivity|].
  exists p'. split; [reflexivity|].
  unfold of_wire in Hwire. rewrite Hget in Hwire. cbn [value] in Hwire.
  destruct (value (Apartments.totalPages p)); [|discriminate].
  destruct (value (Apartments.totalCount p)); [|discriminate].
  destruct (value (Apartments.limit p)); [|discriminate].
  by injection Hwire as <-.
Qed.

Lemma search_request_and_answer (q : string) (s s1 : State) (c : nat) :
  c = length (controllers s) ->
  s1 = fetchApartments 1 q (setSearch q s) ->
  search s1 = q
  /\ requests s1 = requests s ++ [{| url := buildParams (limit s) 1 q; signal := c |}]
  /\ get "page" (buildParams (limit s) 1 q) = Some "1"
  /\ buildParams (limit s) 1 q
     = [("page", "1"); ("limit", String_ (limit s))]
       ++ (if truthy q then [("search", q)] else [])
  /\ Apartments.whereClause_of (Apartments.search_of (buildParams (limit s) 1 q))
     = (if truthy q then Some q else None)
  /\ suspended s1 !! c = Some {| page := 1; at_ := await_fetch |}
  /\ (forall env st rows p d,
        result (run (Apartments.prisma env)
                  (Apartments.GET (buildParams (limit s) 1 q)) st)
          = Apartments.Listing rows p ->
        received (Apartments.Listing rows p) = Some (true, Some d) ->
        let s' := settle c (json_done (Fulfilled d))
                    (settle c (fetch_done (Fulfilled true)) s1) in
        currentPage s' = 1 /\ apartments s' = rows /\ search s' = q
        /\ isLoading s' = false /\ error s' = None)
  /\ (forall d,
        data_pagination d = None ->
        currentPage (settle c (json_done (Fulfilled d))
                       (settle c (fetch_done (Fulfilled true)) s1)) = 1).
Proof.
  intros Hc Hs1.
  destruct (fetch_view 1 q (setSearch q s)) as (_ & _ & _ & Hsearch & _ & _ & Herr).
  rewrite <- Hs1 in Hsearch, Herr. cbn [setSearch search] in Hsearch.
  assert (Hact : suspended s1 !! c = Some {| page := 1; at_ := await_fetch |}).
  { rewrite Hs1, fetch_suspended, Hc. by apply lookup_insert_eq. }
  assert (Hctl : controllers s1 !! c = Some false).
  { rewrite Hs1, Hc. apply (fetch_new_controller 1 q (setSearch q s)). }
  split; [exact Hsearch|].
  split; [rewrite Hs1, Hc; apply (fetch_requests 1 q (setSearch q s))|].
  split; [apply buildParams_page|].
  split; [apply (buildParams_entries (limit s) 1 q)|].
  split; [apply buildParams_where|].
  split; [exact Hact|].
  split.
  - intros env st rows p d Hget Hrecv s'.
    destruct (received_first_page _ _ _ _ _ _ _ Hget Hrecv) as (Hrows & p' & Hp' & Hpage).
    destruct (fulfilled_view c s1 1 d Hact Hctl) as (Ha & _ & Hcur & Hload & He & Hs).
    fold s' in Ha, Hcur, Hload, He, Hs.
    rewrite Hrows in Ha. rewrite Hp' in Hcur. simpl in Ha.
    repeat split; congruence.
  - intros d Hd.
    destruct (fulfilled_view c s1 1 d Hact Hctl) as (_ & _ & Hcur & _).
    by rewrite Hd in Hcur.
Qed.

(** C5. [submitSearch q] sets the search text to [q] and sends one request,
    for page 1 and [q]: its query is [page=1], [limit] and, when [q] is not
    empty, [search] with [q], which the listing endpoint takes as its
    filter. When that request succeeds with the answer of the listing
    endpoint, [currentPage] is 1 whatever it was, and the rows shown are
    those of the answer. [clearSearch] is [submitSearch] of the empty
    string. *)
Theorem submitSearch_resets_to_first_page (q : string) (s : State) :
  (search (submitSearch q s) = q
   /\ requests (submitSearch q s)
      = requests s ++ [{| url := buildParams (limit s) 1 q;
                          signal := length (controllers s) |}]
   /\ get "page" (buildParams (limit s) 1 q) = Some "1"
   /\ buildParams (limit s) 1 q
      = [("page", "1"); ("limit", String_ (limit s))]
        ++ (if truthy q then [("search", q)] else [])
   /\ Apartments.whereClause_of (Apartments.search_of (buildParams (limit s) 1 q))
      = (if truthy q then Some q else None)
   /\ suspended (submitSearch q s) !! length (controllers s)
      = Some {| page := 1; at_ := await_fetch |}
   /\ (forall env st rows p d,
         result (run (Apartments.prisma env)
                   (Apartments.GET (buildParams (limit s) 1 q)) st)
           = Apartments.Listing rows p ->
         received (Apartments.Listing rows p) = Some (true, Some d) ->
         let s' := settle (length (controllers s)) (json_done (Fulfilled d))
                     (settle (length (controllers s)) (fetch_done (Fulfilled true))
                        (submitSearch q s)) in
         currentPage s' = 1 /\ apartments s' = rows /\ search s' = q
         /\ isLoading s' = false /\ error s' = None)
   /\ (forall d,
         data_pagination d = None ->
         currentPage (settle (length (controllers s)) (json_done (Fulfilled d))
                        (settle (length (controllers s)) (fetch_done (Fulfilled true))
                           (submitSearch q s))) = 1))
  /\ clearSearch s = submitSearch EmptyString s.
Proof.
  split; [|reflexivity].
  exact (search_request_and_answer q s (submitSearch q s)
           (length (controllers s)) eq_refl eq_refl).
Qed.

Lemma submitSearch_resets_to_first_page_witness :
  let s1 := submitSearch "A7" Examples.third_page in
  let s' := settle 1 (json_done (Fulfilled Examples.a7_answer))
              (settle 1 (fetch_done (Fulfilled true)) s1) in
  currentPage Examples.third_page = 3
  /\ requests s1
     = requests Examples.third_page
       ++ [{| url := [("page", "1"); ("limit", "8"); ("search", "A7")];
              signal := 1 |}]
  /\ Apartments.whereClause_of
       (Apartments.search_of [("page", "1"); ("limit", "8"); ("search", "A7")])
     = Some "A7"
  /\ (currentPage s' = 1
      /\ apartments s' = map Examples.listing [7]
      /\ search s' = "A7" /\ isLoading s' = false /\ error s' = None).
Proof.
  intros s1 s'. split; [reflexivity|].
  destruct (submitSearch_resets_to_first_page "A7" Examples.third_page)
    as [(_ & Hreq & _ & Hurl & Hwhere & _ & H & _) _].
  assert (Hentries : [("page", "1"); ("limit", String_ (limit Examples.third_page))]
                     ++ (if truthy "A7" then [("search", "A7")] else [])
                     = [("page", "1"); ("limit", "8"); ("search", "A7")])
    by (vm_compute; reflexivity).
  rewrite Hurl, Hentries in Hreq, Hwhere.
  split; [exact Hreq|]. split; [exact Hwhere|].
  eapply (H Examples.engine Examples.seventeen (map Examples.listing [7])).
  - vm_compute. reflexivity.
  - vm_compute. reflexivity.
Defined.

(** *** The protocol on a run

    The hook mounts (request 0, page 1) and the user asks for page 2
    (request 1) before the first answer. The answer to request 0 arrives
    afterwards and is dropped; the answer to request 1 is committed. Without
    the second request, the same answer to request 0 is committed. *)
Example late_answer_is_dropped :
  let sB := goToPage 2 Examples.mounted in
  let late := settle 0 (json_done (Fulfilled Examples.first_answer))
                (settle 0 (fetch_done (Fulfilled true)) sB) in
  let done := settle 1 (json_done (Fulfilled Examples.second_answer))
                (settle 1 (fetch_done (Fulfilled true)) late) in
  suspended sB !! 0%nat = Some {| page := 1; at_ := await_fetch |}
  /\ committed late = committed sB
  /\ committed late = ([], None, 2, None)
  /\ committed done
     = (map Examples.listing (seqZ 9 8),
        data_pagination Examples.second_answer, 2, None)
  /\ committed Examples.browsing
     = (map Examples.listing (seqZ 1 8), Some Examples.four_pages, 1, None).
Proof. vm_compute. repeat split. Qed.

(** The same run, watching [isLoading]: it is false from the moment the
    aborted request 0 settles, while request 1 is still awaited. *)
Example loading_flag_on_the_run :
  let sB := goToPage 2 Examples.mounted in
  let late := settle 0 (fetch_done (Rejected AbortError)) sB in
  isLoading sB = true
  /\ isLoading late = false
  /\ suspended late !! 1%nat = Some {| page := 2; at_ := await_fetch |}
  /\ aborted 1 late = false.
Proof. vm_compute. repeat split. Qed.

End Coordinator.

(** * Further properties

    ** The listing endpoint: pages, flags and rows *)

Section ListingPages.
Import JS Apartments Answers.

(** The run of [GET] for a page and a limit of at least 1 on a store that
    answers. *)
Lemma GET_answers
    (searchParams : URLSearchParams) (env : Engine) (st : Store) (page limit : Z) :
  page_of searchParams = Int page ->
  limit_of searchParams = Int limit ->
  1 <= page -> 1 <= limit -> up env = true ->
  let w := whereClause_of (search_of searchParams) in
  let n := Z.of_nat (length (List.filter (selects w) st)) in
  let pages := - ((- n) / limit) in
  run (prisma env) (GET searchParams) st =
    (Listing (firstn (Z.to_nat limit) (skipn (Z.to_nat ((page - 1) * limit)) (ordered w st)))
       {| currentPage := Int page;
          totalPages := Int pages;
          totalCount := Int n;
          hasNextPage := page <? pages;
          hasPrevPage := 1 <? page;
          limit := Int limit |},
     st,
     [Called (count w);
      Called (findMany {| where_ := w; skip := Int ((page - 1) * limit);
                          take := Int limit |})]).
Proof.
  intros Hpage Hlimit Hp Hl Hup w n pages.
  unfold GET. fold w. rewrite Hpage, Hlimit.
  rewrite skip_of_page by lia. cbn [run prisma]. rewrite Hup.
  fold n. rewrite totalPages_of_count by lia. cbn [run prisma]. rewrite Hup.
  unfold window. cbn [value skip take where_].
  replace ((page - 1) * limit <? 0) with false by (symmetry; apply Z.ltb_ge; nia).
  replace (0 <=? limit) with true by (symmetry; apply Z.leb_le; lia).
  reflexivity.
Qed.

(** X1. A page after the last one is not an error: the answer is a listing
    with no rows, the true totals, and no next page. *)
Theorem page_after_the_last_is_empty
    (searchParams : URLSearchParams) (env : Engine) (st : Store) (page limit : Z) :
  page_of searchParams = Int page ->
  limit_of searchParams = Int limit ->
  1 <= page -> 1 <= limit -> up env = true ->
  let w := whereClause_of (search_of searchParams) in
  let n := Z.of_nat (length (List.filter (selects w) st)) in
  let r := result (run (prisma env) (GET searchParams) st) in
  - ((- n) / limit) < page ->
  status r = 200
  /\ rows_of r = []
  /\ exists p, info_of r = Some p
       /\ totalCount p = Int n /\ totalPages p = Int (- ((- n) / limit))
       /\ currentPage p = Int page /\ hasNextPage p = false.
Proof.
  intros Hpage Hlimit Hp Hl Hup w n r Hlast.
  unfold r. rewrite (GET_answers searchParams env st page limit) by done.
  fold w. fold n. unfold result. cbn [fst status rows_of info_of].
  split; [reflexivity|]. split.
  - pose proof (ceiling_bounds n limit Hl) as [_ Hn].
    rewrite skipn_all2; [by rewrite firstn_nil|].
    rewrite length_ordered. fold w. fold n in Hn |- *. unfold n in *. nia.
  - eexists. split; [reflexivity|]. cbn [totalCount totalPages currentPage hasNextPage].
    repeat split. apply Z.ltb_ge. lia.
Qed.

Lemma page_after_the_last_is_empty_witness :
  let r := result (run (prisma Examples.engine)
                     (GET [("page", "4"); ("limit", "8")]) Examples.seventeen) in
  status r = 200 /\ rows_of r = [].
Proof.
  intros r.
  destruct (page_after_the_last_is_empty [("page", "4"); ("limit", "8")]
              Examples.engine Examples.seventeen 4 8
              eq_refl eq_refl ltac:(lia) ltac:(lia) eq_refl ltac:(vm_compute; reflexivity))
    as (Hstatus & Hrows & _).
  exact (conj Hstatus Hrows).
Defined.

(** X2. The two flags say what they are read as: [hasNextPage] holds exactly
    when rows are left after this page, [hasPrevPage] exactly when this page
    does not start at the first row. *)
Theorem navigation_flags_are_exact
    (searchParams : URLSearchParams) (env : Engine) (st : Store) (page limit : Z) :
  page_of searchParams = Int page ->
  limit_of searchParams = Int limit ->
  1 <= page -> 1 <= limit -> up env = true ->
  let w := whereClause_of (search_of searchParams) in
  let n := Z.of_nat (length (List.filter (selects w) st)) in
  exists rows p,
    result (run (prisma env) (GET searchParams) st) = Listing rows p
    /\ (hasNextPage p = true <-> page * limit < n)
    /\ (hasPrevPage p = true <-> 0 < (page - 1) * limit)
    /\ (hasNextPage p = true -> Z.of_nat (length rows) = limit).
Proof.
  intros Hpage Hlimit Hp Hl Hup w n.
  rewrite (GET_answers searchParams env st page limit) by done.
  fold w. fold n. unfold result. cbn [fst].
  do 2 eexists. split; [reflexivity|]. cbn [hasNextPage hasPrevPage].
  pose proof (ceiling_bounds n limit Hl) as [Hlow Hhigh].
  rewrite !Z.ltb_lt. split; [|split].
  - split; intros H; nia.
  - split; intros H; nia.
  - intros H. rewrite length_firstn, length_skipn, length_ordered.
    fold w. unfold n in *. nia.
Qed.

Lemma navigation_flags_are_exact_witness :
  exists rows p,
    result (run (prisma Examples.engine)
              (GET [("page", "2"); ("limit", "8")]) Examples.seventeen)
      = Listing rows p
    /\ (hasNextPage p = true <-> 2 * 8 < 17)
    /\ (hasPrevPage p = true <-> 0 < (2 - 1) * 8)
    /\ (hasNextPage p = true -> Z.of_nat (length rows) = 8).
Proof.
  exact (navigation_flags_are_exact [("page", "2"); ("limit", "8")]
           Examples.engine Examples.seventeen 2 8
           eq_refl eq_refl ltac:(lia) ltac:(lia) eq_refl).
Defined.

End ListingPages.
(** ** The query string: what the hook writes, the endpoint reads *)

Section QueryString.
Import JS Answers.

(** X3. What the hook puts in the query string for a page, a limit and a
    search text is what the listing endpoint reads from it: the same page
    and the same limit, for integers below 2^53 in absolute value
    (negative ones and zero included), which [String] writes in all their
    digits, and the search text as the filter, or no filter when the text
    is empty. From 10^21 on [String] writes an exponent, and the endpoint
    reads 1. *)
Theorem query_string_round_trip (limit page : Z) (q : string) :
  (Z.abs page < 2 ^ 53 ->
   Apartments.page_of (Hook.buildParams limit page q) = Int page)
  /\ (Z.abs limit < 2 ^ 53 ->
      Apartments.limit_of (Hook.buildParams limit page q) = Int limit)
  /\ Apartments.whereClause_of (Apartments.search_of (Hook.buildParams limit page q))
     = (if truthy q then Some q else None)
  /\ Hook.buildParams limit page q
     = [("page", String_ page); ("limit", String_ limit)]
       ++ (if truthy q then [("search", q)] else [])
  /\ Apartments.page_of (Hook.buildParams limit (10 ^ 21) q) = Int 1.
Proof.
  split; [|split; [|split; [|split]]].
  - apply buildParams_page_of.
  - apply buildParams_limit_of.
  - apply buildParams_where.
  - apply buildParams_entries.
  - unfold Apartments.page_of.
    replace (get "page" (Hook.buildParams limit (10 ^ 21) q)) with (Some "1e+21")
      by (unfold Hook.buildParams; by destruct (truthy q)).
    reflexivity.
Qed.

End QueryString.

Lemma query_string_round_trip_witness :
  Apartments.page_of (Hook.buildParams 8 3 "A7") = JS.Int 3
  /\ Apartments.limit_of (Hook.buildParams 8 3 "A7") = JS.Int 8.
Proof.
  destruct (query_string_round_trip 8 3 "A7") as (Hp & Hl & _).
  split; [apply Hp | apply Hl]; vm_compute; reflexivity.
Defined.


(** ** The listing endpoint: which rows, in which order *)

Section ListingRows.
Import JS Apartments Answers.

Lemma ordered_sorted (w : WhereInput) (st : Store) :
  StronglySorted newest_first (ordered w st).
Proof.
  unfold ordered. apply StronglySorted_merge_sort.
  - intros a b c. unfold newest_first. lia.
  - intros a b. unfold newest_first. lia.
Qed.

Lemma ordered_elem (w : WhereInput) (st : Store) (a : Apartment) :
  a ∈ ordered w st <-> a ∈ st /\ selects w a = true.
Proof.
  unfold ordered. rewrite merge_sort_Permutation.
  rewrite list_elem_of_In, filter_In, <- list_elem_of_In. done.
Qed.

Lemma window_sorted (xs : list Apartment) (i n : nat) :
  StronglySorted newest_first xs ->
  StronglySorted newest_first (firstn n (skipn i xs)).
Proof.
  intros Hxs. rewrite <- (take_drop i xs) in Hxs.
  apply StronglySorted_app_1_r in Hxs.
  rewrite <- (take_drop n (drop i xs)) in Hxs.
  by apply StronglySorted_app_1_l in Hxs.
Qed.

Lemma window_elem (xs : list Apartment) (i n : nat) (a : Apartment) :
  a ∈ firstn n (skipn i xs) -> a ∈ xs.
Proof.
  intros Ha. eapply elem_of_sublist; [exact Ha|].
  etrans; [apply sublist_take | apply sublist_drop].
Qed.

(** *** The filter

    A pattern of plain characters matches itself and nothing else, so for
    a search text without [%], [_] and backslash the filter is: the text
    occurs in the field, letter case aside. *)
Lemma toLowerCase_append (a b : string) :
  toLowerCase (a +:+ b) = toLowerCase a +:+ toLowerCase b.
Proof.
  induction a as [|c a IH]; unfold_append; [reflexivity|].
  cbn [toLowerCase]. unfold_append. by rewrite IH.
Qed.

Lemma plain_facts (c : ascii) :
  plain c = true ->
  Ascii.eqb c "%" = false /\ Ascii.eqb c "_" = false
  /\ Ascii.eqb c backslash = false /\ plain (lower c) = true.
Proof.
  destruct c as [[] [] [] [] [] [] [] []]; vm_compute; intros H;
    first [discriminate H | done].
Qed.

Lemma every_plain_lower (s : string) :
  Validation.every plain s = true -> Validation.every plain (toLowerCase s) = true.
Proof.
  induction s as [|c s IH]; [done|]. cbn [Validation.every toLowerCase].
  intros H. apply andb_true_iff in H as [Hc Hs].
  destruct (plain_facts c Hc) as (_ & _ & _ & Hl). by rewrite Hl, IH.
Qed.

Lemma matches_chr (c : ascii) (r : Validation.regex) (w : string) :
  Validation.matches (Validation.Seq (Validation.chr c) r) w <->
  exists w', w = String c w' /\ Validation.matches r w'.
Proof.
  split.
  - intros H. inversion H as [ | | r1 r2 s1 s2 H1 H2 | | | | ]; subst.
    apply matches_class_inv in H1 as (d & -> & Hd).
    apply Ascii.eqb_eq in Hd. subst d. unfold_append. eauto.
  - intros (w' & -> & Hw).
    change (String c w') with (String c EmptyString +:+ w').
    constructor; [|done]. constructor. apply Ascii.eqb_refl.
Qed.

Lemma like_plain (a b : string) :
  Validation.every plain a = true ->
  forall w, Validation.matches (like (a +:+ b)) w <->
            exists w', w = a +:+ w' /\ Validation.matches (like b) w'.
Proof.
  induction a as [|c a IH]; intros Ha w; unfold_append.
  - split; [eauto | by intros (w' & -> & H)].
  - cbn [Validation.every] in Ha. apply andb_true_iff in Ha as [Hc Ha].
    destruct (plain_facts c Hc) as (H1 & H2 & H3 & _).
    cbn [like]. rewrite H1, H2, H3, matches_chr. split.
    + intros (w1 & -> & Hw1). apply (IH Ha) in Hw1 as (w' & -> & Hw').
      exists w'. by unfold_append.
    + intros (w' & -> & Hw'). unfold_append. exists (a +:+ w').
      split; [done|]. apply (IH Ha). eauto.
Qed.

Lemma contains_insensitive_spec (field s : string) :
  Validation.every plain s = true ->
  contains_insensitive field s = true <->
  exists pre post, toLowerCase field = pre +:+ toLowerCase s +:+ post.
Proof.
  intros Hs. apply every_plain_lower in Hs.
  unfold contains_insensitive, ilike. rewrite accepts_matches.
  rewrite toLowerCase_append, toLowerCase_append.
  change (toLowerCase "%") with "%". unfold_append. cbn [like].
  change (Ascii.eqb "%" "%") with true. cbv iota. split.
  - intros H. inversion H as [ | | r1 r2 pre rest Hpre Hrest | | | | ]; subst.
    apply (like_plain _ "%" Hs) in Hrest as (post & -> & _). eauto.
  - intros (pre & post & ->). constructor; [apply matches_star_any|].
    apply (like_plain _ "%" Hs). exists post. split; [done|].
    cbn [like]. change (Ascii.eqb "%" "%") with true. cbv iota.
    rewrite <- (append_empty_r post). constructor; [apply matches_star_any | constructor].
Qed.

(** X4. The rows of an answer are rows of the store and come newest first.
    When there is a search text without [%], [_] and backslash, each row
    has that text in its name, its unit number or its project, letter case
    aside. The three characters are wildcards of the store's pattern
    matching: the search text [%] selects every row. *)
Theorem listing_rows_are_selected_and_ordered
    (searchParams : URLSearchParams) (env : Engine) (st : Store) (page limit : Z) :
  page_of searchParams = Int page ->
  limit_of searchParams = Int limit ->
  1 <= page -> 1 <= limit -> up env = true ->
  let rows := rows_of (result (run (prisma env) (GET searchParams) st)) in
  (forall a, a ∈ rows ->
     a ∈ st
     /\ forall s, search_of searchParams = Some s -> s <> EmptyString ->
          Validation.every plain s = true ->
          exists field pre post,
            (field = name a \/ field = unitNumber a \/ field = project a)
            /\ toLowerCase field = pre +:+ toLowerCase s +:+ post)
  /\ StronglySorted (fun a b => createdAt b <= createdAt a) rows
  /\ (search_of searchParams = Some "%" ->
      rows = firstn (Z.to_nat limit)
               (skipn (Z.to_nat ((page - 1) * limit)) (ordered None st))).
Proof.
  intros Hpage Hlimit Hp Hl Hup rows. unfold rows.
  rewrite (GET_answers searchParams env st page limit) by done.
  unfold result. cbn [fst rows_of]. split; [|split].
  - intros a Ha. apply window_elem, ordered_elem in Ha as [Hst Hsel].
    split; [done|]. intros s Hs Hne Hplain. rewrite Hs in Hsel.
    unfold whereClause_of in Hsel.
    destruct s as [|c s]; [done|]. cbn [truthy selects] in Hsel.
    apply orb_true_iff in Hsel as [Hsel | Hsel];
      [apply orb_true_iff in Hsel as [Hsel | Hsel]|];
      apply (contains_insensitive_spec _ _ Hplain) in Hsel as (pre & post & Heq).
    + exists (name a), pre, post. auto.
    + exists (unitNumber a), pre, post. auto.
    + exists (project a), pre, post. auto.
  - apply window_sorted, ordered_sorted.
  - intros Hs. rewrite Hs. cbn [whereClause_of truthy]. unfold ordered.
    do 3 f_equal. apply filter_ext. intros a. cbn [selects].
    assert (Hall : forall f, contains_insensitive f "%" = true).
    { intros f. unfold contains_insensitive, ilike. rewrite accepts_matches.
      change (like (toLowerCase ("%" +:+ "%" +:+ "%")))
        with (Validation.Seq (Validation.Star Validation.any)
                (Validation.Seq (Validation.Star Validation.any)
                   (Validation.Seq (Validation.Star Validation.any)
                      Validation.Epsilon))).
      rewrite <- (append_empty_l (toLowerCase f)).
      constructor; [constructor|].
      rewrite <- (append_empty_l (toLowerCase f)).
      constructor; [constructor|].
      rewrite <- (append_empty_r (toLowerCase f)).
      constructor; [apply matches_star_any | constructor]. }
    by rewrite !Hall.
Qed.

Lemma listing_rows_are_selected_and_ordered_witness :
  let rows := rows_of (result (run (prisma Examples.engine)
                (GET [("page", "1"); ("limit", "8"); ("search", "A7")])
                Examples.seventeen)) in
  Examples.listing 7 ∈ rows
  /\ (exists field pre post,
        (field = "Downtown Apartment" \/ field = "A7" \/ field = "Skyline Towers")
        /\ toLowerCase field = pre +:+ "a7" +:+ post)
  /\ StronglySorted (fun a b => createdAt b <= createdAt a) rows.
Proof.
  intros rows.
  destruct (listing_rows_are_selected_and_ordered
              [("page", "1"); ("limit", "8"); ("search", "A7")]
              Examples.engine Examples.seventeen 1 8
              eq_refl eq_refl ltac:(lia) ltac:(lia) eq_refl)
    as (Hrows & Hsorted & _).
  assert (Hin : Examples.listing 7 ∈ rows) by (vm_compute; left).
  split; [exact Hin|]. split; [|exact Hsorted].
  destruct (Hrows _ Hin) as [_ Hfield].
  apply (Hfield "A7"); [reflexivity | discriminate | reflexivity].
Defined.

(** Cutting a list into consecutive windows of [l] elements loses and
    repeats nothing. *)
Lemma windows_cover {A : Type} (l : nat) (m : nat) :
  forall (xs : list A) (i : nat),
  (0 < l)%nat -> (length xs <= i * l + m * l)%nat ->
  concat (map (fun k => firstn l (skipn (k * l) xs)) (seq i m)) = skipn (i * l) xs.
Proof.
  induction m as [|m IH]; intros xs i Hl Hlen; cbn [seq map concat].
  - rewrite skipn_all2 by lia. done.
  - rewrite (IH xs (S i)) by lia.
    replace (S i * l)%nat with (i * l + l)%nat by lia.
    rewrite <- drop_drop. apply take_drop.
Qed.

(** X5. Walking through the pages with the requests the hook sends, from page 1
    to the last page, gives every selected row exactly once, in order, for
    an integer limit from 1 to below 2^53 and fewer than 2^53 selected
    rows (the numbers that [String] writes in all their digits). *)
Theorem pages_cover_the_selection
    (env : Engine) (st : Store) (limit : Z) (q : string) :
  1 <= limit < 2 ^ 53 -> up env = true ->
  let w := if truthy q then Some q else None in
  let n := Z.of_nat (length (List.filter (selects w) st)) in
  let pages := Z.to_nat (- ((- n) / limit)) in
  n < 2 ^ 53 ->
  concat (map (fun k =>
                 rows_of (result (run (prisma env)
                            (GET (Hook.buildParams limit (Z.of_nat k) q)) st)))
            (seq 1 pages))
  = ordered w st.
Proof.
  intros [Hl Hlmax] Hup w n pages Hnmax.
  pose proof (ceiling_bounds n limit Hl) as [Hlow Hn].
  assert (Hpage : forall k, In k (seq 1 pages) ->
            rows_of (result (run (prisma env)
                       (GET (Hook.buildParams limit (Z.of_nat k) q)) st))
            = firstn (Z.to_nat limit)
                (skipn ((k - 1) * Z.to_nat limit) (ordered w st))).
  { intros k Hk. apply in_seq in Hk.
    assert (Hk21 : Z.abs (Z.of_nat k) < 2 ^ 53) by (unfold pages in Hk; nia).
    assert (Hl21 : Z.abs limit < 2 ^ 53) by lia.
    pose proof (buildParams_page_of limit (Z.of_nat k) q Hk21) as Hp.
    pose proof (buildParams_limit_of limit (Z.of_nat k) q Hl21) as Hlim.
    pose proof (buildParams_where limit (Z.of_nat k) q) as Hw.
    rewrite (GET_answers _ env st (Z.of_nat k) limit) by (done || lia).
    rewrite Hw. unfold result. cbn [fst rows_of]. fold w.
    do 2 f_equal. nia. }
  rewrite (map_ext_in _ _ _ Hpage).
  transitivity (skipn (0 * Z.to_nat limit) (ordered w st)); [|reflexivity].
  rewrite <- (windows_cover (Z.to_nat limit) pages (ordered w st) 0).
  - rewrite <- (seq_shift pages 0), map_map. f_equal.
    apply map_ext. intros k. do 2 f_equal. lia.
  - lia.
  - rewrite length_ordered. fold w. unfold pages, n in *. nia.
Qed.

Lemma pages_cover_the_selection_witness :
  concat (map (fun k =>
                 rows_of (result (run (prisma Examples.engine)
                            (GET (Hook.buildParams 8 (Z.of_nat k) "sky"))
                            Examples.seventeen)))
            (seq 1 3))
  = ordered (Some "sky") Examples.seventeen.
Proof.
  apply (pages_cover_the_selection Examples.engine Examples.seventeen 8 "sky").
  - split; [lia | reflexivity].
  - reflexivity.
  - vm_compute. reflexivity.
Defined.

End ListingRows.

(** ** The creation schema: what is accepted, what is reported *)

Section SchemaMeaning.
Import JS Validation Requirements.
Variable Number : string -> float.

Lemma string_min1_text (v : option json) (s : string) :
  string_min1 v = Some s <-> text v s.
Proof.
  unfold text, string_min1. split.
  - destruct v as [[| | |t| |]|]; try discriminate.
    destruct t; simpl; [discriminate|]. intros [= <-]. done.
  - intros [-> Hs]. destruct s; [done | reflexivity].
Qed.

Lemma positive_Fin (q : Q) : positive (Fin q) = true <-> (0 < q)%Q.
Proof.
  unfold positive. destruct (Qlt_le_dec 0 q) as [H|H]; [done|].
  split; [discriminate|]. intros H'. by apply Qle_not_lt in H.
Qed.

Lemma price_schema_amount (v : option json) (x : float) :
  price_schema Number v = Some x <-> amount Number v x.
Proof.
  unfold amount, price_schema, number_positive, numeric_string. split.
  - destruct v as [[| |q|t| |]|]; try discriminate.
    + destruct (positive (Fin q)) eqn:Hq; [|discriminate].
      intros [= <-]. left. exists q. by rewrite <- positive_Fin.
    + destruct (isNaN (Number t)) eqn:Hn; [discriminate|].
      destruct (positive (Number t)) eqn:Hp; [|discriminate].
      intros [= <-]. right. by exists t.
  - intros [(q & -> & Hq & ->) | (s & -> & Hn & Hp & ->)].
    + apply positive_Fin in Hq. by rewrite Hq.
    + by rewrite Hn, Hp.
Qed.

Lemma contactNumber_phone (v : option json) (s : string) :
  string_regex (test_whole contactNumber_re) v = Some s <-> phone v s.
Proof.
  unfold phone, string_regex, test_whole. split.
  - destruct v as [[| | |t| |]|]; try discriminate.
    destruct (accepts contactNumber_re t) eqn:Ht; [|discriminate].
    intros [= <-]. split; [done|].
    by apply contactNumber_shape, accepts_matches.
  - intros [-> Hshape]. apply contactNumber_shape, accepts_matches in Hshape.
    by rewrite Hshape.
Qed.

(** The pattern for an image URL only asks for the prefix. *)
Lemma imageUrl_prefix (u : string) :
  test_start imageUrl_re u = true <-> exists rest, u = "/api/files/" +:+ rest.
Proof.
  rewrite test_start_spec. unfold imageUrl_re. split.
  - intros (pre & post & -> & H).
    inversion H as [ | | r1 r2 s1 s2 H1 H2 | | | | ]; subst.
    apply (matches_lit_inv "/api/files/") in H1 as ->.
    exists (s2 +:+ post). by rewrite append_assoc.
  - intros [rest ->]. exists "/api/files/", rest. split; [done|].
    rewrite <- (append_empty_r "/api/files/") at 2.
    constructor; [apply matches_lit | constructor].
Qed.

Lemma items_strings (l : list json) (ss : list string) :
  items l = Some ss <->
  l = map JString ss /\ forall u, u ∈ ss -> exists rest, u = "/api/files/" +:+ rest.
Proof.
  revert ss. induction l as [|x l IH]; intros ss; cbn [items].
  - split.
    + intros [= <-]. split; [done|]. intros u Hu. by apply elem_of_nil in Hu.
    + intros [Hl _]. by destruct ss.
  - unfold string_regex at 1. split.
    + destruct x as [| | |t| |]; try discriminate.
      destruct (test_start imageUrl_re t) eqn:Ht; [|discriminate].
      destruct (items l) as [ss'|] eqn:Hitems; [|discriminate].
      intros [= <-]. destruct (proj1 (IH ss') eq_refl) as [-> Hall].
      split; [done|]. intros u Hu. apply elem_of_cons in Hu as [-> | Hu]; [|auto].
      by apply imageUrl_prefix.
    + intros [Hl Hall]. destruct ss as [|s ss]; [discriminate|].
      injection Hl as -> ->.
      assert (Hs : test_start imageUrl_re s = true)
        by (apply imageUrl_prefix, Hall; by left).
      rewrite Hs.
      assert (Hitems : items (map JString ss) = Some ss).
      { apply IH. split; [done|]. intros u Hu. apply Hall. by right. }
      by rewrite Hitems.
Qed.

Lemma imageUrls_schema_images (v : option json) (l : list string) :
  imageUrls_schema v = Some l <-> images v l.
Proof.
  unfold images, imageUrls_schema. split.
  - destruct v as [[| | | |js|]|]; try discriminate.
    destruct (items js) as [ss|] eqn:Hitems; [|discriminate].
    destruct ((1 <=? length ss)%nat && (length ss <=? 8)%nat) eqn:Hlen; [|discriminate].
    intros [= <-]. apply items_strings in Hitems as [-> Hall].
    apply andb_true_iff in Hlen as [H1 H8]. apply Nat.leb_le in H1, H8.
    split; [done|]. split; [lia | done].
  - intros (-> & Hlen & Hall).
    assert (Hitems : items (map JString l) = Some l) by (by apply items_strings).
    rewrite Hitems.
    replace ((1 <=? length l)%nat && (length l <=? 8)%nat) with true; [done|].
    symmetry. apply andb_true_iff. split; apply Nat.leb_le; lia.
Qed.

(** X6. A body is accepted exactly when it is an object whose seven properties
    meet what the schema asks, and the parsed data are those values. *)
Theorem schema_accepts_exactly (body : json) (d : ApartmentInput) :
  safeParse Number body = Success d <->
  exists m, body = JObject m
    /\ text (m !! "name") (name d)
    /\ text (m !! "unitNumber") (unitNumber d)
    /\ text (m !! "project") (project d)
    /\ text (m !! "description") (description d)
    /\ amount Number (m !! "price") (price d)
    /\ phone (m !! "contactNumber") (contactNumber d)
    /\ images (m !! "imageUrls") (imageUrls d).
Proof.
  split.
  - destruct body as [| | | | |m]; try discriminate. unfold safeParse.
    destruct (string_min1 (m !! "name")) as [n|] eqn:Hn;
    destruct (string_min1 (m !! "unitNumber")) as [u|] eqn:Hu;
    destruct (string_min1 (m !! "project")) as [p|] eqn:Hp;
    destruct (string_min1 (m !! "description")) as [ds|] eqn:Hd;
    destruct (price_schema Number (m !! "price")) as [pr|] eqn:Hpr;
    destruct (string_regex (test_whole contactNumber_re) (m !! "contactNumber"))
      as [c|] eqn:Hc;
    destruct (imageUrls_schema (m !! "imageUrls")) as [i|] eqn:Hi;
    try discriminate.
    intros [= <-]. exists m. cbn [name unitNumber project description price
                                 contactNumber imageUrls].
    rewrite <- !string_min1_text, <- price_schema_amount,
      <- contactNumber_phone, <- imageUrls_schema_images. done.
  - intros (m & -> & Hn & Hu & Hp & Hd & Hpr & Hc & Hi).
    apply string_min1_text in Hn, Hu, Hp, Hd.
    apply price_schema_amount in Hpr. apply contactNumber_phone in Hc.
    apply imageUrls_schema_images in Hi.
    unfold safeParse. rewrite Hn, Hu, Hp, Hd, Hpr, Hc, Hi. by destruct d.
Qed.

Lemma elem_of_failed {A : Type} (f g : field) (r : option A) :
  f ∈ failed g r <-> f = g /\ r = None.
Proof.
  destruct r; cbn [failed].
  - split; [intros H; by apply elem_of_nil in H | intros [_ H]; discriminate H].
  - rewrite list_elem_of_singleton. tauto.
Qed.

Lemma failed_sublist {A : Type} (f : field) (r : option A) :
  failed f r `sublist_of` [f].
Proof. destruct r; cbn [failed]; [apply sublist_nil_l | done]. Qed.

Lemma properties_of_report (m : gmap string json) (tree : ErrorTree) :
  safeParse Number (JObject m) = Error tree ->
  errors tree = false
  /\ properties tree =
       failed f_name (string_min1 (m !! "name"))
       ++ failed f_unitNumber (string_min1 (m !! "unitNumber"))
       ++ failed f_project (string_min1 (m !! "project"))
       ++ failed f_description (string_min1 (m !! "description"))
       ++ failed f_price (price_schema Number (m !! "price"))
       ++ failed f_contactNumber
            (string_regex (test_whole contactNumber_re) (m !! "contactNumber"))
       ++ failed f_imageUrls (imageUrls_schema (m !! "imageUrls")).
Proof.
  unfold safeParse.
  destruct (string_min1 (m !! "name"));
  destruct (string_min1 (m !! "unitNumber"));
  destruct (string_min1 (m !! "project"));
  destruct (string_min1 (m !! "description"));
  destruct (price_schema Number (m !! "price"));
  destruct (string_regex (test_whole contactNumber_re) (m !! "contactNumber"));
  destruct (imageUrls_schema (m !! "imageUrls"));
  try discriminate; intros [= <-]; split; reflexivity.
Qed.

Lemma not_some_none {A : Type} (P : A -> Prop) (r : option A) :
  (forall x, r = Some x <-> P x) -> r = None <-> ~ exists x, P x.
Proof.
  intros H. split.
  - intros -> [x Hx]. by apply H in Hx.
  - intros Hno. destruct r as [x|]; [|done]. destruct Hno. exists x. by apply H.
Qed.

(** X7. The report of a rejected body names exactly the properties that do not
    meet what the schema asks, each once, and at least one; a body that is
    not an object is reported as a whole, with no property. *)
Theorem report_names_the_unmet_properties (body : json) (tree : ErrorTree) :
  safeParse Number body = Error tree ->
  match body with
  | JObject m =>
      errors tree = false
      /\ properties tree <> []
      /\ NoDup (properties tree)
      /\ forall f, f ∈ properties tree <-> ~ met Number m f
  | _ => errors tree = true /\ properties tree = []
  end.
Proof.
  intros Hparse.
  destruct body as [| | | | |m]; try (injection Hparse as <-; by split).
  pose proof (properties_of_report m tree Hparse) as [Herr Hprops].
  split; [done|]. split; [|split].
  - intros Hnil. revert Hparse. unfold safeParse. rewrite Hprops in Hnil.
    destruct (string_min1 (m !! "name")); [|discriminate Hnil].
    destruct (string_min1 (m !! "unitNumber")); [|discriminate Hnil].
    destruct (string_min1 (m !! "project")); [|discriminate Hnil].
    destruct (string_min1 (m !! "description")); [|discriminate Hnil].
    destruct (price_schema Number (m !! "price")); [|discriminate Hnil].
    destruct (string_regex (test_whole contactNumber_re) (m !! "contactNumber"));
      [|discriminate Hnil].
    destruct (imageUrls_schema (m !! "imageUrls")); [|discriminate Hnil].
    discriminate.
  - rewrite Hprops.
    assert (Hall : NoDup ([f_name] ++ [f_unitNumber] ++ [f_project]
                            ++ [f_description] ++ [f_price]
                            ++ [f_contactNumber] ++ [f_imageUrls])).
    { apply (bool_decide_unpack _). vm_compute. exact I. }
    eapply sublist_NoDup; [exact Hall|].
    repeat (apply sublist_app; [apply failed_sublist|]). apply failed_sublist.
  - intros f. rewrite Hprops, !elem_of_app, !elem_of_failed.
    rewrite (not_some_none _ _ (string_min1_text (m !! "name"))).
    rewrite (not_some_none _ _ (string_min1_text (m !! "unitNumber"))).
    rewrite (not_some_none _ _ (string_min1_text (m !! "project"))).
    rewrite (not_some_none _ _ (string_min1_text (m !! "description"))).
    rewrite (not_some_none _ _ (price_schema_amount (m !! "price"))).
    rewrite (not_some_none _ _ (contactNumber_phone (m !! "contactNumber"))).
    rewrite (not_some_none _ _ (imageUrls_schema_images (m !! "imageUrls"))).
    destruct f; cbn [met key]; split.
    all: try (intros [[Hf H] | [[Hf H] | [[Hf H] | [[Hf H] | [[Hf H] | [[Hf H] | [Hf H]]]]]]];
              try discriminate Hf; exact H).
    all: intros H; auto 10.
Qed.

(** X8. Properties that the schema does not name are dropped: a body with one
    more key is parsed as the body without it. *)
Theorem unknown_keys_are_ignored (m : gmap string json) (k : string) (v : json) :
  k ∉ ["name"; "unitNumber"; "project"; "description"; "price";
        "contactNumber"; "imageUrls"] ->
  safeParse Number (JObject (<[k := v]> m)) = safeParse Number (JObject m).
Proof.
  intros Hk. unfold safeParse.
  rewrite !lookup_insert_ne; [done|..].
  all: intros ->; apply Hk; repeat (first [by left | right]).
Qed.

End SchemaMeaning.

Lemma report_names_the_unmet_properties_witness :
  let tree := {| Validation.errors := false;
                 Validation.properties := [Validation.f_price] |} in
  Validation.errors tree = false
  /\ Validation.properties tree <> []
  /\ NoDup (Validation.properties tree)
  /\ forall f, f ∈ Validation.properties tree <->
       ~ Requirements.met (fun _ => JS.FNaN)
           (list_to_map
              [("name", Validation.JString "Downtown Apartment");
               ("unitNumber", Validation.JString "A203");
               ("project", Validation.JString "Skyline Towers");
               ("price", Validation.JNumber (-5));
               ("description", Validation.JString "Spacious apartment with a view.");
               ("contactNumber", Validation.JString "+201101029668");
               ("imageUrls", Validation.JArray [Validation.JString "/api/files/image1.jpg"])])
           f.
Proof.
  exact (report_names_the_unmet_properties (fun _ => JS.FNaN)
           Examples.negative_price _ eq_refl).
Defined.

Lemma unknown_keys_are_ignored_witness :
  Validation.safeParse (fun _ => JS.FNaN)
    (Validation.JObject (<["id" := Validation.JString "chosen"]> ∅))
  = Validation.safeParse (fun _ => JS.FNaN) (Validation.JObject ∅).
Proof.
  apply (unknown_keys_are_ignored (fun _ => JS.FNaN) ∅ "id" (Validation.JString "chosen")).
  vm_compute. intros H.
  repeat (apply elem_of_cons in H as [H|H]; [discriminate H|]).
  by apply elem_of_nil in H.
Defined.

(** ** The detail endpoint, and a created record seen through the others *)

Section DetailRoute.
Import JS Apartments.

Lemma find_id_spec (i : string) (st : Store) :
  match List.find (fun a => String.eqb (id a) i) st with
  | Some a => a ∈ st /\ id a = i
  | None => forall a, a ∈ st -> id a <> i
  end.
Proof.
  induction st as [|b st IH]; cbn [List.find].
  - intros a Ha. by apply elem_of_nil in Ha.
  - destruct (String.eqb (id b) i) eqn:Hb.
    + apply String.eqb_eq in Hb. split; [by left | done].
    + apply String.eqb_neq in Hb.
      destruct (List.find (fun a => String.eqb (id a) i) st) as [a|].
      * destruct IH as [Ha Hi]. split; [by right | done].
      * intros a Ha. apply elem_of_cons in Ha as [-> | Ha]; [done | by apply IH].
Qed.

(** X9. The detail handler makes one call and leaves the store as it was. Its
    answer is 500 exactly when the store does not answer, 404 exactly when
    it answers and no row has the identifier, and otherwise the 200 of a
    row of the store that has the identifier asked for. *)
Theorem detail_answers_by_identifier (env : Engine) (i : string) (st : Store) :
  let r := run (Detail.prisma env) (Detail.GET i) st in
  calls r = [Called (Detail.findUnique i)]
  /\ final r = st
  /\ (Detail.status (result r) = 500 <-> up env = false)
  /\ (Detail.status (result r) = 404 <->
      up env = true /\ forall a, a ∈ st -> id a <> i)
  /\ (forall a, result r = Detail.Found a -> a ∈ st /\ id a = i).
Proof.
  intros r. subst r. unfold Detail.GET. cbn [run Detail.prisma].
  pose proof (find_id_spec i st) as Hfind.
  destruct (up env); [|by repeat split; try done; intros H; try discriminate H;
                         destruct H as [H _]; discriminate H].
  destruct (List.find (fun a => String.eqb (id a) i) st) as [a|].
  - destruct Hfind as [Ha Hi]. unfold result, final, calls.
    cbn [fst snd Detail.status]. repeat split; try done.
    + intros [_ Hno]. by destruct (Hno a Ha).
    + by injection H as <-.
    + by injection H as <-.
  - unfold result, final, calls. cbn [fst snd Detail.status].
    repeat split; try done.
Qed.

Variable Number : string -> float.

Lemma POST_created (env : Engine) (body : option Validation.json) (st : Store)
    (a : Apartment) :
  result (run (prisma env) (POST Number body) st) = Created a ->
  up env = true
  /\ final (run (prisma env) (POST Number body) st) = st ++ [a]
  /\ id a = uuid env /\ createdAt a = now env
  /\ exists d, a = stored env d.
Proof.
  destruct body as [b|]; [|discriminate]. unfold POST.
  destruct (Validation.safeParse Number b) as [d|tree]; [|discriminate].
  cbn [run prisma]. destruct (up env); [|discriminate].
  unfold result, final. cbn [fst snd]. intros [= <-]. repeat split. by exists d.
Qed.

Lemma find_app_fresh (i : string) (st : Store) (a : Apartment) :
  List.find (fun b => String.eqb (id b) i) (st ++ [a]) =
  match List.find (fun b => String.eqb (id b) i) st with
  | Some b => Some b
  | None => if String.eqb (id a) i then Some a else None
  end.
Proof.
  induction st as [|b st IH]; cbn [List.find app]; [done|].
  by destruct (String.eqb (id b) i).
Qed.

(** X10. A record that the creation endpoint has answered with is found by the
    detail endpoint under the identifier of the answer, as long as the
    store gave it an identifier that no row had; the answers for the other
    identifiers are what they were. The identifier and the creation time
    are the store's, whatever the body says. *)
Theorem created_record_is_found_by_its_identifier
    (env env' : Engine) (body : option Validation.json) (st : Store) (a : Apartment) :
  result (run (prisma env) (POST Number body) st) = Created a ->
  (forall b, b ∈ st -> id b <> uuid env) ->
  up env' = true ->
  let st' := final (run (prisma env) (POST Number body) st) in
  id a = uuid env /\ createdAt a = now env
  /\ result (run (Detail.prisma env') (Detail.GET (id a)) st') = Detail.Found a
  /\ forall i, i <> id a ->
       result (run (Detail.prisma env') (Detail.GET i) st')
       = result (run (Detail.prisma env') (Detail.GET i) st).
Proof.
  intros Hcreated Hfresh Hup st'.
  destruct (POST_created env body st a Hcreated) as (_ & Hfinal & Hid & Hat & _).
  subst st'. rewrite Hfinal. split; [done|]. split; [done|].
  unfold Detail.GET. cbn [run Detail.prisma]. rewrite Hup. split.
  - rewrite find_app_fresh. pose proof (find_id_spec (id a) st) as Hfind.
    destruct (List.find (fun b => String.eqb (id b) (id a)) st) as [b|].
    + destruct Hfind as [Hb Hi]. destruct (Hfresh b Hb). congruence.
    + by rewrite String.eqb_refl.
  - intros i Hi. rewrite find_app_fresh.
    destruct (List.find (fun b => String.eqb (id b) i) st) as [b|]; [done|].
    destruct (String.eqb (id a) i) eqn:Heq; [|done].
    apply String.eqb_eq in Heq. congruence.
Qed.

Lemma ordered_head (st : Store) (a : Apartment) :
  (forall b, b ∈ st -> createdAt b < createdAt a) ->
  exists rest, ordered None (st ++ [a]) = a :: rest.
Proof.
  intros Hnew.
  pose proof (ordered_sorted None (st ++ [a])) as Hsorted.
  assert (Helem : forall b, b ∈ ordered None (st ++ [a]) <-> b ∈ st ++ [a]).
  { intros b. rewrite ordered_elem. cbn [selects]. tauto. }
  destruct (ordered None (st ++ [a])) as [|h rest] eqn:Hord.
  - assert (Ha : a ∈ @nil Apartment) by (apply Helem, elem_of_app; right; by left).
    by apply elem_of_nil in Ha.
  - exists rest. f_equal.
    assert (Hh : h ∈ st ++ [a]) by (apply Helem; by left).
    apply elem_of_app in Hh as [Hh | Hh].
    + exfalso. apply Hnew in Hh.
      assert (Ha : a ∈ h :: rest) by (apply Helem, elem_of_app; right; by left).
      apply elem_of_cons in Ha as [-> | Ha]; [lia|].
      apply StronglySorted_inv in Hsorted as [_ Hall].
      rewrite Forall_forall in Hall. apply Hall in Ha. unfold newest_first in Ha. lia.
    + by apply list_elem_of_singleton in Hh.
Qed.

(** X11. A record created at a time after every stored one is the first row of
    the first page of the listing without a search, for every limit of at
    least 1, and the total count is one more than before. *)
Theorem created_record_heads_the_listing
    (env env' : Engine) (body : option Validation.json) (st : Store) (a : Apartment)
    (searchParams : URLSearchParams) (limit : Z) :
  result (run (prisma env) (POST Number body) st) = Created a ->
  (forall b, b ∈ st -> createdAt b < now env) ->
  page_of searchParams = Int 1 ->
  limit_of searchParams = Int limit ->
  search_of searchParams = None ->
  1 <= limit -> up env' = true ->
  let st' := final (run (prisma env) (POST Number body) st) in
  let r := result (run (prisma env') (GET searchParams) st') in
  head (Answers.rows_of r) = Some a
  /\ exists p, Answers.info_of r = Some p
       /\ totalCount p = Int (Z.of_nat (length st) + 1).
Proof.
  intros Hcreated Hnew Hpage Hlimit Hsearch Hl Hup st' r.
  destruct (POST_created env body st a Hcreated) as (_ & Hfinal & _ & Hat & _).
  subst r st'. rewrite Hfinal.
  rewrite (GET_answers searchParams env' (st ++ [a]) 1 limit) by (done || lia).
  rewrite Hsearch. cbn [whereClause_of].
  unfold result. cbn [fst Answers.rows_of Answers.info_of]. split.
  - destruct (ordered_head st a) as [rest Hord].
    { intros b Hb. rewrite Hat. by apply Hnew. }
    rewrite Hord. replace (Z.to_nat ((1 - 1) * limit)) with 0%nat by lia.
    cbn [skipn]. destruct (Z.to_nat limit) eqn:Hn; [lia | reflexivity].
  - eexists. split; [reflexivity|]. cbn [totalCount]. f_equal.
    assert (Hall : List.filter (selects None) (st ++ [a]) = st ++ [a]).
    { apply forallb_filter_id. by apply forallb_forall. }
    rewrite Hall, length_app. cbn [length]. lia.
Qed.

End DetailRoute.

Lemma detail_answers_by_identifier_witness :
  Examples.listing 3 ∈ Examples.seventeen
  /\ Apartments.id (Examples.listing 3) = "3".
Proof.
  destruct (detail_answers_by_identifier Examples.engine "3" Examples.seventeen)
    as (_ & _ & _ & _ & H).
  apply (H (Examples.listing 3)). vm_compute. reflexivity.
Defined.

Lemma created_record_is_found_by_its_identifier_witness :
  let st' := final (run (Apartments.prisma Examples.engine)
                      (Apartments.POST (fun _ => JS.FNaN) (Some Examples.documented_body))
                      Examples.seventeen) in
  result (run (Detail.prisma Examples.engine)
            (Detail.GET "c2a1f6c1-d5e8-4f7c-b0a9-e9a8d8c3b4a5") st')
  = Detail.Found (Apartments.stored Examples.engine
      {| Validation.name := "Downtown Apartment";
         Validation.unitNumber := "A203";
         Validation.project := "Skyline Towers";
         Validation.description := "Spacious apartment with a view.";
         Validation.price := JS.Fin 250000;
         Validation.contactNumber := "+201101029668";
         Validation.imageUrls := ["/api/files/image1.jpg"] |}).
Proof.
  intros st'.
  refine (proj1 (proj2 (proj2 (created_record_is_found_by_its_identifier
            (fun _ => JS.FNaN) Examples.engine Examples.engine
            (Some Examples.documented_body) Examples.seventeen _
            eq_refl _ eq_refl)))).
  intros b Hb. apply list_elem_of_fmap in Hb as (n & -> & Hn).
  apply elem_of_seqZ in Hn.
  assert (Hcases : n = 1 \/ n = 2 \/ n = 3 \/ n = 4 \/ n = 5 \/ n = 6 \/ n = 7
                   \/ n = 8 \/ n = 9 \/ n = 10 \/ n = 11 \/ n = 12 \/ n = 13
                   \/ n = 14 \/ n = 15 \/ n = 16 \/ n = 17) by lia.
  repeat (destruct Hcases as [-> | Hcases]; [vm_compute; discriminate|]).
  subst n. vm_compute. discriminate.
Defined.

Lemma created_record_heads_the_listing_witness :
  let st' := final (run (Apartments.prisma Examples.engine)
                      (Apartments.POST (fun _ => JS.FNaN) (Some Examples.documented_body))
                      Examples.seventeen) in
  head (Answers.rows_of (result (run (Apartments.prisma Examples.engine)
                                   (Apartments.GET [("page", "1"); ("limit", "8")]) st')))
  = Some (Apartments.stored Examples.engine
      {| Validation.name := "Downtown Apartment";
         Validation.unitNumber := "A203";
         Validation.project := "Skyline Towers";
         Validation.description := "Spacious apartment with a view.";
         Validation.price := JS.Fin 250000;
         Validation.contactNumber := "+201101029668";
         Validation.imageUrls := ["/api/files/image1.jpg"] |}).
Proof.
  intros st'.
  refine (proj1 (created_record_heads_the_listing
            (fun _ => JS.FNaN) Examples.engine Examples.engine
            (Some Examples.documented_body) Examples.seventeen _
            [("page", "1"); ("limit", "8")] 8
            eq_refl _ eq_refl eq_refl eq_refl _ eq_refl)).
  - intros b Hb. apply list_elem_of_fmap in Hb as (n & -> & Hn).
    apply elem_of_seqZ in Hn. cbn [Apartments.createdAt Examples.listing Apartments.now
                                    Examples.engine]. lia.
  - lia.
Defined.

(** ** Paths under the upload directory *)

Section PathFacts.
Import JS Files Paths.

Lemma segments_not_nil (s : string) : segments s <> [].
Proof.
  induction s as [|c s IH]; cbn [segments]; [done|].
  destruct (Ascii.eqb c slash); [done|]. by destruct (segments s).
Qed.

Lemma segments_no_slash (s : string) : no_slash s = true -> segments s = [s].
Proof.
  unfold no_slash. induction s as [|c s IH]; cbn [segments Validation.every]; [done|].
  intros H. apply andb_true_iff in H as [Hc Hs].
  destruct (Ascii.eqb c slash); [discriminate|]. by rewrite IH.
Qed.

Lemma segments_all_no_slash (s : string) : Forall (fun x => no_slash x = true) (segments s).
Proof.
  induction s as [|c s IH]; cbn [segments]; [by repeat constructor|].
  destruct (Ascii.eqb c slash) eqn:Hc; [by constructor|].
  destruct (segments s) as [|h t]; [by repeat constructor; cbn; rewrite Hc|].
  apply Forall_cons in IH as [Hh Ht]. constructor; [|done].
  unfold no_slash in *. cbn [Validation.every]. by rewrite Hc, Hh.
Qed.

Lemma segments_app (s t : string) :
  segments (s +:+ "/" +:+ t) = segments s ++ segments t.
Proof.
  induction s as [|c s IH]; unfold_append; [reflexivity|].
  cbn [segments]. rewrite IH. destruct (Ascii.eqb c slash); [reflexivity|].
  pose proof (segments_not_nil s). by destruct (segments s).
Qed.

Lemma join_with_cons (x y : string) (l : list string) :
  join_with "/" (x :: y :: l) = x +:+ "/" +:+ join_with "/" (y :: l).
Proof. reflexivity. Qed.

Lemma segments_join (l : list string) :
  Forall (fun x => no_slash x = true) l -> l <> [] ->
  segments (join_with "/" l) = l.
Proof.
  induction l as [|x [|y l] IH]; intros Hl Hne; [done|..].
  - apply Forall_cons in Hl as [Hx _]. by apply segments_no_slash.
  - rewrite join_with_cons, segments_app. apply Forall_cons in Hl as [Hx Hl].
    rewrite (segments_no_slash x Hx), IH; done.
Qed.

Lemma join_with_snoc (l : list string) (f : string) :
  l <> [] -> join_with "/" (l ++ [f]) = join_with "/" l +:+ "/" +:+ f.
Proof.
  induction l as [|x [|y l] IH]; intros Hne; [done|reflexivity|].
  change ((x :: y :: l) ++ [f]) with (x :: (y :: l) ++ [f]).
  change ((y :: l) ++ [f]) with (y :: l ++ [f]) at 1.
  rewrite join_with_cons.
  change (y :: l ++ [f]) with ((y :: l) ++ [f]). rewrite IH by done.
  rewrite join_with_cons. by rewrite !append_assoc.
Qed.

Lemma keep_component (b : bool) (kept : list string) (seg : string) :
  component seg -> keep b kept seg = seg :: kept.
Proof.
  intros (_ & H1 & H2 & H3). unfold keep.
  apply String.eqb_neq in H1, H2, H3. by rewrite H1, H2, H3.
Qed.

Lemma fold_keep_components (b : bool) (l kept : list string) :
  Forall component l -> fold_left (keep b) l kept = rev l ++ kept.
Proof.
  revert kept. induction l as [|x l IH]; intros kept Hl; [reflexivity|].
  apply Forall_cons in Hl as [Hx Hl]. cbn [fold_left rev].
  rewrite keep_component by done. rewrite IH by done. by rewrite <- app_assoc.
Qed.

Lemma keep_stays_inside (kept : list string) (seg : string) :
  Forall component kept -> no_slash seg = true ->
  Forall component (keep false kept seg).
Proof.
  intros Hkept Hseg. unfold keep.
  destruct (String.eqb seg EmptyString) eqn:H1; [done|].
  destruct (String.eqb seg ".") eqn:H2; [done|]. cbn [orb].
  destruct (String.eqb seg "..") eqn:H3.
  - destruct kept as [|last before]; [done|].
    apply Forall_cons in Hkept as [(_ & _ & _ & Hlast) Hbefore].
    apply String.eqb_neq in Hlast. by rewrite Hlast.
  - apply String.eqb_neq in H1, H2, H3. by constructor.
Qed.

Lemma fold_keep_stays_inside (l kept : list string) :
  Forall component kept -> Forall (fun x => no_slash x = true) l ->
  Forall component (fold_left (keep false) l kept).
Proof.
  revert kept. induction l as [|x l IH]; intros kept Hkept Hl; [done|].
  apply Forall_cons in Hl as [Hx Hl]. cbn [fold_left].
  apply IH; [by apply keep_stays_inside | done].
Qed.

(** The upload directory of an absolute working directory: normalised
    components, the last two being [files] and [uploads]. *)
Lemma UPLOAD_DIR_shape (cwd : string) :
  isAbsolute cwd = true ->
  exists l, Forall component l
    /\ UPLOAD_DIR cwd = "/" +:+ join_with "/" (l ++ ["files"; "uploads"]).
Proof.
  intros Habs. destruct cwd as [|c cwd]; [discriminate|].
  unfold UPLOAD_DIR, resolve. cbn [rev app resolve_prefix truthy negb].
  change (isAbsolute "uploads") with false. change (isAbsolute "files") with false.
  cbv iota. unfold normalizeString.
  change ("files" +:+ "/" +:+ "uploads" +:+ "/" +:+ EmptyString)
    with ("files/uploads/").
  rewrite Habs. cbv iota. cbn [negb].
  rewrite segments_app, fold_left_app.
  set (kept := fold_left (keep false) (segments (String c cwd)) []).
  assert (Hkept : Forall component kept).
  { apply fold_keep_stays_inside; [done | apply segments_all_no_slash]. }
  exists (rev kept). split; [by apply Forall_rev|].
  f_equal. f_equal. cbn. by rewrite <- app_assoc.
Qed.

Lemma truthy_append (a b : string) : truthy b = true -> truthy (a +:+ b) = true.
Proof. destruct a; unfold_append; [done | reflexivity]. Qed.

Lemma ends_with_slash_append (a b : string) :
  b <> EmptyString -> ends_with_slash (a +:+ b) = ends_with_slash b.
Proof.
  intros Hb. induction a as [|c a IH]; unfold_append; [reflexivity|].
  cbn [ends_with_slash]. rewrite IH.
  destruct (a +:+ b) eqn:Hab; [|reflexivity].
  apply append_is_empty in Hab as [_ Hab]. done.
Qed.

Lemma no_slash_ends (f : string) : no_slash f = true -> ends_with_slash f = false.
Proof.
  unfold no_slash. induction f as [|c f IH]; [reflexivity|].
  cbn [Validation.every ends_with_slash]. intros H.
  apply andb_true_iff in H as [Hc Hf]. rewrite IH by done.
  destruct f; [|reflexivity]. by destruct (Ascii.eqb c slash).
Qed.

Lemma normalize_equation (s p : string) :
  truthy s = true -> isAbsolute s = true -> ends_with_slash s = false ->
  normalizeString s false = p -> truthy p = true ->
  normalize s = "/" +:+ p.
Proof.
  intros H1 H2 H3 H4 H5. unfold normalize. rewrite H1, H2, H3. cbn [negb].
  by rewrite H4, H5.
Qed.

Lemma join_with_ends (l : list string) :
  Forall component l -> l <> [] ->
  join_with "/" l <> EmptyString /\ ends_with_slash (join_with "/" l) = false.
Proof.
  induction l as [|x [|y l] IH]; intros Hl Hne; [done|..].
  - apply Forall_cons in Hl as [(Hx & Hx' & _) _]. cbn [join_with].
    split; [done | by apply no_slash_ends].
  - apply Forall_cons in Hl as [_ Hl]. destruct (IH Hl) as [IH1 IH2]; [done|].
    rewrite join_with_cons. split.
    + intros H. apply append_is_empty in H as [_ H].
      apply append_is_empty in H as [H _]. discriminate H.
    + rewrite ends_with_slash_append.
      * rewrite ends_with_slash_append by done. exact IH2.
      * intros H. by apply append_is_empty in H as [H _].
Qed.

(** A normalised absolute path is a fixed point of [normalize]. *)
Lemma normalize_components (l : list string) :
  Forall component l -> l <> [] ->
  normalize ("/" +:+ join_with "/" l) = "/" +:+ join_with "/" l.
Proof.
  intros Hl Hne. destruct (join_with_ends l Hl Hne) as [Hj He].
  assert (Hs : Forall (fun x => no_slash x = true) l)
    by (eapply Forall_impl; [exact Hl|]; by intros x [Hx _]).
  unfold_append. apply normalize_equation.
  - reflexivity.
  - unfold isAbsolute. cbn. by destruct (join_with "/" l).
  - cbn [ends_with_slash]. by destruct (join_with "/" l).
  - unfold normalizeString. cbn [segments].
    change (Ascii.eqb "/" slash) with true. cbv iota.
    rewrite segments_join by done. cbn [fold_left].
    change (keep false [] EmptyString) with (@nil string).
    rewrite fold_keep_components by done.
    by rewrite app_nil_r, rev_involutive.
  - by destruct (join_with "/" l).
Qed.

(** Joining a component to a normalised absolute path appends it. *)
Lemma join_component (l : list string) (f : string) :
  Forall component l -> l <> [] -> component f ->
  join ["/" +:+ join_with "/" l; f] = ("/" +:+ join_with "/" l) +:+ "/" +:+ f.
Proof.
  intros Hl Hne Hf. pose proof Hf as (Hslash & Hempty & _).
  assert (Htruthy : truthy f = true) by (by destruct f).
  unfold join. cbn [List.filter]. rewrite Htruthy.
  change (truthy ("/" +:+ join_with "/" l)) with true. cbv iota.
  change (join_with "/" ["/" +:+ join_with "/" l; f])
    with (("/" +:+ join_with "/" l) +:+ "/" +:+ f).
  rewrite append_assoc, <- join_with_snoc by done.
  apply normalize_components; [|by destruct l].
  apply Forall_app. split; [done | by constructor].
Qed.

(** A clean filename is read directly under the upload directory, and that
    directory is the directory of its path. *)
Lemma join_UPLOAD_DIR (cwd f : string) :
  isAbsolute cwd = true -> component f ->
  join [UPLOAD_DIR cwd; f] = UPLOAD_DIR cwd +:+ "/" +:+ f.
Proof.
  intros Habs Hf. destruct (UPLOAD_DIR_shape cwd Habs) as (l & Hl & ->).
  apply join_component; [|by destruct l|done].
  apply Forall_app. split; [done|].
  repeat constructor; try done.
Qed.

Lemma parent_UPLOAD_DIR (cwd f : string) :
  isAbsolute cwd = true -> component f ->
  Upload.parent (UPLOAD_DIR cwd +:+ "/" +:+ f) = UPLOAD_DIR cwd.
Proof.
  intros Habs (Hslash & _). destruct (UPLOAD_DIR_shape cwd Habs) as (l & Hl & ->).
  assert (Hne : l ++ ["files"; "uploads"] <> []) by (by destruct l).
  set (dir := l ++ ["files"; "uploads"]) in *.
  assert (Hdir : Forall (fun x => no_slash x = true) (dir ++ [f])).
  { apply Forall_app. split; [|by repeat constructor]. apply Forall_app.
    split; [|by repeat constructor].
    eapply Forall_impl; [exact Hl|]. by intros x [Hx _]. }
  unfold Upload.parent. rewrite append_assoc, <- join_with_snoc by done.
  unfold_append. cbn [segments]. change (Ascii.eqb "/" slash) with true. cbv iota.
  rewrite segments_join by (done || by destruct dir).
  change (EmptyString :: dir ++ [f]) with ((EmptyString :: dir) ++ [f]).
  rewrite removelast_last. destruct dir; [done|].
  rewrite join_with_cons. by unfold_append.
Qed.

End PathFacts.

(** ** The file route on clean filenames, and the upload endpoint *)

Section StoredFiles.
Import JS Paths.

Lemma every_append (p : ascii -> bool) (a b : string) :
  Validation.every p (a +:+ b) = Validation.every p a && Validation.every p b.
Proof.
  induction a as [|c a IH]; unfold_append; [reflexivity|].
  cbn [Validation.every]. by rewrite IH, andb_assoc.
Qed.

Lemma every_impl (p q : ascii -> bool) (s : string) :
  (forall c, p c = true -> q c = true) ->
  Validation.every p s = true -> Validation.every q s = true.
Proof.
  intros Hpq. induction s as [|c s IH]; [done|]. cbn [Validation.every].
  intros H. apply andb_true_iff in H as [Hc Hs]. by rewrite (Hpq c Hc), IH.
Qed.

Lemma prefix_empty (s : string) : String.prefix EmptyString s = true.
Proof. by destruct s. Qed.

(** A string has one character as a substring when one of its characters
    is that one. *)
Lemma includes_char (a : ascii) (s : string) :
  includes (String a EmptyString) s = false <->
  Validation.every (fun c => negb (Ascii.eqb c a)) s = true.
Proof.
  induction s as [|c s IH]; [done|].
  change (includes (String a EmptyString) (String c s))
    with (String.prefix (String a EmptyString) (String c s)
          || includes (String a EmptyString) s).
  cbn [String.prefix Validation.every]. rewrite prefix_empty.
  destruct (ascii_dec a c) as [->|Hne].
  - rewrite Ascii.eqb_refl. done.
  - assert (Hc : Ascii.eqb c a = false) by (apply Ascii.eqb_neq; congruence).
    rewrite Hc. cbn [orb negb andb]. exact IH.
Qed.


(** A filename that passes the check of [GET] is a path component, the
    empty name and [.] apart. *)
Lemma checked_filename (f : string) :
  includes ".." f = false -> includes "/" f = false ->
  f <> EmptyString -> f <> "." -> component f.
Proof.
  intros Hdots Hslash Hne Hdot. split; [by apply includes_char|].
  split; [done|]. split; [done|]. by intros ->.
Qed.

Lemma normalize_dot (l : list string) :
  Forall component l -> l <> [] ->
  Files.normalize (("/" +:+ Files.join_with "/" l) +:+ "/" +:+ ".")
  = "/" +:+ Files.join_with "/" l.
Proof.
  intros Hl Hne.
  assert (Hs : Forall (fun x => no_slash x = true) l)
    by (eapply Forall_impl; [exact Hl|]; by intros x [Hx _]).
  apply normalize_equation.
  - by unfold_append.
  - unfold Files.isAbsolute. unfold_append. cbn [String.prefix].
    by rewrite prefix_empty.
  - by rewrite ends_with_slash_append.
  - unfold Files.normalizeString. unfold_append. cbn [Files.segments].
    change (Ascii.eqb "/" Files.slash) with true. cbv iota.
    change (String "/" ".") with ("/" +:+ ".").
    rewrite segments_app, segments_join by done.
    cbn [fold_left]. change (Files.keep false [] EmptyString) with (@nil string).
    rewrite fold_left_app, (fold_keep_components false l) by done.
    change (Files.segments ".") with ["."]. cbn [fold_left].
    change (Files.keep false (rev l ++ []) ".") with (rev l ++ []).
    by rewrite app_nil_r, rev_involutive.
  - destruct (join_with_ends l Hl Hne) as [Hj _]. by destruct (Files.join_with "/" l).
Qed.

Lemma join_UPLOAD_DIR_itself (cwd f : string) :
  Files.isAbsolute cwd = true -> f = EmptyString \/ f = "." ->
  Files.join [Files.UPLOAD_DIR cwd; f] = Files.UPLOAD_DIR cwd.
Proof.
  intros Habs Hf. destruct (UPLOAD_DIR_shape cwd Habs) as (l & Hl & ->).
  assert (Hdir : Forall component (l ++ ["files"; "uploads"])).
  { apply Forall_app. split; [done|]. repeat constructor; done. }
  assert (Hne : l ++ ["files"; "uploads"] <> []) by (by destruct l).
  unfold Files.join. cbn [List.filter].
  change (truthy ("/" +:+ Files.join_with "/" (l ++ ["files"; "uploads"]))) with true.
  cbv iota. destruct Hf as [-> | ->]; cbn [truthy]; cbv iota.
  - cbn [Files.join_with]. by apply normalize_components.
  - change (Files.join_with "/" ["/" +:+ Files.join_with "/" (l ++ ["files"; "uploads"]); "."])
      with (("/" +:+ Files.join_with "/" (l ++ ["files"; "uploads"])) +:+ "/" +:+ ".").
    by apply normalize_dot.
Qed.

(** X12. For an absolute working directory, whatever the filename, every path
    that [GET] tests or reads is the upload directory itself or the
    filename appended to it, the filename having no separator; the handler
    changes nothing on the disk, and the body of a 200 is the content of
    the file at that path. *)
Theorem get_reads_only_under_the_upload_directory
    (cwd filename : string) (disk : Files.FileSystem) :
  Files.isAbsolute cwd = true ->
  let r := run Files.fs (Files.GET cwd filename) disk in
  exists p,
    (p = Files.UPLOAD_DIR cwd
     \/ (no_slash filename = true
         /\ p = Files.UPLOAD_DIR cwd +:+ "/" +:+ filename))
    /\ (forall c, c ∈ calls r -> path_of c = p)
    /\ (forall content st ct cd,
          result r = Files.Body content st ct cd ->
          st = 200 /\ disk !! p = Some (Files.File content))
    /\ final r = disk.
Proof.
  intros Habs r. subst r. unfold Files.GET.
  destruct (includes ".." filename) eqn:Hdots;
    [exists (Files.UPLOAD_DIR cwd); repeat split; try done;
     [by left | intros c Hc; by apply elem_of_nil in Hc]|].
  destruct (includes "/" filename) eqn:Hslash;
    [exists (Files.UPLOAD_DIR cwd); repeat split; try done;
     [by left | intros c Hc; by apply elem_of_nil in Hc]|].
  cbn [orb].
  set (p := Files.join [Files.UPLOAD_DIR cwd; filename]).
  assert (Hp : p = Files.UPLOAD_DIR cwd
               \/ (no_slash filename = true
                   /\ p = Files.UPLOAD_DIR cwd +:+ "/" +:+ filename)).
  { destruct (String.eqb filename EmptyString) eqn:H1;
      [apply String.eqb_eq in H1; left; apply join_UPLOAD_DIR_itself; auto|].
    destruct (String.eqb filename ".") eqn:H2;
      [apply String.eqb_eq in H2; left; apply join_UPLOAD_DIR_itself; auto|].
    apply String.eqb_neq in H1, H2. right.
    pose proof (checked_filename filename Hdots Hslash H1 H2) as Hf.
    split; [apply Hf | by apply join_UPLOAD_DIR]. }
  exists p. split; [exact Hp|]. clear Hp. cbn [run Files.fs].
  destruct (disk !! p) as [[content|]|] eqn:Hnode.
  - rewrite bool_decide_eq_true_2 by eauto. cbn [negb run Files.fs]. rewrite Hnode.
    destruct (Files.valid_header_value _); cbn [run];
      unfold calls, result, final; cbn [fst snd]; repeat split; try done.
    + intros c Hc. apply elem_of_cons in Hc as [-> | Hc]; [done|].
      apply list_elem_of_singleton in Hc as ->. done.
    + by injection H as _ <- _ _.
    + by injection H as <- _ _ _.
    + intros c Hc. apply elem_of_cons in Hc as [-> | Hc]; [done|].
      apply list_elem_of_singleton in Hc as ->. done.
  - rewrite bool_decide_eq_true_2 by eauto. cbn [negb run Files.fs]. rewrite Hnode.
    unfold calls, result, final. cbn [fst snd]. repeat split; try done.
    intros c Hc. apply elem_of_cons in Hc as [-> | Hc]; [done|].
    apply list_elem_of_singleton in Hc as ->. done.
  - rewrite bool_decide_eq_false_2 by (intros [? ?]; done). cbn [negb run Files.fs].
    unfold calls, result, final. cbn [fst snd]. repeat split; try done.
    intros c Hc. apply list_elem_of_singleton in Hc as ->. done.
Qed.

End StoredFiles.

Lemma get_reads_only_under_the_upload_directory_witness :
  exists p,
    (p = Files.UPLOAD_DIR "/app"
     \/ (Paths.no_slash "1-photo.JPG" = true
         /\ p = Files.UPLOAD_DIR "/app" +:+ "/" +:+ "1-photo.JPG"))
    /\ (forall c,
          c ∈ calls (run Files.fs (Files.GET "/app" "1-photo.JPG")
                       {[ "/app/files/uploads/1-photo.JPG" := Files.File "bytes" ]})
          -> Paths.path_of c = p)
    /\ (forall content st ct cd,
          result (run Files.fs (Files.GET "/app" "1-photo.JPG")
                    {[ "/app/files/uploads/1-photo.JPG" := Files.File "bytes" ]})
          = Files.Body content st ct cd ->
          st = 200
          /\ ({[ "/app/files/uploads/1-photo.JPG" := Files.File "bytes" ]}
                : Files.FileSystem) !! p = Some (Files.File content))
    /\ final (run Files.fs (Files.GET "/app" "1-photo.JPG")
                {[ "/app/files/uploads/1-photo.JPG" := Files.File "bytes" ]})
       = {[ "/app/files/uploads/1-photo.JPG" := Files.File "bytes" ]}.
Proof.
  exact (get_reads_only_under_the_upload_directory "/app" "1-photo.JPG"
           {[ "/app/files/uploads/1-photo.JPG" := Files.File "bytes" ]} eq_refl).
Defined.

(** ** The upload endpoint *)

Section UploadRoute.
Import JS Paths.
Variable NFKD : string -> string.

Lemma every_remove (class : ascii -> bool) (s : string) :
  Validation.every (fun c => negb (class c)) (Upload.remove class s) = true.
Proof.
  induction s as [|c s IH]; [done|]. cbn [Upload.remove].
  destruct (class c) eqn:Hc; [done|]. cbn [Validation.every]. by rewrite Hc, IH.
Qed.

Lemma lower_safe (c : ascii) : Upload.safe c = true -> Upload.clean (lower c) = true.
Proof.
  destruct c as [[] [] [] [] [] [] [] []]; vm_compute; intros H;
    first [discriminate H | reflexivity].
Qed.

Lemma every_toLowerCase (s : string) :
  Validation.every Upload.safe s = true ->
  Validation.every Upload.clean (toLowerCase s) = true.
Proof.
  induction s as [|c s IH]; [done|]. cbn [Validation.every toLowerCase].
  intros H. apply andb_true_iff in H as [Hc Hs]. by rewrite lower_safe, IH.
Qed.

Lemma sanitizeFileName_clean (name : string) :
  Validation.every Upload.clean (Upload.sanitizeFileName NFKD name) = true.
Proof.
  unfold Upload.sanitizeFileName. apply every_toLowerCase.
  eapply every_impl; [|apply every_remove].
  intros c Hc. cbn beta in Hc. by destruct (Upload.safe c).
Qed.

Lemma clean_facts (c : ascii) :
  Upload.clean c = true ->
  Upload.safe c = true /\ Upload.non_ascii c = false /\ is_white_space c = false
  /\ lower c = c /\ Ascii.eqb c Files.slash = false.
Proof.
  destruct c as [[] [] [] [] [] [] [] []]; vm_compute; intros H;
    first [discriminate H | repeat split].
Qed.

Lemma clean_is_fixed (s : string) :
  Validation.every Upload.clean s = true ->
  toLowerCase (Upload.remove (fun c => negb (Upload.safe c))
                 (Upload.dashes false (Upload.remove Upload.non_ascii s))) = s.
Proof.
  induction s as [|c s IH]; [done|]. cbn [Validation.every].
  intros H. apply andb_true_iff in H as [Hc Hs].
  destruct (clean_facts c Hc) as (H1 & H2 & H3 & H4 & _).
  cbn [Upload.remove]. rewrite H2. cbn [Upload.dashes]. rewrite H3.
  cbn [Upload.remove]. rewrite H1. cbn [negb toLowerCase]. by rewrite H4, IH.
Qed.

(** X13. Whatever the name of the file and whatever the normalisation does, the
    sanitised name is made of lower-case letters, digits, dots, underscores
    and dashes: it has no separator, no space and no upper-case letter. *)
Theorem sanitized_name_is_clean (name : string) :
  let safeName := Upload.sanitizeFileName NFKD name in
  Validation.every Upload.clean safeName = true
  /\ includes "/" safeName = false
  /\ includes " " safeName = false
  /\ toLowerCase safeName = safeName.
Proof.
  intros safeName. pose proof (sanitizeFileName_clean name) as Hclean.
  fold safeName in Hclean. split; [done|]. split; [|split].
  - apply includes_char. eapply every_impl; [|exact Hclean].
    intros c Hc. destruct (clean_facts c Hc) as (_ & _ & _ & _ & H).
    unfold Files.slash in H. by rewrite H.
  - apply includes_char. eapply every_impl; [|exact Hclean].
    intros c Hc. destruct (clean_facts c Hc) as (_ & _ & H & _).
    destruct (Ascii.eqb c " ") eqn:Heq; [|done].
    apply Ascii.eqb_eq in Heq. subst c. discriminate H.
  - clearbody safeName. revert Hclean.
    induction safeName as [|c s IH]; intros Hclean; [done|].
    cbn [Validation.every] in Hclean. apply andb_true_iff in Hclean as [Hc Hs].
    destruct (clean_facts c Hc) as (_ & _ & _ & H & _).
    cbn [toLowerCase]. by rewrite H, IH.
Qed.

(** X14. Sanitising is idempotent, for a normalisation that leaves such names
    as they are (as NFKD leaves ASCII). *)
Theorem sanitizing_twice_changes_nothing (name : string) :
  (forall s, Validation.every Upload.clean s = true -> NFKD s = s) ->
  Upload.sanitizeFileName NFKD (Upload.sanitizeFileName NFKD name)
  = Upload.sanitizeFileName NFKD name.
Proof.
  intros Hascii. pose proof (sanitizeFileName_clean name) as Hclean.
  unfold Upload.sanitizeFileName at 1. rewrite Hascii by done.
  by apply clean_is_fixed.
Qed.

Lemma uuid_char_facts (c : ascii) :
  Upload.uuid_char c = true ->
  Ascii.eqb c Files.slash = false /\ Ascii.eqb c "." = false.
Proof.
  destruct c as [[] [] [] [] [] [] [] []]; vm_compute; intros H;
    first [discriminate H | done].
Qed.

Lemma clean_no_slash (s : string) :
  Validation.every Upload.clean s = true -> no_slash s = true.
Proof.
  apply every_impl. intros c Hc.
  destruct (clean_facts c Hc) as (_ & _ & _ & _ & H). by rewrite H.
Qed.

(** The name under which an upload is stored is one path component. *)
Lemma fileName_component (uuid safeName : string) :
  Validation.every Upload.uuid_char uuid = true ->
  Validation.every Upload.clean safeName = true ->
  component (uuid +:+ "-" +:+ safeName).
Proof.
  intros Huuid Hsafe. split; [|split; [|split]].
  - unfold no_slash. rewrite !every_append. apply andb_true_iff. split.
    + eapply every_impl; [|exact Huuid]. intros c Hc.
      destruct (uuid_char_facts c Hc) as [H _]. by rewrite H.
    + apply andb_true_iff. split; [done | by apply clean_no_slash].
  - destruct uuid; unfold_append; discriminate.
  - destruct uuid as [|c uuid]; unfold_append; [discriminate|].
    cbn [Validation.every] in Huuid. apply andb_true_iff in Huuid as [Hc _].
    destruct (uuid_char_facts c Hc) as [_ H]. intros [= -> _]. discriminate H.
  - destruct uuid as [|c uuid]; unfold_append; [discriminate|].
    cbn [Validation.every] in Huuid. apply andb_true_iff in Huuid as [Hc _].
    destruct (uuid_char_facts c Hc) as [_ H]. intros [= -> _]. discriminate H.
Qed.




Lemma is_directory_lookup (disk : Files.FileSystem) (p : string) :
  p <> EmptyString ->
  Upload.is_directory disk p =
  match disk !! p with Some Files.Directory => true | _ => false end.
Proof. intros Hp. unfold Upload.is_directory. by destruct p. Qed.

Lemma UPLOAD_DIR_not_empty (cwd : string) :
  Files.isAbsolute cwd = true -> Files.UPLOAD_DIR cwd <> EmptyString.
Proof. intros Habs. by destruct (UPLOAD_DIR_shape cwd Habs) as (l & _ & ->). Qed.

Lemma disk_lookup_insert (disk : Files.FileSystem) (p : string) (x : Files.Node) :
  (<[p := x]> disk : Files.FileSystem) !! p = Some x.
Proof. unfold Files.FileSystem in *. apply lookup_insert_eq. Qed.

(** The run of [POST] on a file, where the upload directory exists. *)
Lemma POST_file (writable : bool) (cwd uuid name content : string)
    (disk : Files.FileSystem) :
  Files.isAbsolute cwd = true ->
  Validation.every Upload.uuid_char uuid = true ->
  disk !! Files.UPLOAD_DIR cwd = Some Files.Directory ->
  let fileName := uuid +:+ "-" +:+ Upload.sanitizeFileName NFKD name in
  let filePath := Files.UPLOAD_DIR cwd +:+ "/" +:+ fileName in
  run (Upload.fs writable)
    (Upload.POST NFKD cwd uuid (Some (Some (Upload.FileEntry name content)))) disk
  = match writable, disk !! filePath with
    | false, _ | true, Some Files.Directory =>
        (Upload.Json 500 "Failed to upload image", disk,
         [Called (Upload.writeFileSync filePath content)])
    | true, _ =>
        (Upload.Uploaded ("/api/files" +:+ "/" +:+ fileName),
         <[filePath := Files.File content]> disk,
         [Called (Upload.writeFileSync filePath content)])
    end.
Proof.
  intros Habs Huuid Hdir fileName filePath.
  pose proof (fileName_component uuid _ Huuid (sanitizeFileName_clean name)) as Hf.
  fold fileName in Hf.
  unfold Upload.POST. fold fileName. change (Upload.UPLOAD_DIR cwd) with (Files.UPLOAD_DIR cwd).
  rewrite (join_UPLOAD_DIR cwd fileName Habs Hf). fold filePath.
  cbn [run Upload.fs]. unfold filePath at 1.
  rewrite (parent_UPLOAD_DIR cwd fileName Habs Hf).
  rewrite (is_directory_lookup disk (Files.UPLOAD_DIR cwd)) by (by apply UPLOAD_DIR_not_empty).
  rewrite Hdir. rewrite (is_directory_lookup disk filePath).
  2:{ unfold filePath. intros H. apply append_is_empty in H as [H _].
      by apply UPLOAD_DIR_not_empty in H. }
  destruct writable; [|done]. by destruct (disk !! filePath) as [[|]|].
Qed.



(** X17. A request without a file makes no file-system call, and a request
    with a file makes one, the write of that file directly under the
    upload directory. Every answer other than 201 leaves the disk as it
    was, and a 201 has written exactly that one file. *)
Theorem upload_writes_one_file_or_nothing
    (writable : bool) (cwd uuid : string) (form : option (option Upload.Entry))
    (disk : Files.FileSystem) :
  Files.isAbsolute cwd = true ->
  Validation.every Upload.uuid_char uuid = true ->
  disk !! Files.UPLOAD_DIR cwd = Some Files.Directory ->
  let r := run (Upload.fs writable) (Upload.POST NFKD cwd uuid form) disk in
  (Upload.status (result r) <> 201 -> final r = disk)
  /\ (Upload.status (result r) = 201 ->
      exists name content,
        form = Some (Some (Upload.FileEntry name content))
        /\ final r = <[Files.UPLOAD_DIR cwd +:+ "/" +:+ uuid +:+ "-"
                       +:+ Upload.sanitizeFileName NFKD name := Files.File content]> disk)
  /\ (Upload.status (result r) = 400 <->
      form = Some None \/ form = Some (Some (Upload.TextEntry EmptyString)))
  /\ ((forall name content, form <> Some (Some (Upload.FileEntry name content))) ->
      calls r = [])
  /\ (forall name content,
        form = Some (Some (Upload.FileEntry name content)) ->
        calls r
        = [Called (Upload.writeFileSync
                     (Files.UPLOAD_DIR cwd +:+ "/" +:+ uuid +:+ "-"
                      +:+ Upload.sanitizeFileName NFKD name) content)]).
Proof.
  intros Habs Huuid Hdir r. subst r.
  destruct form as [[[name content|value]|]|].
  - rewrite (POST_file writable cwd uuid name content disk Habs Huuid Hdir).
    assert (Hcalls :
      forall x : Upload.Response * Files.FileSystem * list (Call Upload.FsE),
        calls x = [Called (Upload.writeFileSync
                     (Files.UPLOAD_DIR cwd +:+ "/" +:+ uuid +:+ "-"
                      +:+ Upload.sanitizeFileName NFKD name) content)] ->
        ((forall name0 content0,
            Some (Some (Upload.FileEntry name content))
            <> Some (Some (Upload.FileEntry name0 content0))) -> calls x = [])
        /\ (forall name0 content0,
              Some (Some (Upload.FileEntry name content))
              = Some (Some (Upload.FileEntry name0 content0)) ->
              calls x
              = [Called (Upload.writeFileSync
                           (Files.UPLOAD_DIR cwd +:+ "/" +:+ uuid +:+ "-"
                            +:+ Upload.sanitizeFileName NFKD name0) content0)])).
    { intros x Hx. split; [intros H; by destruct (H name content)|].
      intros name0 content0 [= <- <-]. exact Hx. }
    destruct writable;
      [destruct (disk !! (Files.UPLOAD_DIR cwd +:+ _)) as [[|]|]|].
    all: match goal with
         | |- ?A /\ ?B /\ ?C /\ ?D =>
             cut ((A /\ B /\ C) /\ D);
               [intros [(a & b & c) d]; exact (conj a (conj b (conj c d)))|];
               split; [|by apply Hcalls]
         end.
    all: unfold result, final; cbn [fst snd Upload.status].
    all: first
      [ split; [intros H; by destruct H|]; split; [eauto|];
        split; [intros H; discriminate H | intros [H | H]; discriminate H]
      | split; [done|]; split; [intros H; discriminate H|];
        split; [intros H; discriminate H | intros [H | H]; discriminate H] ].
  - unfold Upload.POST. destruct value; cbn [truthy run].
    all: unfold result, final, calls; cbn [fst snd Upload.status].
    all: split; [done|]; split; [intros H; discriminate H|].
    + split; [split; [auto | done]|]. split; [done | intros n c H; discriminate H].
    + split; [split; [intros H; discriminate H | intros [H | H]; discriminate H]|].
      split; [done | intros n c H; discriminate H].
  - cbn. split; [done|]. split; [intros H; discriminate H|].
    split; [split; [auto | done]|].
    split; [done | intros n c H; discriminate H].
  - cbn. split; [done|]. split; [intros H; discriminate H|].
    split; [split; [intros H; discriminate H | intros [H | H]; discriminate H]|].
    split; [done | intros n c H; discriminate H].
Qed.

End UploadRoute.

Lemma sanitizing_twice_changes_nothing_witness :
  Upload.sanitizeFileName (fun s => s)
    (Upload.sanitizeFileName (fun s => s) "My  Photo (1).PNG")
  = Upload.sanitizeFileName (fun s => s) "My  Photo (1).PNG".
Proof.
  apply (sanitizing_twice_changes_nothing (fun s => s) "My  Photo (1).PNG").
  reflexivity.
Defined.



Lemma upload_writes_one_file_or_nothing_witness :
  let disk : Files.FileSystem := {[ "/app/files/uploads" := Files.Directory ]} in
  let r := run (Upload.fs true)
             (Upload.POST (fun s => s) "/app" "c2a1f6c1-d5e8-4f7c-b0a9-e9a8d8c3b4a5"
                (Some None)) disk in
  Upload.status (result r) = 400 /\ final r = disk /\ calls r = [].
Proof.
  intros disk r.
  destruct (upload_writes_one_file_or_nothing (fun s => s) true "/app"
              "c2a1f6c1-d5e8-4f7c-b0a9-e9a8d8c3b4a5" (Some None) disk
              eq_refl eq_refl eq_refl) as (Hkeep & _ & Hstatus & Hnone & _).
  split; [apply Hstatus; by left|].
  split; [apply Hkeep; intros H; discriminate H|].
  apply Hnone. intros name content H. discriminate H.
Defined.

Section UploadDirectory.
Import JS Paths.

Lemma disk_lookup_insert_ne (disk : Files.FileSystem) (p q : string) (x : Files.Node) :
  p <> q -> (<[p := x]> disk : Files.FileSystem) !! q = disk !! q.
Proof. unfold Files.FileSystem in *. apply lookup_insert_ne. Qed.

Lemma join_segments (s : string) : Files.join_with "/" (Files.segments s) = s.
Proof.
  induction s as [|c s IH]; [reflexivity|]. cbn [Files.segments].
  pose proof (segments_not_nil s) as Hne.
  destruct (Ascii.eqb c Files.slash) eqn:Hc.
  - apply Ascii.eqb_eq in Hc. subst c.
    destruct (Files.segments s) as [|h t]; [done|].
    rewrite join_with_cons, IH. reflexivity.
  - destruct (Files.segments s) as [|h [|y t]]; [done|..].
    + cbn [Files.join_with] in *. by rewrite IH.
    + rewrite join_with_cons in *. unfold_append. by rewrite IH.
Qed.

Lemma inits_whole {A : Type} (l : list A) : l <> [] -> l ∈ Upload.inits l.
Proof.
  induction l as [|x [|y l] IH]; intros Hne; [done|..].
  - cbn. by left.
  - cbn [Upload.inits]. right. apply list_elem_of_fmap. exists (y :: l).
    split; [done | by apply IH].
Qed.

Lemma path_in_ancestors (p : string) : p <> EmptyString -> p ∈ Upload.ancestors p.
Proof.
  intros Hp. unfold Upload.ancestors. apply list_elem_of_In, filter_In. split.
  - apply list_elem_of_In, list_elem_of_fmap. exists (Files.segments p).
    split; [by rewrite join_segments | apply inits_whole, segments_not_nil].
  - by destruct p.
Qed.

Lemma make_spec (paths : list string) (disk : Files.FileSystem) :
  (forall p x, disk !! p = Some x -> (Upload.make paths disk).2 !! p = Some x)
  /\ ((Upload.make paths disk).1 = Some tt ->
      forall p, p ∈ paths -> (Upload.make paths disk).2 !! p = Some Files.Directory)
  /\ ((Upload.make paths disk).1 = None ->
      exists p content, p ∈ paths /\ disk !! p = Some (Files.File content)).
Proof.
  revert disk. induction paths as [|q paths IH]; intros disk; cbn [Upload.make].
  - cbn [fst snd]. split; [done|]. split; [|done].
    intros _ p Hp. by apply elem_of_nil in Hp.
  - destruct (disk !! q) as [[content|]|] eqn:Hq.
    + cbn [fst snd]. split; [done|]. split; [done|].
      intros _. exists q, content. split; [by left | done].
    + destruct (IH disk) as (IH1 & IH2 & IH3). split; [done|]. split.
      * intros Hres p Hp. apply elem_of_cons in Hp as [-> | Hp]; [|by apply IH2].
        by apply IH1.
      * intros Hres. destruct (IH3 Hres) as (p & c & Hp & Hc).
        exists p, c. split; [by right | done].
    + destruct (IH (<[q := Files.Directory]> disk)) as (IH1 & IH2 & IH3). split.
      * intros p x Hp. apply IH1. rewrite disk_lookup_insert_ne; [done|]. congruence.
      * split.
        -- intros Hres p Hp. apply elem_of_cons in Hp as [-> | Hp]; [|by apply IH2].
           apply IH1. apply disk_lookup_insert.
        -- intros Hres. destruct (IH3 Hres) as (p & c & Hp & Hc).
           exists p, c. split; [by right|].
           destruct (decide (p = q)) as [->|Hne].
           ++ rewrite disk_lookup_insert in Hc. discriminate Hc.
           ++ by rewrite disk_lookup_insert_ne in Hc.
Qed.

(** X18. Loading the module changes no entry that the disk has. When it
    succeeds the upload directory is a directory, unless a file had its
    path, which the test at load time takes for the directory; it fails
    only where the disk cannot be written or a file is in the place of the
    directory or of one above it. *)
Theorem loading_makes_the_upload_directory
    (writable : bool) (cwd : string) (disk : Files.FileSystem) :
  Files.isAbsolute cwd = true ->
  let r := run (Upload.fs writable) (Upload.init cwd) disk in
  (forall p x, disk !! p = Some x -> final r !! p = Some x)
  /\ (result r = Some tt ->
      final r !! Upload.UPLOAD_DIR cwd = Some Files.Directory
      \/ exists content, disk !! Upload.UPLOAD_DIR cwd = Some (Files.File content))
  /\ (result r = None ->
      writable = false
      \/ exists p content,
           p ∈ Upload.ancestors (Upload.UPLOAD_DIR cwd)
           /\ disk !! p = Some (Files.File content)).
Proof.
  intros Habs r. subst r. unfold Upload.init. cbn [run Upload.fs].
  destruct (disk !! Upload.UPLOAD_DIR cwd) as [node|] eqn:Hnode.
  - rewrite bool_decide_eq_true_2 by eauto. cbn [negb run].
    unfold result, final. cbn [fst snd]. split; [done|]. split; [|done].
    intros _. destruct node as [content|]; [right; by exists content | by left].
  - rewrite bool_decide_eq_false_2 by (intros [? ?]; done). cbn [negb run Upload.fs].
    destruct writable;
      [|unfold result, final; cbn [fst snd]; split; [done|]; split; [done | by left]].
    pose proof (make_spec (Upload.ancestors (Upload.UPLOAD_DIR cwd)) disk)
      as (H1 & H2 & H3).
    destruct (Upload.make (Upload.ancestors (Upload.UPLOAD_DIR cwd)) disk)
      as [res disk'] eqn:Hmake.
    unfold result, final. cbn [fst snd] in *. split; [done|]. split; [|by right; apply H3].
    intros Hres. left. apply H2; [done|].
    apply path_in_ancestors. by apply UPLOAD_DIR_not_empty.
Qed.

End UploadDirectory.

Lemma loading_makes_the_upload_directory_witness :
  let r := run (Upload.fs true) (Upload.init "/app") (∅ : Files.FileSystem) in
  final r !! Upload.UPLOAD_DIR "/app" = Some Files.Directory
  \/ exists content,
       (∅ : Files.FileSystem) !! Upload.UPLOAD_DIR "/app" = Some (Files.File content).
Proof.
  intros r.
  exact (proj1 (proj2 (loading_makes_the_upload_directory true "/app" ∅ eq_refl)) eq_refl).
Defined.

(** ** The page buttons *)

Section PageButtons.
Import Pagination.

Ltac in_range :=
  repeat match goal with
  | |- context [(?a >=? 1) && (?a <=? ?t)] =>
      replace ((a >=? 1) && (a <=? t)) with true
        by (symmetry; apply andb_true_iff; split;
            [rewrite Z.geb_leb; apply Z.leb_le | apply Z.leb_le]; lia)
  end.

(** A numbered button is for a page between 1 and the number of pages. *)
Lemma visiblePages_in_range (p : Props) (n : Z) :
  n ∈ visiblePages p -> 1 <= n <= totalPages p.
Proof.
  unfold visiblePages. rewrite list_elem_of_In, filter_In.
  intros [_ H]. apply andb_true_iff in H as [H1 H2].
  rewrite Z.geb_leb in H1. apply Z.leb_le in H1, H2. lia.
Qed.

(** X19. With the current page between 1 and the number of pages, the numbered
    buttons are consecutive pages, three of them or all the pages when
    there are fewer, all between 1 and the number of pages, and the
    current page is one of them. Away from both ends the run ends at the
    current page: the page after it has no numbered button. *)
Theorem numbered_buttons_are_a_run_with_the_current_page (p : Props) :
  1 <= currentPage p <= totalPages p ->
  (exists first,
     visiblePages p = seqZ first (Z.min 3 (totalPages p))
     /\ 1 <= first
     /\ first + Z.min 3 (totalPages p) - 1 <= totalPages p
     /\ first <= currentPage p < first + Z.min 3 (totalPages p))
  /\ (3 <= currentPage p < totalPages p - 2 ->
      visiblePages p = [currentPage p - 2; currentPage p - 1; currentPage p]).
Proof.
  destruct p as [cur tot hp hn]. cbn [currentPage totalPages]. intros Hcur.
  unfold visiblePages, visiblePageCount, pageNumber, maxVisiblePages.
  cbn [currentPage totalPages].
  assert (Htot : tot = 1 \/ tot = 2 \/ tot = 3 \/ 4 <= tot) by lia.
  destruct Htot as [-> | [-> | [-> | Htot]]].
  - split; [|lia]. exists 1. repeat split; try lia.
  - split; [|lia]. exists 1. repeat split; try lia.
  - split; [|lia]. exists 1. repeat split; try lia.
  - replace (Z.min 3 tot) with 3 by lia. change (seqZ 0 3) with [0; 1; 2].
    replace (tot <=? 3) with false by (symmetry; apply Z.leb_gt; lia).
    rewrite Z.geb_leb.
    destruct (cur <=? 2) eqn:Hlow; [|destruct (tot - 2 <=? cur) eqn:Hhigh].
    + apply Z.leb_le in Hlow. cbn [map List.filter]. in_range.
      split; [|lia]. exists 1. repeat split; try lia.
    + apply Z.leb_gt in Hlow. apply Z.leb_le in Hhigh.
      cbn [map List.filter]. in_range.
      split; [|lia]. exists (tot - 2). split; [|lia].
      unfold seqZ. change (Z.to_nat 3) with 3%nat. simpl. repeat (f_equal; try lia).
    + apply Z.leb_gt in Hlow, Hhigh. cbn [map List.filter]. in_range.
      split.
      * exists (cur - 2). split; [|lia].
        unfold seqZ. change (Z.to_nat 3) with 3%nat. simpl. repeat (f_equal; try lia).
      * intros _. repeat (f_equal; try lia).
Qed.

(** X20. Seen from the hook, with the pagination it holds and the component
    rendered (more than one page): every button that is rendered and
    enabled and whose handler calls back gives [goToPage] a page that is
    not the current one. When that page is between 1 and the number of
    pages the hook sends the request for it, and otherwise [goToPage]
    ignores the click. The page is in range for the first, the last and
    the numbered buttons, and for all five when the current page of the
    hook is the one of the pagination it holds; when it is not (a page
    change whose answer has not arrived, or has failed), Previous and
    Next can ask for a page out of range. *)
Theorem enabled_button_fetches_a_page_in_range
    (s : Hook.State) (info : Hook.PaginationInfo) (b : Button) (n : Z) :
  Hook.pagination s = Some info ->
  1 < Hook.PaginationInfo.totalPages info ->
  click (props_of s info) b = Some n ->
  n <> Hook.currentPage s
  /\ (1 <= n <= Hook.PaginationInfo.totalPages info ->
      Hook.goToPage n s
      = Hook.fetchApartments n (Hook.search s) (Hook.setCurrentPage n s)
      /\ Hook.requests (Hook.goToPage n s)
         = Hook.requests s
           ++ [{| Hook.url :=
                    [("page", JS.String_ n); ("limit", JS.String_ (Hook.limit s))]
                    ++ (if JS.truthy (Hook.search s)
                        then [("search", Hook.search s)] else []);
                  Hook.signal := length (Hook.controllers s) |}])
  /\ (~ 1 <= n <= Hook.PaginationInfo.totalPages info ->
      (b = Previous \/ b = Next) /\ Hook.goToPage n s = s)
  /\ (b = First \/ b = Last \/ (exists m, b = Page m) ->
      1 <= n <= Hook.PaginationInfo.totalPages info)
  /\ (Hook.currentPage s = Hook.PaginationInfo.currentPage info ->
      1 <= Hook.PaginationInfo.currentPage info <= Hook.PaginationInfo.totalPages info ->
      Hook.PaginationInfo.hasPrevPage info
        = (1 <? Hook.PaginationInfo.currentPage info) ->
      Hook.PaginationInfo.hasNextPage info
        = (Hook.PaginationInfo.currentPage info <? Hook.PaginationInfo.totalPages info) ->
      1 <= n <= Hook.PaginationInfo.totalPages info).
Proof.
  intros Hinfo Htot Hclick. unfold click in Hclick.
  destruct (rendered (props_of s info) b) eqn:Hr; [|discriminate].
  destruct (disabled (props_of s info) b) eqn:Hd; [discriminate|].
  cbn [andb negb] in Hclick.
  assert (Hne : n <> Hook.currentPage s).
  { destruct b as [| |m| |]; cbn [onClick disabled rendered props_of currentPage
                                   totalPages hasPrevPage hasNextPage] in *.
    - injection Hclick as <-. apply Z.eqb_neq in Hd. lia.
    - injection Hclick as <-. lia.
    - destruct (Hook.currentPage s =? m) eqn:Hm; [discriminate|].
      injection Hclick as <-. apply Z.eqb_neq in Hm. lia.
    - injection Hclick as <-. lia.
    - injection Hclick as <-. apply Z.eqb_neq in Hd. lia. }
  assert (Hnumbered : b = First \/ b = Last \/ (exists m, b = Page m) ->
                      1 <= n <= Hook.PaginationInfo.totalPages info).
  { intros [-> | [-> | [m ->]]];
      cbn [onClick disabled rendered props_of currentPage
           totalPages hasPrevPage hasNextPage] in *.
    - injection Hclick as <-. lia.
    - injection Hclick as <-. lia.
    - destruct (Hook.currentPage s =? m) eqn:Hm; [discriminate|].
      injection Hclick as <-. apply bool_decide_eq_true in Hr.
      apply visiblePages_in_range in Hr. exact Hr. }
  assert (Hagree :
    Hook.currentPage s = Hook.PaginationInfo.currentPage info ->
    1 <= Hook.PaginationInfo.currentPage info <= Hook.PaginationInfo.totalPages info ->
    Hook.PaginationInfo.hasPrevPage info
      = (1 <? Hook.PaginationInfo.currentPage info) ->
    Hook.PaginationInfo.hasNextPage info
      = (Hook.PaginationInfo.currentPage info <? Hook.PaginationInfo.totalPages info) ->
    1 <= n <= Hook.PaginationInfo.totalPages info).
  { intros Hcur Hrange Hprev Hnext.
    destruct b as [| |m| |]; [apply Hnumbered; auto | | apply Hnumbered; eauto |
                              | apply Hnumbered; auto];
      cbn [onClick disabled rendered props_of currentPage
           totalPages hasPrevPage hasNextPage] in *.
    - injection Hclick as <-. rewrite Hprev in Hd.
      apply negb_false_iff, Z.ltb_lt in Hd. lia.
    - injection Hclick as <-. rewrite Hnext in Hd.
      apply negb_false_iff, Z.ltb_lt in Hd. lia. }
  split; [exact Hne|]. split; [|split; [|split; [exact Hnumbered | exact Hagree]]].
  - intros Hn.
    assert (Hgo : Hook.goToPage n s
                  = Hook.fetchApartments n (Hook.search s) (Hook.setCurrentPage n s)).
    { apply goToPage_fetches; [lia|]. intros p Hp. rewrite Hinfo in Hp.
      injection Hp as <-. lia. }
    split; [exact Hgo|]. rewrite Hgo, <- buildParams_entries.
    apply (fetch_requests n (Hook.search s) (Hook.setCurrentPage n s)).
  - intros Hout. split.
    + destruct b as [| |m| |];
        [exfalso; apply Hout, Hnumbered; auto | auto
        | exfalso; apply Hout, Hnumbered; eauto | auto
        | exfalso; apply Hout, Hnumbered; auto].
    + unfold Hook.goToPage. destruct (n <? 1) eqn:H1; [reflexivity|].
      rewrite Hinfo. apply Z.ltb_ge in H1.
      replace (n >? Hook.PaginationInfo.totalPages info) with true; [reflexivity|].
      symmetry. rewrite Z.gtb_ltb. apply Z.ltb_lt. lia.
Qed.

End PageButtons.

Lemma numbered_buttons_are_a_run_with_the_current_page_witness :
  Pagination.visiblePages
    {| Pagination.currentPage := 5; Pagination.totalPages := 9;
       Pagination.hasPrevPage := true; Pagination.hasNextPage := true |}
  = [3; 4; 5].
Proof.
  refine (proj2 (numbered_buttons_are_a_run_with_the_current_page
            {| Pagination.currentPage := 5; Pagination.totalPages := 9;
               Pagination.hasPrevPage := true; Pagination.hasNextPage := true |} _) _).
  - cbn. lia.
  - cbn. lia.
Defined.

Lemma enabled_button_fetches_a_page_in_range_witness :
  let failed := Hook.settle 1 (Hook.fetch_done (Hook.Rejected (Hook.Error "offline")))
                  (Hook.goToPage 4 Examples.browsing) in
  (Hook.requests (Hook.goToPage 2 Examples.typed)
   = Hook.requests Examples.typed
     ++ [{| Hook.url := [("page", "2"); ("limit", "8"); ("search", "A7")];
            Hook.signal := 1 |}])
  /\ (Hook.currentPage failed = 4
      /\ Pagination.click (Pagination.props_of failed Examples.four_pages) Pagination.Next
         = Some 5
      /\ Hook.goToPage 5 failed = failed).
Proof.
  intros failed. split.
  - destruct (enabled_button_fetches_a_page_in_range Examples.typed Examples.four_pages
                Pagination.Next 2) as (_ & H & _).
    + reflexivity.
    + vm_compute. reflexivity.
    + vm_compute. reflexivity.
    + destruct H as [_ H]; [vm_compute; split; discriminate|].
      rewrite H. vm_compute. reflexivity.
  - split; [reflexivity|]. split; [vm_compute; reflexivity|].
    destruct (enabled_button_fetches_a_page_in_range failed Examples.four_pages
                Pagination.Next 5) as (_ & _ & H & _).
    + reflexivity.
    + vm_compute. reflexivity.
    + vm_compute. reflexivity.
    + apply H. vm_compute. intros [_ Habs]. apply Habs. reflexivity.
Defined.

(** ** The images of the creation form *)

Section FormImages.
Import JS Modal.

Lemma length_push (imageUrl : option string) (uploaded : list string) :
  (length (push_if_truthy imageUrl uploaded) <= S (length uploaded))%nat.
Proof.
  destruct imageUrl as [u|]; cbn [push_if_truthy]; [|lia].
  destruct (truthy u); [rewrite length_app; cbn; lia | lia].
Qed.

Lemma length_gathered (data : list Upload) (uploaded : list string) :
  (length (fold_left gather data uploaded) <= length uploaded + length data)%nat.
Proof.
  revert uploaded. induction data as [|d data IH]; intros uploaded; cbn [fold_left length].
  - lia.
  - etrans; [apply IH|]. destruct d as [u|]; cbn [gather]; [|lia].
    pose proof (length_push u uploaded). lia.
Qed.

Lemma length_answers (network : nat -> File -> Upload) (n : nat) (files : list File) :
  length (answers network n files) = length files.
Proof.
  revert n. induction files as [|f files IH]; intros n; [done|].
  cbn [answers length]. by rewrite IH.
Qed.

Lemma length_pushed (network : nat -> File -> Upload) (n : nat) (files : list File) :
  (length (pushed network n files) <= length files)%nat.
Proof.
  unfold pushed. pose proof (length_gathered (answers network n files) []) as H.
  rewrite length_answers in H. cbn [length] in H. lia.
Qed.

Lemma after_posts_S (k : nat) (s : State) :
  after_posts k (after_posts 1 s) = after_posts (S k) s.
Proof. unfold after_posts. cbn. f_equal. lia. Qed.

(** The loop when no request throws: one request per file, in order, then
    the rest of the handler with the URLs gathered. *)
Lemma run_upload_each (network : nat -> File -> Upload) (files : list File)
    (uploaded : list string) (rest : list string -> Prog ModalE Ending) (s : State) :
  Forall (fun data => data <> Throws) (answers network (sent s) files) ->
  run (browser network) (upload_each files uploaded rest) s =
  (result (run (browser network)
             (rest (fold_left gather (answers network (sent s) files) uploaded))
             (after_posts (length files) s)),
   final (run (browser network)
            (rest (fold_left gather (answers network (sent s) files) uploaded))
            (after_posts (length files) s)),
   map (fun f => Called (post_upload f)) files
   ++ calls (run (browser network)
               (rest (fold_left gather (answers network (sent s) files) uploaded))
               (after_posts (length files) s))).
Proof.
  revert uploaded s. induction files as [|f files IH]; intros uploaded s Hall.
  - cbn [upload_each fold_left map app answers length].
    replace (after_posts 0 s) with s by (by destruct s).
    by destruct (run _ _ _) as [[? ?] ?].
  - cbn [answers] in Hall. apply Forall_cons in Hall as [Hf Hall].
    cbn [upload_each run browser answers fold_left length].
    destruct (network (sent s) f) as [u|] eqn:Hnet; [|done].
    cbn [gather].
    change {| imageUrls := imageUrls s; uploading := uploading s;
              toasts := toasts s; sent := S (sent s) |} with (after_posts 1 s).
    rewrite (IH (push_if_truthy u uploaded) (after_posts 1 s)) by exact Hall.
    cbn [after_posts sent Nat.add]. rewrite after_posts_S. reflexivity.
Qed.

(** The loop when a request throws: the handler ends there, rejected, and
    nothing of the form has changed. *)
Lemma run_upload_each_throws (network : nat -> File -> Upload) (files : list File)
    (uploaded : list string) (rest : list string -> Prog ModalE Ending) (s : State) :
  Exists (fun data => data = Throws) (answers network (sent s) files) ->
  result (run (browser network) (upload_each files uploaded rest) s) = Rejected
  /\ imageUrls (final (run (browser network) (upload_each files uploaded rest) s))
     = imageUrls s
  /\ uploading (final (run (browser network) (upload_each files uploaded rest) s))
     = uploading s
  /\ toasts (final (run (browser network) (upload_each files uploaded rest) s))
     = toasts s.
Proof.
  revert uploaded s. induction files as [|f files IH]; intros uploaded s Hex.
  - by apply Exists_nil in Hex.
  - cbn [answers] in Hex. cbn [upload_each run browser].
    destruct (network (sent s) f) as [u|] eqn:Hf; [|done].
    apply Exists_cons in Hex as [Hex | Hex]; [discriminate Hex|].
    specialize (IH (push_if_truthy u uploaded)
                  {| imageUrls := imageUrls s; uploading := uploading s;
                     toasts := toasts s; sent := S (sent s) |} Hex).
    destruct (run _ _ _) as [[a s'] cs]. exact IH.
Qed.

(** The run of the handler on files that fit, when no request throws. *)
Lemma run_handleFileUpload (network : nat -> File -> Upload) (images : list string)
    (files : list File) (s : State) :
  Forall (fun data => data <> Throws) (answers network (sent s) files) ->
  (length images + length files <= 8)%nat ->
  run (browser network) (handleFileUpload images (Some files)) s =
  (Resolved,
   {| imageUrls := images ++ pushed network (sent s) files; uploading := false;
      toasts := toasts s; sent := length files + sent s |},
   Called (setUploading true)
   :: map (fun f => Called (post_upload f)) files
   ++ [Called (setValue_imageUrls (images ++ pushed network (sent s) files));
       Called (setUploading false)]).
Proof.
  intros Hall Hcap. unfold handleFileUpload.
  replace (8 <? length images + length files)%nat with false
    by (symmetry; apply Nat.ltb_ge; lia).
  cbn [run browser]. by rewrite run_upload_each.
Qed.

Lemma posted_requests (files : list File) (cs : list (Call ModalE)) :
  omap posted cs = [] ->
  omap posted (map (fun f => Called (post_upload f)) files ++ cs) = files.
Proof.
  intros Hcs. induction files as [|f files IH]; [done|]. cbn. by f_equal.
Qed.

(** What the loop gathers, said without the loop: the URLs of the answers
    that bring one, a string that is not empty, in their order. *)
Lemma gathered_urls (data : list Upload) (uploaded : list string) :
  fold_left gather data uploaded
  = uploaded ++ omap (fun d => match d with
                               | Answer (Some (String c u)) => Some (String c u)
                               | _ => None
                               end) data.
Proof.
  revert uploaded. induction data as [|d data IH]; intros uploaded.
  - cbn. by rewrite app_nil_r.
  - cbn [fold_left]. rewrite IH.
    destruct d as [[[|c u]|]|]; cbn [gather push_if_truthy truthy]; try reflexivity.
    by rewrite <- app_assoc.
Qed.

(** X21. Choosing files that would bring the images above eight makes no
    request and changes neither the images nor the flag: one toast is
    shown. Otherwise, when no request throws, one request is made per
    file, in the order of the files, and the images become the ones the
    handler started from followed by the URLs answered, in that order: the
    answer to the file at position [i] is the one the network gives to
    request number [sent s + i], and it adds its URL when it has one that
    is not the empty string, and nothing otherwise, without a word. The
    flag ends cleared. *)
Theorem chosen_files_are_appended_or_refused
    (network : nat -> File -> Upload) (images : list string) (files : list File)
    (s : State) :
  Forall (fun data => data <> Throws) (answers network (sent s) files) ->
  let r := run (browser network) (handleFileUpload images (Some files)) s in
  result r = Resolved
  /\ (forall i file, files !! i = Some file ->
        answers network (sent s) files !! i = Some (network (sent s + i)%nat file))
  /\ if (8 <? length images + length files)%nat
     then omap posted (calls r) = []
          /\ imageUrls (final r) = imageUrls s
          /\ uploading (final r) = uploading s
          /\ toasts (final r)
             = toasts s ++ ["You can upload a maximum of 8 images per apartment."]
     else omap posted (calls r) = files
          /\ imageUrls (final r)
             = images
               ++ omap (fun data => match data with
                                    | Answer (Some (String c u)) => Some (String c u)
                                    | _ => None
                                    end) (answers network (sent s) files)
          /\ (length (imageUrls (final r)) <= 8)%nat
          /\ uploading (final r) = false
          /\ toasts (final r) = toasts s.
Proof.
  intros Hall r. subst r.
  assert (Hanswers : forall n i file, files !! i = Some file ->
            answers network n files !! i = Some (network (n + i)%nat file)).
  { clear Hall. induction files as [|f files IH]; intros n i file Hi; [done|].
    destruct i as [|i]; cbn [answers].
    - injection Hi as ->. by rewrite Nat.add_0_r.
    - cbn in Hi. rewrite <- Nat.add_succ_comm. by apply IH. }
  destruct (8 <? length images + length files)%nat eqn:Hcap.
  - unfold handleFileUpload. rewrite Hcap. cbn. split; [done|]. split; [|done].
    apply Hanswers.
  - apply Nat.ltb_ge in Hcap. rewrite run_handleFileUpload by done.
    unfold result, final, calls. cbn [fst snd imageUrls uploading toasts].
    split; [done|]. split; [apply Hanswers|].
    split; [|split; [|split; [|done]]].
    + change (omap posted
                (map (fun f => Called (post_upload f)) files
                 ++ [Called (setValue_imageUrls
                               (images ++ pushed network (sent s) files));
                     Called (setUploading false)]) = files).
      by apply posted_requests.
    + unfold pushed. by rewrite gathered_urls.
    + rewrite length_app. pose proof (length_pushed network (sent s) files). lia.
Qed.

(** X22. A request that throws ends the handler at once: the images are not
    changed, the URLs answered before it are dropped, and [uploading] is
    left set. *)
Theorem thrown_upload_leaves_the_form_uploading
    (network : nat -> File -> Upload) (images : list string) (files : list File)
    (s : State) :
  (length images + length files <= 8)%nat ->
  Exists (fun data => data = Throws) (answers network (sent s) files) ->
  let r := run (browser network) (handleFileUpload images (Some files)) s in
  result r = Rejected
  /\ imageUrls (final r) = imageUrls s
  /\ uploading (final r) = true
  /\ toasts (final r) = toasts s.
Proof.
  intros Hcap Hex r. subst r. unfold handleFileUpload.
  replace (8 <? length images + length files)%nat with false
    by (symmetry; apply Nat.ltb_ge; lia).
  cbn [run browser].
  match goal with
  | |- context [run (browser network) (upload_each files [] ?k) ?s1] =>
      destruct (run_upload_each_throws network files [] k s1 Hex)
        as (Hres & Himg & Hup & Htoast);
      destruct (run (browser network) (upload_each files [] k) s1) as [[a s'] cs]
  end.
  unfold result, final in *. cbn [fst snd] in *. by subst a.
Qed.

Lemma length_splice1 (index : Z) (l : list string) :
  (length (splice1 index l) <= length l)%nat.
Proof.
  unfold splice1. rewrite delete_take_drop, length_app, length_take, length_drop. lia.
Qed.

Lemma act_keeps_the_cap (network : nat -> File -> Upload) (s : State) (a : Action) :
  (length (imageUrls s) <= 8)%nat -> (length (imageUrls (act network s a)) <= 8)%nat.
Proof.
  intros Hs. destruct a as [[files|]|index]; cbn [act].
  - destruct (8 <? length (imageUrls s) + length files)%nat eqn:Hcap.
    + unfold handleFileUpload. rewrite Hcap. by cbn.
    + apply Nat.ltb_ge in Hcap.
      destruct (decide (Exists (fun data => data = Throws)
                          (answers network (sent s) files))) as [Hex|Hno].
      * unfold handleFileUpload.
        replace (8 <? length (imageUrls s) + length files)%nat with false
          by (symmetry; apply Nat.ltb_ge; lia).
        cbn [run browser].
        match goal with
        | |- context [run (browser network) (upload_each files [] ?k) ?s1] =>
            destruct (run_upload_each_throws network files [] k s1 Hex)
              as (_ & Himg & _);
            destruct (run (browser network) (upload_each files [] k) s1)
              as [[x s'] cs]
        end.
        unfold final in *. cbn [fst snd] in *. by rewrite Himg.
      * assert (Hall : Forall (fun data => data <> Throws)
                         (answers network (sent s) files)).
        { apply Forall_forall. intros d Hd Hthrows. apply Hno, Exists_exists. eauto. }
        rewrite run_handleFileUpload by done.
        unfold final. cbn [fst snd imageUrls]. rewrite length_app.
        pose proof (length_pushed network (sent s) files). lia.
  - done.
  - cbn. etrans; [apply length_splice1 | done].
Qed.

(** X23. Whatever the user does with the images, and whatever the network
    answers, the form never holds more than eight. *)
Theorem form_never_holds_more_than_eight_images
    (history : list ((nat -> File -> Upload) * Action)) :
  (length (imageUrls (fold_left (fun s step => act step.1 s step.2) history initial))
   <= 8)%nat.
Proof.
  assert (Hgen : forall s, (length (imageUrls s) <= 8)%nat ->
            (length (imageUrls (fold_left (fun s step => act step.1 s step.2) history s))
             <= 8)%nat).
  { induction history as [|[network a] history IH]; intros s Hs; [done|].
    cbn [fold_left fst snd]. apply IH. by apply act_keeps_the_cap. }
  apply Hgen. cbn. lia.
Qed.

(** X24. Removing the image at a position of the list drops that one image and
    keeps the others in their order; a position past the end removes
    nothing. *)
Theorem removing_an_image_drops_that_one
    (network : nat -> File -> Upload) (images : list string) (index : Z) (s : State) :
  0 <= index ->
  let r := run (browser network) (removeImage images index) s in
  imageUrls (final r)
  = firstn (Z.to_nat index) images ++ skipn (S (Z.to_nat index)) images
  /\ uploading (final r) = uploading s
  /\ calls r = [Called (setValue_imageUrls (imageUrls (final r)))]
  /\ (index < Z.of_nat (length images) ->
      length (imageUrls (final r)) = Nat.pred (length images))
  /\ (Z.of_nat (length images) <= index -> imageUrls (final r) = images).
Proof.
  intros Hindex r. subst r. unfold removeImage. cbn [run browser].
  unfold final, calls. cbn [fst snd imageUrls uploading]. unfold splice1.
  replace (index <? 0) with false by (symmetry; apply Z.ltb_ge; lia).
  split; [|split; [done|split; [done|split]]].
  - destruct (decide (index < Z.of_nat (length images))) as [Hin|Hout].
    + replace (Z.min index (Z.of_nat (length images))) with index by lia.
      apply delete_take_drop.
    + replace (Z.min index (Z.of_nat (length images)))
        with (Z.of_nat (length images)) by lia.
      rewrite Nat2Z.id, delete_take_drop.
      rewrite !firstn_all2 by lia. by rewrite !skipn_all2 by lia.
  - intros Hin. replace (Z.min index (Z.of_nat (length images))) with index by lia.
    rewrite length_delete; [lia|]. apply lookup_lt_is_Some. lia.
  - intros Hout. replace (Z.min index (Z.of_nat (length images)))
      with (Z.of_nat (length images)) by lia.
    rewrite Nat2Z.id, delete_take_drop.
    rewrite firstn_all2 by lia. rewrite skipn_all2 by lia. by rewrite app_nil_r.
Qed.

End FormImages.

Lemma chosen_files_are_appended_or_refused_witness :
  let network : nat -> Modal.File -> Modal.Upload :=
    fun n f => if String.eqb f.1 "b.txt" then Modal.Answer None
               else if String.eqb f.1 "c.png" then Modal.Answer (Some EmptyString)
               else Modal.Answer (Some ("/api/files/" +:+ pretty n +:+ "-" +:+ f.1)) in
  let r := run (Modal.browser network)
             (Modal.handleFileUpload ["/api/files/old.png"]
                (Some [("a.png", "x"); ("b.txt", "y"); ("c.png", "z"); ("d.png", "w")]))
             Modal.initial in
  result r = Modal.Resolved
  /\ omap Modal.posted (calls r)
     = [("a.png", "x"); ("b.txt", "y"); ("c.png", "z"); ("d.png", "w")]
  /\ Modal.imageUrls (final r)
     = ["/api/files/old.png"; "/api/files/0-a.png"; "/api/files/3-d.png"]
  /\ Modal.uploading (final r) = false
  /\ Modal.toasts (final r) = [].
Proof.
  intros network r.
  pose proof (chosen_files_are_appended_or_refused network ["/api/files/old.png"]
                [("a.png", "x"); ("b.txt", "y"); ("c.png", "z"); ("d.png", "w")]
                Modal.initial) as H.
  destruct H as (Hres & _ & H).
  - repeat constructor; vm_compute; discriminate.
  - change (8 <? _)%nat with false in H. cbv iota in H.
    destruct H as (Hposted & Himages & _ & Hflag & Htoasts).
    split; [exact Hres|]. split; [exact Hposted|].
    split; [|split; [exact Hflag | exact Htoasts]].
    etrans; [exact Himages|]. vm_compute. reflexivity.
Defined.

Lemma thrown_upload_leaves_the_form_uploading_witness :
  let network : nat -> Modal.File -> Modal.Upload :=
    fun n f => if (n =? 0)%nat
               then Modal.Answer (Some "/api/files/1-a.png")
               else Modal.Throws in
  let r := run (Modal.browser network)
             (Modal.handleFileUpload [] (Some [("a.png", "x"); ("b.txt", "y")]))
             Modal.initial in
  result r = Modal.Rejected
  /\ Modal.imageUrls (final r) = Modal.imageUrls Modal.initial
  /\ Modal.uploading (final r) = true
  /\ Modal.toasts (final r) = Modal.toasts Modal.initial.
Proof.
  intros network r.
  refine (thrown_upload_leaves_the_form_uploading network []
            [("a.png", "x"); ("b.txt", "y")] Modal.initial _ _).
  - cbn. lia.
  - apply Exists_cons. right. apply Exists_cons. left. reflexivity.
Defined.

Lemma removing_an_image_drops_that_one_witness :
  Modal.imageUrls
    (final (run (Modal.browser (fun _ _ => Modal.Throws))
              (Modal.removeImage ["/api/files/a"; "/api/files/b"; "/api/files/c"] 1)
              Modal.initial))
  = ["/api/files/a"; "/api/files/c"].
Proof.
  refine (proj1 (removing_an_image_drops_that_one (fun _ _ => Modal.Throws)
                   ["/api/files/a"; "/api/files/b"; "/api/files/c"] 1 Modal.initial _)).
  lia.
Defined.

(** ** The fetch coordinator in every reachable state *)

Section ReachableStates.
Import JS Hook Reachable.

Lemma invariant_initial (p : Z) (q : string) (l : Z) (address : URLSearchParams) :
  invariant address l (initial p q l address).
Proof.
  unfold invariant, initial. cbn.
  split; [intros c [a Ha]; by rewrite lookup_empty in Ha|].
  split; [done|]. split; [intros i r Hr; by rewrite lookup_nil in Hr|].
  split; [done|]. split; [done|]. intros H. discriminate H.
Qed.

(** A state that differs only in what is shown and in the search text. *)
Lemma invariant_view (address : URLSearchParams) (l : Z) (s s' : State) :
  suspended s' = suspended s -> controllers s' = controllers s ->
  abortRef s' = abortRef s -> requests s' = requests s ->
  location s' = location s -> limit s' = limit s ->
  isLoading s' = isLoading s -> error s' = error s ->
  invariant address l s -> invariant address l s'.
Proof.
  intros H1 H2 H3 H4 H5 H6 H7 H8. unfold invariant, latest_or_aborted.
  by rewrite H1, H2, H3, H4, H5, H6, H7, H8.
Qed.

Lemma invariant_fetch (address : URLSearchParams) (l : Z) (p : Z) (q : string) (s : State) :
  invariant address l s -> invariant address l (fetchApartments p q s).
Proof.
  intros (Hsusp & Hlen & Hreq & Hloc & Hlim & Hload).
  destruct (fetch_view p q s) as (_ & _ & _ & _ & Hl & Hloading & Herror).
  unfold invariant.
  rewrite fetch_suspended, fetch_requests, fetch_location, fetch_length, Hl, Herror.
  split; [|split; [|split; [|split; [|split]]]].
  - intros c Hc. destruct (decide (c = length (controllers s))) as [->|Hne].
    + apply fetch_is_latest.
    + rewrite lookup_insert_ne in Hc by done.
      pose proof (Hsusp c Hc) as Hold. split.
      * rewrite fetch_length. destruct Hold. lia.
      * right. by apply fetch_supersedes.
  - rewrite length_app. cbn. lia.
  - intros i r Hr. destruct (decide (i < length (requests s))%nat) as [Hi|Hi].
    + rewrite lookup_app_l in Hr by done. by apply Hreq.
    + rewrite lookup_app_r in Hr by lia.
      destruct (i - length (requests s))%nat as [|n] eqn:Hn; [|by destruct n].
      injection Hr as <-. cbn [signal url]. split; [lia|].
      rewrite Hlim. apply buildParams_limit.
  - by rewrite last_snoc.
  - done.
  - intros _. split; [done|]. exists (length (controllers s)).
    rewrite lookup_insert_eq. eauto.
Qed.

Lemma settle_keeps_suspended (c d : nat) (k : Completion) (s : State) :
  is_Some (suspended (settle c k s) !! d) -> is_Some (suspended s !! d).
Proof.
  destruct (decide (c = d)) as [->|Hne];
    [|by rewrite settle_other_activation].
  unfold settle. destruct (suspended s !! d) as [a|] eqn:Ha; [eauto|].
  by rewrite Ha.
Qed.

Lemma settle_loading (c : nat) (k : Completion) (s : State) :
  isLoading (settle c k s) = true ->
  isLoading s = true /\ error (settle c k s) = error s
  /\ (is_Some (suspended s !! c) -> is_Some (suspended (settle c k s) !! c)).
Proof.
  unfold settle. destruct (suspended s !! c) as [a|] eqn:Ha; [|by rewrite Ha].
  destruct (at_ a), k as [r|r|r]; try (by rewrite Ha);
    unfold outcome; destruct (aborted c s); try (intros H; discriminate H);
    destruct r as [v|[]]; try (intros H; discriminate H).
  destruct v; cbn; intros H; (split; [done|]; split; [done|]);
    intros _; rewrite lookup_insert_eq; eauto.
Qed.

Lemma invariant_settle (address : URLSearchParams) (l : Z) (c : nat) (k : Completion)
    (s : State) :
  invariant address l s -> invariant address l (settle c k s).
Proof.
  intros (Hsusp & Hlen & Hreq & Hloc & Hlim & Hload).
  destruct (settle_browser c k s) as (Hc & Href & Hr & Hlo & _ & Hli).
  unfold invariant, latest_or_aborted. rewrite Hc, Href, Hr, Hlo, Hli.
  split; [|split; [done|split; [done|split; [done|split; [done|]]]]].
  - intros d Hd. apply Hsusp. by apply settle_keeps_suspended in Hd.
  - intros Hloading. destruct (settle_loading c k s Hloading) as (Hl & He & Hkeep).
    destruct (Hload Hl) as [Hnone [d Hd]]. split; [congruence|].
    destruct (decide (c = d)) as [->|Hne].
    + exists d. by apply Hkeep.
    + exists d. by rewrite settle_other_activation.
Qed.

Lemma invariant_step (address : URLSearchParams) (l : Z) (s : State) (e : Event) :
  invariant address l s -> invariant address l (step s e).
Proof.
  intros Hs. destruct e as [p q|p|q| |text|c k]; cbn [step].
  - by apply invariant_fetch.
  - unfold goToPage. destruct (p <? 1); [done|].
    destruct (match pagination s with
              | Some pi => p >? PaginationInfo.totalPages pi
              | None => false
              end); [done|].
    apply invariant_fetch. by apply (invariant_view address l s).
  - unfold submitSearch. apply invariant_fetch.
    by apply (invariant_view address l s).
  - unfold clearSearch. apply invariant_fetch.
    by apply (invariant_view address l s).
  - by apply (invariant_view address l s).
  - by apply invariant_settle.
Qed.

Lemma invariant_after (p : Z) (q : string) (l : Z) (address : URLSearchParams)
    (history : list Event) :
  invariant address l (after p q l address history).
Proof.
  unfold after, steps.
  assert (Hgen : forall s, invariant address l s ->
                   invariant address l (fold_left step history s)).
  { induction history as [|e history IH]; intros s Hs; [done|].
    cbn [fold_left]. apply IH. by apply invariant_step. }
  apply Hgen, invariant_initial.
Qed.

(** X25. Whatever has happened since the first render, at most one request can
    still change what is shown: a suspended request that is not aborted is
    the one in [abortRef], the latest. *)
Theorem at_most_one_request_is_live
    (p : Z) (q : string) (l : Z) (address : URLSearchParams) (history : list Event)
    (c d : nat) :
  let s := after p q l address history in
  live c s -> live d s -> c = d /\ abortRef s = Some c.
Proof.
  intros s [Hc Hc'] [Hd Hd'].
  destruct (invariant_after p q l address history) as (Hsusp & _).
  fold s in Hsusp.
  assert (Hlatest : forall x, is_Some (suspended s !! x) -> aborted x s = false ->
                      abortRef s = Some x).
  { intros x Hx Hx'. destruct (Hsusp x Hx) as [_ [Href | Habort]]; [done|].
    apply aborted_lookup in Habort. congruence. }
  pose proof (Hlatest c Hc Hc') as H1. pose proof (Hlatest d Hd Hd') as H2.
  split; [congruence | done].
Qed.

(** X26. When the page and the limit of the first render are integers, then
    whatever has happened since: the requests sent are numbered by their
    signals, each carries [String] of the limit of the first render as
    its [limit], which the listing endpoint reads back as that limit when
    it is below 2^53, and the address bar holds the query of the last
    request sent, or the address of the first render when none has been.
    The limit of the first render is the number in the address bar when
    that is at least 1, and the argument of the hook otherwise. *)
Theorem address_bar_shows_the_last_request
    (Number : string -> float) (searchParams : URLSearchParams) (initialLimit : Z)
    (s0 : State) (history : list Event) :
  useApartments Number searchParams initialLimit = Some s0 ->
  let s := steps s0 history in
  integer (initialLimitQuery Number searchParams initialLimit) = Some (limit s0)
  /\ (initialLimitQuery Number searchParams initialLimit
      = if at_least_1 (Number_or_null Number (get "limit" searchParams))
        then Number_or_null Number (get "limit" searchParams)
        else Fin (inject_Z initialLimit))
  /\ location s = default searchParams (url <$> last (requests s))
  /\ limit s = limit s0
  /\ forall i r, requests s !! i = Some r ->
       signal r = i
       /\ get "limit" (url r) = Some (String_ (limit s0))
       /\ (Z.abs (limit s0) < 2 ^ 53 ->
           Apartments.limit_of (url r) = Int (limit s0)).
Proof.
  intros Hfirst s. unfold useApartments in Hfirst.
  destruct (integer (initialPage Number searchParams)) as [p|]; [|discriminate].
  destruct (integer (initialLimitQuery Number searchParams initialLimit)) as [l|];
    [|discriminate].
  injection Hfirst as <-. cbn [initial limit] in *.
  destruct (invariant_after p (initialQuery searchParams) l searchParams history)
    as (_ & _ & Hreq & Hloc & Hlim & _).
  split; [reflexivity|]. split; [reflexivity|].
  split; [exact Hloc|]. split; [exact Hlim|].
  intros i r Hr. destruct (Hreq i r Hr) as [Hsig Hl].
  split; [exact Hsig|]. split; [exact Hl|].
  intros Hmax. by apply limit_of_String.
Qed.

(** X27. Whatever has happened since the first render, while [isLoading] is set
    a request is in flight and no error is held. *)
Theorem loading_means_a_request_is_in_flight
    (p : Z) (q : string) (l : Z) (address : URLSearchParams) (history : list Event) :
  let s := after p q l address history in
  isLoading s = true ->
  error s = None /\ exists c a, suspended s !! c = Some a.
Proof.
  intros s Hloading.
  destruct (invariant_after p q l address history) as (_ & _ & _ & _ & _ & Hload).
  destruct (Hload Hloading) as [Herr [c [a Ha]]]. eauto.
Qed.

End ReachableStates.

Lemma at_most_one_request_is_live_witness :
  (1 = 1)%nat
  /\ Hook.abortRef
       (Reachable.after 1 EmptyString 8 []
          [Hook.call_fetchApartments 1 EmptyString; Hook.call_goToPage 2])
     = Some 1%nat.
Proof.
  refine (at_most_one_request_is_live 1 EmptyString 8 []
            [Hook.call_fetchApartments 1 EmptyString; Hook.call_goToPage 2]
            1%nat 1%nat _ _).
  - split; [vm_compute; eauto | reflexivity].
  - split; [vm_compute; eauto | reflexivity].
Defined.

Lemma loading_means_a_request_is_in_flight_witness :
  Hook.error
    (Reachable.after 1 EmptyString 8 []
       [Hook.call_fetchApartments 1 EmptyString;
        Hook.settled 0 (Hook.fetch_done (Hook.Fulfilled true))])
  = None
  /\ exists c a,
       Hook.suspended
         (Reachable.after 1 EmptyString 8 []
            [Hook.call_fetchApartments 1 EmptyString;
             Hook.settled 0 (Hook.fetch_done (Hook.Fulfilled true))]) !! c
       = Some a.
Proof.
  refine (loading_means_a_request_is_in_flight 1 EmptyString 8 []
            [Hook.call_fetchApartments 1 EmptyString;
             Hook.settled 0 (Hook.fetch_done (Hook.Fulfilled true))] _).
  reflexivity.
Defined.

Lemma address_bar_shows_the_last_request_witness :
  let r := {| Hook.url := [("page", "2"); ("limit", "5")]; Hook.signal := 0 |} in
  Hook.signal r = 0%nat
  /\ JS.get "limit" (Hook.url r) = Some "5"
  /\ Apartments.limit_of (Hook.url r) = JS.Int 5.
Proof.
  intros r.
  assert (Hfirst : Hook.useApartments Examples.Number [("page", "2"); ("limit", "5")] 8
                   = Some (Hook.initial 2 EmptyString 5 [("page", "2"); ("limit", "5")]))
    by (vm_compute; reflexivity).
  destruct (address_bar_shows_the_last_request Examples.Number
              [("page", "2"); ("limit", "5")] 8 _
              [Hook.call_fetchApartments 2 EmptyString] Hfirst)
    as (_ & _ & _ & _ & H).
  destruct (H 0%nat r) as (Hsig & Hl & Hread); [vm_compute; reflexivity|].
  split; [exact Hsig|]. split; [exact Hl|].
  apply Hread. vm_compute. reflexivity.
Defined.

(** ** The hook against the listing endpoint *)

Section HookAndEndpoint.
Import JS Hook.

(** The answer of the listing endpoint to the query that [fetchApartments]
    builds, as the hook receives it. *)
Lemma received_page (l page : Z) (q : string) (env : Apartments.Engine)
    (st : Apartments.Store) :
  1 <= page < 2 ^ 53 -> 1 <= l < 2 ^ 53 -> Apartments.up env = true ->
  let w := if truthy q then Some q else None in
  let n := Z.of_nat (length (List.filter (Apartments.selects w) st)) in
  received (result (run (Apartments.prisma env) (Apartments.GET (buildParams l page q)) st))
  = Some (true,
          Some {| data_apartments :=
                    Some (firstn (Z.to_nat l)
                            (skipn (Z.to_nat ((page - 1) * l)) (Apartments.ordered w st)));
                  data_pagination :=
                    Some {| PaginationInfo.currentPage := page;
                            PaginationInfo.totalPages := - ((- n) / l);
                            PaginationInfo.totalCount := n;
                            PaginationInfo.hasNextPage := page <? - ((- n) / l);
                            PaginationInfo.hasPrevPage := 1 <? page;
                            PaginationInfo.limit := l |} |}).
Proof.
  intros [Hpage Hpmax] [Hl Hlmax] Hup w n.
  assert (Hp : Apartments.page_of (buildParams l page q) = Int page)
    by (apply buildParams_page_of; lia).
  assert (Hlim : Apartments.limit_of (buildParams l page q) = Int l)
    by (apply buildParams_limit_of; lia).
  pose proof (buildParams_where l page q) as Hw.
  rewrite (GET_answers (buildParams l page q) env st page l Hp Hlim Hpage Hl Hup).
  rewrite Hw. reflexivity.
Qed.

(** X28. A page change end to end, for an integer page and an integer limit
    from 1 to below 2^53 (the numbers that [String] writes in all their
    digits).
    When [goToPage] accepts the page and the listing endpoint answers the
    request that was sent, the hook ends up showing that page of the
    selection for its search text, newest first, with the pagination that
    the endpoint computed, not loading and without an error; the address
    bar holds the query that was sent: the page, the limit and, when it is
    not empty, the search text. *)
Theorem page_change_shows_the_page_asked_for
    (s : State) (page : Z) (env : Apartments.Engine) (st : Apartments.Store) :
  1 <= page < 2 ^ 53 -> 1 <= limit s < 2 ^ 53 -> Apartments.up env = true ->
  (forall p, pagination s = Some p -> page <= PaginationInfo.totalPages p) ->
  exists d,
    received (result (run (Apartments.prisma env)
                        (Apartments.GET (location (goToPage page s))) st))
    = Some (true, Some d)
    /\ forall s',
         s' = settle (length (controllers s)) (json_done (Fulfilled d))
                (settle (length (controllers s)) (fetch_done (Fulfilled true))
                   (goToPage page s)) ->
         apartments s'
         = firstn (Z.to_nat (limit s))
             (skipn (Z.to_nat ((page - 1) * limit s))
                (Apartments.ordered (if truthy (search s) then Some (search s) else None) st))
         /\ currentPage s' = page
         /\ (exists info, pagination s' = Some info
               /\ PaginationInfo.currentPage info = page
               /\ PaginationInfo.limit info = limit s
               /\ PaginationInfo.hasPrevPage info = (1 <? page)
               /\ PaginationInfo.hasNextPage info
                  = (page <? PaginationInfo.totalPages info))
         /\ isLoading s' = false /\ error s' = None /\ search s' = search s
         /\ location s'
            = [("page", String_ page); ("limit", String_ (limit s))]
              ++ (if truthy (search s) then [("search", search s)] else []).
Proof.
  intros Hpage Hl Hup Hmax.
  rewrite (goToPage_fetches page s (proj1 Hpage) Hmax).
  set (s0 := setCurrentPage page s).
  set (c := length (controllers s)).
  assert (Hloc : location (fetchApartments page (search s) s0)
                 = buildParams (limit s) page (search s))
    by apply (fetch_location page (search s) s0).
  assert (Hact : suspended (fetchApartments page (search s) s0) !! c
                 = Some {| Hook.page := page; at_ := await_fetch |}).
  { rewrite fetch_suspended. subst c s0. cbn [setCurrentPage controllers].
    by rewrite lookup_insert_eq. }
  assert (Hctl : controllers (fetchApartments page (search s) s0) !! c = Some false)
    by apply (fetch_new_controller page (search s) s0).
  destruct (fetch_view page (search s) s0) as (_ & _ & _ & Hsearch & _ & _ & Herr).
  rewrite Hloc. eexists. split.
  - apply (received_page (limit s) page (search s) env st Hpage Hl Hup).
  - intros s' ->.
    match goal with
    | |- context [settle c (json_done (Fulfilled ?d)) _] =>
        destruct (fulfilled_view c (fetchApartments page (search s) s0) page d Hact Hctl)
          as (Ha & Hp & Hcur & Hload & He & Hs);
        destruct (settle_browser c (json_done (Fulfilled d))
                    (settle c (fetch_done (Fulfilled true))
                       (fetchApartments page (search s) s0)))
          as (_ & _ & _ & Hlo2 & _);
        destruct (settle_browser c (fetch_done (Fulfilled true))
                       (fetchApartments page (search s) s0))
          as (_ & _ & _ & Hlo1 & _)
    end.
    cbn [data_apartments data_pagination default from_option] in Ha, Hp, Hcur.
    split; [exact Ha|]. split; [exact Hcur|]. split.
    { eexists. split; [exact Hp|]. by cbn. }
    split; [exact Hload|]. split; [congruence|].
    split; [by rewrite Hs, Hsearch|].
    by rewrite Hlo2, Hlo1, Hloc, buildParams_entries.
Qed.

End HookAndEndpoint.

Lemma page_change_shows_the_page_asked_for_witness :
  let s := Hook.setSearch "sky" Examples.browsing in
  exists d,
    Hook.received (result (run (Apartments.prisma Examples.engine)
                     (Apartments.GET [("page", "2"); ("limit", "8"); ("search", "sky")])
                     Examples.seventeen))
    = Some (true, Some d)
    /\ let s' := Hook.settle 1 (Hook.json_done (Hook.Fulfilled d))
                   (Hook.settle 1 (Hook.fetch_done (Hook.Fulfilled true))
                      (Hook.goToPage 2 s)) in
       Hook.apartments s' = map Examples.listing [9; 8; 7; 6; 5; 4; 3; 2]
       /\ Hook.currentPage s' = 2
       /\ Hook.isLoading s' = false /\ Hook.error s' = None
       /\ Hook.location s' = [("page", "2"); ("limit", "8"); ("search", "sky")].
Proof.
  intros s.
  destruct (page_change_shows_the_page_asked_for s 2
              Examples.engine Examples.seventeen) as (d & Hrecv & H).
  - split; [lia | reflexivity].
  - change (1 <= 8 < 2 ^ 53). split; [lia | reflexivity].
  - reflexivity.
  - intros p Hp.
    assert (Hfour : Hook.pagination s = Some Examples.four_pages) by reflexivity.
    rewrite Hfour in Hp. injection Hp as <-. vm_compute. discriminate.
  - exists d. split; [exact Hrecv|]. intros s'.
    destruct (H s' eq_refl) as (Ha & Hcur & _ & Hload & Herr & _ & Hloc).
    split; [rewrite Ha; vm_compute; reflexivity|].
    split; [exact Hcur|]. split; [exact Hload|]. split; [exact Herr|].
    rewrite Hloc. vm_compute. reflexivity.
Defined.

(** ** The two file handlers side by side, and the letter case of a search *)

Section HeadAndGet.
Import JS Files.

(** X29. On a filename that [GET] accepts (no [..], no [/]), [HEAD] and [GET]
    test the same path and agree: [HEAD] answers 404 exactly when [GET]
    does, and when [HEAD] answers 200 [GET] answers 200 or 500. [GET]
    answers 200 exactly when the path is a file and the filename can be
    put in the [Content-Disposition] header (no NUL, line feed or carriage
    return in it), and 500 exactly when the path is a directory, or a file
    whose name cannot be put in the header. *)
Theorem head_agrees_with_get_on_accepted_filenames
    (cwd filename : string) (disk : FileSystem) :
  includes ".." filename = false -> includes "/" filename = false ->
  let h := result (run fs (HEAD cwd filename) disk) in
  let g := result (run fs (GET cwd filename) disk) in
  let header := "inline; filename=" +:+ quote +:+ filename +:+ quote in
  (status h = 404 <-> status g = 404)
  /\ (status h = 200 <-> status g = 200 \/ status g = 500)
  /\ (status g = 200 <->
      (exists content, disk !! join [UPLOAD_DIR cwd; filename] = Some (File content))
      /\ valid_header_value header = true)
  /\ (status g = 500 <->
      disk !! join [UPLOAD_DIR cwd; filename] = Some Directory
      \/ ((exists content, disk !! join [UPLOAD_DIR cwd; filename] = Some (File content))
          /\ valid_header_value header = false))
  /\ head (calls (run fs (GET cwd filename) disk))
     = head (calls (run fs (HEAD cwd filename) disk)).
Proof.
  intros Hdots Hslash h g header. subst h g. rewrite run_HEAD.
  unfold GET. rewrite Hdots, Hslash. cbn [orb run fs].
  set (p := join [UPLOAD_DIR cwd; filename]). fold header.
  destruct (disk !! p) as [[content|]|] eqn:Hnode.
  - rewrite bool_decide_eq_true_2 by eauto. cbn [negb run fs]. rewrite Hnode.
    destruct (valid_header_value header) eqn:Hheader; cbn [run];
      unfold result, calls; cbn [fst snd status head].
    + split; [done|]. split; [split; auto|]. split; [split; eauto|].
      split; [|done]. split; [intros H; discriminate H|].
      intros [H | [_ H]]; discriminate H.
    + split; [done|]. split; [split; auto|].
      split; [split; [intros H; discriminate H | intros [_ H]; discriminate H]|].
      split; [|done]. split; [|done]. intros _. right. eauto.
  - rewrite bool_decide_eq_true_2 by eauto. cbn [negb run fs]. rewrite Hnode.
    unfold result, calls. cbn [fst snd status head].
    split; [done|]. split; [split; auto|].
    split; [split; [intros H; discriminate H | intros [[c Hc] _]; discriminate Hc]|].
    split; [|done]. split; [auto | done].
  - rewrite bool_decide_eq_false_2 by (intros [? ?]; done). cbn [negb run fs].
    unfold result, calls. cbn [fst snd status head].
    split; [done|]. split; [|split; [|split; [|done]]].
    + split; [intros H; discriminate H | intros [H | H]; discriminate H].
    + split; [intros H; discriminate H | intros [[c Hc] _]; discriminate Hc].
    + split; [intros H; discriminate H|].
      intros [H | [[c Hc] _]]; [discriminate H | discriminate Hc].
Qed.

End HeadAndGet.

Lemma head_agrees_with_get_on_accepted_filenames_witness :
  let disk : Files.FileSystem :=
    {[ "/app/files/uploads/1-photo.JPG" := Files.File "bytes" ]} in
  (Files.status (result (run Files.fs (Files.GET "/app" "1-photo.JPG") disk)) = 200
   <-> (exists content,
          disk !! Files.join [Files.UPLOAD_DIR "/app"; "1-photo.JPG"]
          = Some (Files.File content))
       /\ Files.valid_header_value
            ("inline; filename=" +:+ Files.quote +:+ "1-photo.JPG" +:+ Files.quote)
          = true)
  /\ Files.status (result (run Files.fs (Files.GET "/app" "1-photo.JPG") disk)) = 200.
Proof.
  intros disk.
  destruct (head_agrees_with_get_on_accepted_filenames
              "/app" "1-photo.JPG" disk eq_refl eq_refl) as (_ & _ & H & _).
  split; [exact H|]. apply H. split; [|reflexivity].
  exists "bytes". vm_compute. reflexivity.
Defined.

Section LetterCase.
Import JS Apartments.

Lemma toLowerCase_truthy (s : string) : truthy (toLowerCase s) = truthy s.
Proof. by destruct s. Qed.

Lemma selects_letter_case (s1 s2 : string) (a : Apartment) :
  toLowerCase s1 = toLowerCase s2 -> selects (Some s1) a = selects (Some s2) a.
Proof.
  intros H. cbn [selects]. unfold contains_insensitive, ilike.
  by rewrite !toLowerCase_append, H.
Qed.

Lemma filter_letter_case (s1 s2 : string) (st : Store) :
  toLowerCase s1 = toLowerCase s2 ->
  List.filter (selects (whereClause_of (Some s1))) st
  = List.filter (selects (whereClause_of (Some s2))) st.
Proof.
  intros H. cbn [whereClause_of].
  assert (Ht : truthy s1 = truthy s2)
    by (by rewrite <- (toLowerCase_truthy s1), <- (toLowerCase_truthy s2), H).
  rewrite Ht. destruct (truthy s2); [|done].
  apply filter_ext. intros a. by apply selects_letter_case.
Qed.

(** X30. The search does not see letter case: two requests whose search texts
    differ only in the case of their letters, with the same page and
    limit, get the same answer from the listing endpoint, on every store
    and whether the store answers or not. *)
Theorem search_ignores_letter_case
    (sp1 sp2 : URLSearchParams) (s1 s2 : string) (env : Engine) (st : Store) :
  search_of sp1 = Some s1 -> search_of sp2 = Some s2 ->
  toLowerCase s1 = toLowerCase s2 ->
  page_of sp1 = page_of sp2 -> limit_of sp1 = limit_of sp2 ->
  result (run (prisma env) (GET sp1) st) = result (run (prisma env) (GET sp2) st).
Proof.
  intros H1 H2 Hcase Hpage Hlimit.
  pose proof (filter_letter_case s1 s2 st Hcase) as Hfilter.
  unfold GET. rewrite H1, H2, Hpage, Hlimit.
  cbn [run prisma]. destruct (up env) eqn:Hup; [|reflexivity].
  rewrite Hfilter. cbn [run prisma]. rewrite Hup.
  unfold window, ordered. cbn [where_ skip take]. rewrite Hfilter.
  destruct (value (mul (sub (page_of sp2) (Int 1)) (limit_of sp2))) as [sk|];
    [|reflexivity].
  destruct (value (limit_of sp2)) as [tk|]; [|reflexivity].
  destruct (sk <? 0); [reflexivity|]. destruct (0 <=? tk); reflexivity.
Qed.

End LetterCase.

Lemma search_ignores_letter_case_witness :
  result (run (Apartments.prisma Examples.engine)
            (Apartments.GET [("page", "1"); ("limit", "8"); ("search", "SKY")])
            Examples.seventeen)
  = result (run (Apartments.prisma Examples.engine)
              (Apartments.GET [("page", "1"); ("limit", "8"); ("search", "sky")])
              Examples.seventeen).
Proof.
  exact (search_ignores_letter_case
           [("page", "1"); ("limit", "8"); ("search", "SKY")]
           [("page", "1"); ("limit", "8"); ("search", "sky")]
           "SKY" "sky" Examples.engine Examples.seventeen
           eq_refl eq_refl eq_refl eq_refl eq_refl).
Defined.
